(** * Agent Spaces: run executor, policy engine, sandbox file edits and
      protocol validation, embedded from the TypeScript sources.

    The development follows the packages of the repository:
    - [JS]           the string primitives of the host language that the
                     sources call ([includes], [indexOf], [trim],
                     [replace], and [RegExp] on the fragment the policy
                     builds);
    - [Protocol]     operations and events of [packages/protocol];
    - [Policy]       [rules/shell.ts], [rules/filesystem.ts], the presets
                     and [PolicyEngine.evaluate];
    - [Sandbox]      the primitives the executor calls, as an interface;
    - [SandboxFs]    [editFile] of [sandbox/src/filesystem/operations.ts];
    - [Executor]     [executeRun] and [executeOperation];
    - [RunSvc]       [RunService]: [create], [resume], [cancel];
    - [Validation]   the zod schemas of [operations/schemas.ts] and the
                     functions of [validation/validator.ts];
    - [Spec]         the notions the properties are stated with;
    - [Scenario]     the inputs of the end-to-end scenarios.

    Strings are sequences of UTF-16 code units, as in the host language:
    [length], [substring], [includes] and the regular expressions of the
    sources all count and compare code units.  Numbers that the sources
    use as integers (timeouts, sizes, indices) are in [Z]; a number of an
    untrusted input is a rational. *)

From Stdlib Require Import ZArith NArith QArith List Bool Lia String Ascii.
From Stdlib Require Import DecimalString.
From stdpp Require Import base option list gmap.

Import ListNotations.
Local Open Scope Z_scope.
#[local] Set Warnings "-register-all".

(* ===================================================================== *)
(** * Host-language primitives                                            *)
(* ===================================================================== *)

Module JS.

(** A string is the list of its UTF-16 code units. *)
Definition jsstring : Type := list N.

(** Code units of an ASCII literal. *)
Definition str (s : string) : jsstring :=
  List.map N_of_ascii (list_ascii_of_string s).

(** [s.length] *)
Definition length (s : jsstring) : Z := Z.of_nat (List.length s).

(** Strict equality [===] on strings. *)
Fixpoint eqb (a b : jsstring) : bool :=
  match a, b with
  | [], [] => true
  | x :: a', y :: b' => N.eqb x y && eqb a' b'
  | _, _ => false
  end.

(** [s.startsWith(p)] *)
Fixpoint startsWith (s p : jsstring) {struct p} : bool :=
  match p, s with
  | [], _ => true
  | x :: p', y :: s' => N.eqb x y && startsWith s' p'
  | _ :: _, [] => false
  end.

(** [s.includes(p)]: [p] occurs somewhere in [s]. *)
Fixpoint includes (s p : jsstring) : bool :=
  startsWith s p ||
  match s with
  | [] => false
  | _ :: s' => includes s' p
  end.

(** [s.indexOf(p)]: position of the first occurrence, [-1] when none. *)
Fixpoint indexOf_from (s p : jsstring) (i : Z) : Z :=
  if startsWith s p then i
  else match s with
       | [] => -1
       | _ :: s' => indexOf_from s' p (i + 1)
       end.

Definition indexOf (s p : jsstring) : Z := indexOf_from s p 0.

(** [s.substring(a, b)]: both ends are clamped to [0 .. length] and
    swapped when out of order. *)
Definition clamp (s : jsstring) (i : Z) : Z := Z.min (Z.max i 0) (length s).

Definition substring (s : jsstring) (a b : Z) : jsstring :=
  let from := Z.min (clamp s a) (clamp s b) in
  let to := Z.max (clamp s a) (clamp s b) in
  take (Z.to_nat (to - from)) (drop (Z.to_nat from) s).

(** White space and line terminators stripped by [trim()]. *)
Definition isWhiteSpace (c : N) : bool :=
  (existsb (N.eqb c)
     [9; 10; 11; 12; 13; 32; 160; 5760; 8232; 8233; 8239; 8287; 12288; 65279]
   || (N.leb 8192 c && N.leb c 8202))%N.

Fixpoint trimStart (s : jsstring) : jsstring :=
  match s with
  | c :: s' => if isWhiteSpace c then trimStart s' else s
  | [] => []
  end.

Definition trimEnd (s : jsstring) : jsstring := rev (trimStart (rev s)).

(** [s.trim()] *)
Definition trim (s : jsstring) : jsstring := trimEnd (trimStart s).

(** [xs.join(sep)] *)
Fixpoint join (xs : list jsstring) (sep : jsstring) : jsstring :=
  match xs with
  | [] => []
  | [x] => x
  | x :: rest => x ++ sep ++ join rest sep
  end.

(** [xs.includes(x)] on an array of strings. *)
Definition arrayIncludes (xs : list jsstring) (x : jsstring) : bool :=
  existsb (eqb x) xs.

(** Truthiness of an optional string: [undefined] and [''] are falsy. *)
Definition orElse (o : option jsstring) (d : jsstring) : jsstring :=
  match o with
  | Some (c :: s) => c :: s
  | _ => d
  end.

(** [String(n)] for an integer [n] below 10^21 in absolute value: the
    decimal digits.  From 10^21 on the host prints an exponent
    ([1e+21]), a range that the embedding does not model. *)
Definition numberToString (n : Z) : jsstring :=
  str (NilZero.string_of_int (Z.to_int n)).

(** The double quote, written by its code unit. *)
Definition dquote : jsstring := [34%N].

(** A computation that either returns or throws. *)
Inductive outcome (A : Type) : Type :=
| Return (a : A)
| Throw (message : jsstring).
Arguments Return {A} a.
Arguments Throw {A} message.

Definition bind {A B} (m : outcome A) (k : A -> outcome B) : outcome B :=
  match m with
  | Return a => k a
  | Throw e => Throw e
  end.

(** ** [String.prototype.replace] with a string pattern

    [s.replace(p, r)] rewrites the first occurrence of [p] only, and the
    replacement text [r] is a template: [$$] stands for a dollar sign,
    [$&] for the matched text, [$`] for the text before the match and
    [$'] for the text after it.  A string pattern has no capture groups,
    so [$1] .. [$99] and [$<] stay as written. *)

(** Text before and after the first occurrence of [p] in [s]. *)
Fixpoint splitFirst (s p : jsstring) : option (jsstring * jsstring) :=
  if startsWith s p then Some ([], drop (List.length p) s)
  else match s with
       | [] => None
       | c :: s' =>
           match splitFirst s' p with
           | Some (pre, post) => Some (c :: pre, post)
           | None => None
           end
       end.

Fixpoint getSubstitution (matched preceding following templ : jsstring)
  : jsstring :=
  match templ with
  | 36%N :: 36%N :: rest =>
      36%N :: getSubstitution matched preceding following rest
  | 36%N :: 38%N :: rest =>
      matched ++ getSubstitution matched preceding following rest
  | 36%N :: 96%N :: rest =>
      preceding ++ getSubstitution matched preceding following rest
  | 36%N :: 39%N :: rest =>
      following ++ getSubstitution matched preceding following rest
  | c :: rest => c :: getSubstitution matched preceding following rest
  | [] => []
  end.

Definition replace (s p r : jsstring) : jsstring :=
  match splitFirst s p with
  | None => s
  | Some (pre, post) => pre ++ getSubstitution p pre post r ++ post
  end.

(** [s.replace(/[...]/g, '\\$&')]: every code unit of the class gets a
    backslash in front. *)
Definition escapeAll (inClass : N -> bool) (s : jsstring) : jsstring :=
  flat_map (fun c => if inClass c then [92%N; c] else [c]) s.

(** [s.replace(/c/g, r)] for a single literal code unit [c] and a
    replacement [r] without dollar signs. *)
Definition replaceAllChar (c : N) (r : jsstring) (s : jsstring) : jsstring :=
  flat_map (fun d => if N.eqb d c then r else [d]) s.

(** [Buffer.byteLength(s)]: size of the UTF-8 encoding.  A surrogate pair
    takes four bytes, a lone surrogate is written as U+FFFD. *)
Definition isHighSurrogate (c : N) : bool := (N.leb 55296 c && N.leb c 56319)%N.
Definition isLowSurrogate (c : N) : bool := (N.leb 56320 c && N.leb c 57343)%N.

Fixpoint byteLength (s : jsstring) : Z :=
  match s with
  | [] => 0
  | c :: rest =>
      if N.ltb c 128 then 1 + byteLength rest
      else if N.ltb c 2048 then 2 + byteLength rest
      else if isHighSurrogate c then
        match rest with
        | d :: rest' =>
            if isLowSurrogate d then 4 + byteLength rest'
            else 3 + byteLength rest
        | [] => 3
        end
      else 3 + byteLength rest
  end.

(** The text that comes back from UTF-8: what [writeFile(p, s, 'utf-8')]
    stores and [readFile(p, 'utf-8')] then returns.  A surrogate pair is
    kept, a lone surrogate comes back as U+FFFD. *)
Fixpoint toWellFormed (s : jsstring) : jsstring :=
  match s with
  | [] => []
  | c :: rest =>
      if isHighSurrogate c then
        match rest with
        | d :: rest' =>
            if isLowSurrogate d then c :: d :: toWellFormed rest'
            else 65533%N :: toWellFormed rest
        | [] => [65533%N]
        end
      else if isLowSurrogate c then 65533%N :: toWellFormed rest
      else c :: toWellFormed rest
  end.

(** ** Regular expressions

    [new RegExp(source)] is modelled on the fragment that a source text
    built from anchors, literal code units, backslash escapes of
    punctuation, the dot and the quantifiers [*], [+], [?] can express
    (no flags: the dot stops at line terminators, [^] and [$] are the
    ends of the input).  Groups, classes, alternation and braces are
    outside the fragment. *)

Inductive atom : Type :=
| AChar (c : N)
| ADot.

Inductive quant : Type := QOne | QStar | QPlus | QOpt.

Inductive term : Type :=
| TBegin
| TEnd
| TAtom (a : atom) (q : quant).

Definition regex : Type := list term.

Inductive compiled : Type :=
| Compiled (r : regex)
| SyntaxError
| OutsideFragment.

(** The syntax characters [^ $ \ . * + ? ( ) [ ] { } |]. *)
Definition isSyntaxChar (c : N) : bool :=
  existsb (N.eqb c)
    [94; 36; 92; 46; 42; 43; 63; 40; 41; 91; 93; 123; 125; 124]%N.

(** What the parser has just read. *)
Inductive pstate : Type :=
| PStart          (* nothing a quantifier could apply to *)
| PAtom           (* an atom: a quantifier may follow *)
| PQuant          (* a quantifier: the lazy mark [?] may follow *)
| PEscape.        (* a backslash *)

Definition setQuant (q : quant) (acc : list term) : list term :=
  match acc with
  | TAtom a _ :: acc' => TAtom a q :: acc'
  | _ => acc
  end.

(** [acc] holds the terms read so far, last one first. *)
Fixpoint parse (st : pstate) (acc : list term) (src : jsstring) : compiled :=
  match src with
  | [] =>
      match st with
      | PEscape => SyntaxError
      | _ => Compiled (rev acc)
      end
  | c :: rest =>
      match st with
      | PEscape =>
          if isSyntaxChar c || N.eqb c 47
          then parse PAtom (TAtom (AChar c) QOne :: acc) rest
          else OutsideFragment
      | _ =>
          if N.eqb c 92 then parse PEscape acc rest
          else if N.eqb c 94 then parse PStart (TBegin :: acc) rest
          else if N.eqb c 36 then parse PStart (TEnd :: acc) rest
          else if N.eqb c 46 then parse PAtom (TAtom ADot QOne :: acc) rest
          else if N.eqb c 42 then
            match st with
            | PAtom => parse PQuant (setQuant QStar acc) rest
            | _ => SyntaxError
            end
          else if N.eqb c 43 then
            match st with
            | PAtom => parse PQuant (setQuant QPlus acc) rest
            | _ => SyntaxError
            end
          else if N.eqb c 63 then
            match st with
            | PAtom => parse PQuant (setQuant QOpt acc) rest
            | PQuant => parse PStart acc rest
            | _ => SyntaxError
            end
          else if isSyntaxChar c then OutsideFragment
          else parse PAtom (TAtom (AChar c) QOne :: acc) rest
      end
  end.

(** [new RegExp(source)] *)
Definition RegExp (source : jsstring) : compiled := parse PStart [] source.

(** Line terminators, which the dot does not match. *)
Definition isLineTerminator (c : N) : bool :=
  existsb (N.eqb c) [10; 13; 8232; 8233]%N.

Definition atomMatches (a : atom) (c : N) : bool :=
  match a with
  | AChar d => N.eqb c d
  | ADot => negb (isLineTerminator c)
  end.

(** [matchTerms ts atStart s]: the terms match some prefix of [s];
    [atStart] tells whether [s] begins at the start of the input. *)
Fixpoint matchTerms (ts : list term) (atStart : bool) (s : jsstring)
  {struct ts} : bool :=
  match ts with
  | [] => true
  | TBegin :: ts' => atStart && matchTerms ts' atStart s
  | TEnd :: ts' =>
      match s with [] => matchTerms ts' atStart s | _ :: _ => false end
  | TAtom a q :: ts' =>
      let star :=
        fix star (b : bool) (s : jsstring) {struct s} : bool :=
          matchTerms ts' b s ||
          match s with
          | c :: s' => atomMatches a c && star false s'
          | [] => false
          end in
      match q with
      | QOne =>
          match s with
          | c :: s' => atomMatches a c && matchTerms ts' false s'
          | [] => false
          end
      | QOpt =>
          matchTerms ts' atStart s ||
          match s with
          | c :: s' => atomMatches a c && matchTerms ts' false s'
          | [] => false
          end
      | QStar => star atStart s
      | QPlus =>
          match s with
          | c :: s' => atomMatches a c && star false s'
          | [] => false
          end
      end
  end.

(** [regex.test(s)]: a match starting at some position of [s]. *)
Fixpoint testFrom (r : regex) (atStart : bool) (s : jsstring) : bool :=
  matchTerms r atStart s ||
  match s with
  | [] => false
  | _ :: s' => testFrom r false s'
  end.

Definition test (r : regex) (s : jsstring) : bool := testFrom r true s.

End JS.

Abbreviation jsstring := JS.jsstring.
Abbreviation str := JS.str.
Abbreviation outcome := JS.outcome.
Abbreviation Return := JS.Return.
Abbreviation Throw := JS.Throw.

(* ===================================================================== *)
(** * Protocol: operations and events                                     *)
(* ===================================================================== *)

Module Protocol.

Inductive Encoding : Type := Utf8 | Base64.

(** [FileEdit] *)
Record FileEdit : Type := mkFileEdit {
  oldContent : jsstring;
  newContent : jsstring;
}.

(** [Operation]: the tagged union of [operations/types.ts].  Every
    variant carries the optional correlation [id] of [BaseOperation]. *)
Inductive Operation : Type :=
| MessageOperation (id : option jsstring) (content : jsstring)
| CreateFileOperation (id : option jsstring) (path content : jsstring)
    (encoding : option Encoding) (overwrite : option bool)
| ReadFileOperation (id : option jsstring) (path : jsstring)
    (encoding : option Encoding)
| EditFileOperation (id : option jsstring) (path : jsstring)
    (edits : list FileEdit)
| DeleteFileOperation (id : option jsstring) (path : jsstring)
| ShellOperation (id : option jsstring) (command : jsstring)
    (cwd : option jsstring) (timeout : option Z)
    (env : option (list (jsstring * jsstring))).

(** [operation.id] *)
Definition op_id (o : Operation) : option jsstring :=
  match o with
  | MessageOperation id _ => id
  | CreateFileOperation id _ _ _ _ => id
  | ReadFileOperation id _ _ => id
  | EditFileOperation id _ _ => id
  | DeleteFileOperation id _ => id
  | ShellOperation id _ _ _ _ => id
  end.

Inductive OperationType : Type :=
| TyMessage | TyCreateFile | TyReadFile | TyEditFile | TyDeleteFile | TyShell.

(** [operation.type] *)
Definition op_type (o : Operation) : OperationType :=
  match o with
  | MessageOperation _ _ => TyMessage
  | CreateFileOperation _ _ _ _ _ => TyCreateFile
  | ReadFileOperation _ _ _ => TyReadFile
  | EditFileOperation _ _ _ => TyEditFile
  | DeleteFileOperation _ _ => TyDeleteFile
  | ShellOperation _ _ _ _ _ => TyShell
  end.

(** The tag as the string the sources write. *)
Definition typeName (t : OperationType) : jsstring :=
  match t with
  | TyMessage => str "message"
  | TyCreateFile => str "createFile"
  | TyReadFile => str "readFile"
  | TyEditFile => str "editFile"
  | TyDeleteFile => str "deleteFile"
  | TyShell => str "shell"
  end.

(** The [details] object of an approval request. *)
Record ApprovalDetails : Type := mkDetails {
  d_policy : option jsstring;
  d_command : option jsstring;
  d_path : option jsstring;
}.

Inductive ErrorCategory : Type :=
| CatValidation | CatPolicy | CatExecution | CatTimeout | CatSystem.

(** [Event]: the variants of [events/types.ts] that the executor and the
    run service build.  The [timestamp] field, a reading of the wall
    clock, is not part of the embedding. *)
Inductive Event : Type :=
| MessageEvent (operationId : option jsstring)
| CreateFileEvent (operationId : option jsstring) (path : jsstring)
    (success : bool) (bytesWritten : option Z) (error : option jsstring)
| ReadFileEvent (operationId : option jsstring) (path : jsstring)
    (success : bool) (content : option jsstring)
    (encoding : option Encoding) (size : option Z) (error : option jsstring)
| EditFileEvent (operationId : option jsstring) (path : jsstring)
    (success : bool) (editsApplied : option Z) (error : option jsstring)
| DeleteFileEvent (operationId : option jsstring) (path : jsstring)
    (success : bool) (error : option jsstring)
| ShellEvent (operationId : option jsstring) (command : jsstring)
    (success : bool) (exitCode : Z) (stdout stderr : jsstring)
    (durationMs : Z) (timedOut : bool)
| ApprovalRequiredEvent (operationId : jsstring) (operationType : OperationType)
    (reason : jsstring) (details : ApprovalDetails)
| PolicyDeniedEvent (operationId : option jsstring)
    (operationType : OperationType) (reason : jsstring)
    (suggestion : option jsstring)
| ErrorEvent (category : ErrorCategory) (message : jsstring).

Inductive EventType : Type :=
| EvOf (t : OperationType)      (* the event named after an operation *)
| EvApprovalRequired
| EvPolicyDenied
| EvError.

(** [event.type] *)
Definition ev_type (e : Event) : EventType :=
  match e with
  | MessageEvent _ => EvOf TyMessage
  | CreateFileEvent _ _ _ _ _ => EvOf TyCreateFile
  | ReadFileEvent _ _ _ _ _ _ _ => EvOf TyReadFile
  | EditFileEvent _ _ _ _ _ => EvOf TyEditFile
  | DeleteFileEvent _ _ _ _ => EvOf TyDeleteFile
  | ShellEvent _ _ _ _ _ _ _ _ => EvOf TyShell
  | ApprovalRequiredEvent _ _ _ _ => EvApprovalRequired
  | PolicyDeniedEvent _ _ _ _ => EvPolicyDenied
  | ErrorEvent _ _ => EvError
  end.

(** [RunStatus], with the two further states of the [runs] table. *)
Inductive RunStatus : Type :=
| Running | Completed | AwaitingApproval | Cancelled | Errored.

End Protocol.
Import Protocol.

(* ===================================================================== *)
(** * Policy engine                                                       *)
(* ===================================================================== *)

Module Policy.

Record FilesystemPolicy : Type := mkFilesystemPolicy {
  fs_enabled : bool;
  readOnly : bool;
  maxFileSize : Z;
  allowedPaths : option (list jsstring);
  blockedPaths : option (list jsstring);
}.

Record ShellPolicy : Type := mkShellPolicy {
  sh_enabled : bool;
  allowedCommands : option (list jsstring);
  blockedPatterns : option (list jsstring);
  timeout : Z;
  approvalRequired : option (list jsstring);
}.

Record NetworkPolicy : Type := mkNetworkPolicy {
  net_enabled : bool;
  allowedDomains : option (list jsstring);
  blockedDomains : option (list jsstring);
}.

Record Policy : Type := mkPolicy {
  name : jsstring;
  description : option jsstring;
  filesystem : FilesystemPolicy;
  shell : ShellPolicy;
  network : NetworkPolicy;
}.

(** [PolicyEvaluation] *)
Record PolicyEvaluation : Type := mkEval {
  allowed : bool;
  requiresApproval : bool;
  reason : option jsstring;
  suggestion : option jsstring;
  policy : option jsstring;
}.

Definition allow : PolicyEvaluation :=
  mkEval true false None None None.

(** ** [rules/shell.ts] *)
Module ShellRules.

Definition extractBaseCommand (command : jsstring) : jsstring :=
  let trimmed := JS.trim command in
  let firstSpace := JS.indexOf trimmed (str " ") in
  if firstSpace =? -1 then trimmed else JS.substring trimmed 0 firstSpace.

Definition matchesAnyPattern (command : jsstring) (patterns : list jsstring)
  : bool :=
  existsb (fun pattern => JS.includes command pattern) patterns.

Definition evaluateShellPolicy (policy : ShellPolicy) (command : jsstring)
  : PolicyEvaluation :=
  if negb (sh_enabled policy) then
    mkEval false false
      (Some (str "Shell execution is disabled"))
      (Some (str "Use a policy that allows shell execution"))
      (Some (str "shell.enabled"))
  else if match blockedPatterns policy with
          | Some ps => matchesAnyPattern command ps
          | None => false
          end then
    mkEval false false
      (Some (str "Command contains blocked pattern"))
      None
      (Some (str "shell.blockedPatterns"))
  else
    let approvalCheck :=
      if match approvalRequired policy with
         | Some ps => matchesAnyPattern command ps
         | None => false
         end then
        mkEval true true
          (Some (str "Command requires approval"))
          None
          (Some (str "shell.approvalRequired"))
      else
        mkEval true false None None None in
    match allowedCommands policy with
    | Some (c :: cs) =>
        let baseCommand := extractBaseCommand command in
        if negb (JS.arrayIncludes (c :: cs) baseCommand) then
          mkEval false false
            (Some (str "Command " ++ JS.dquote ++ baseCommand ++ JS.dquote
                     ++ str " is not in allowed commands"))
            (Some (str "Allowed commands: " ++ JS.join (c :: cs) (str ", ")))
            (Some (str "shell.allowedCommands"))
        else approvalCheck
    | _ => approvalCheck
    end.

(** [requestedTimeout] is optional; [0] is falsy. *)
Definition getShellTimeout (policy : ShellPolicy)
    (requestedTimeout : option Z) : Z :=
  match requestedTimeout with
  | Some t =>
      if negb (t =? 0) && (t <? timeout policy) then t else timeout policy
  | None => timeout policy
  end.

End ShellRules.

(** ** [rules/filesystem.ts] *)
Module FilesystemRules.

(** The class [[.+^${}()|[\]\\]] of the escaping pass. *)
Definition isEscapedChar (c : N) : bool :=
  existsb (N.eqb c) [46; 43; 94; 36; 123; 125; 40; 41; 124; 91; 93; 92]%N.

(** The source text handed to [new RegExp]. *)
Definition regexSource (pattern : jsstring) : jsstring :=
  let regexPattern :=
    JS.replaceAllChar 42 (str ".*") (JS.escapeAll isEscapedChar pattern) in
  str "^" ++ regexPattern ++ str "$".

Definition invalidRegExp : jsstring :=
  str "SyntaxError: Invalid regular expression".

Definition matchesPattern (path pattern : jsstring) : outcome bool :=
  match JS.RegExp (regexSource pattern) with
  | JS.Compiled regex => Return (JS.test regex path)
  | JS.SyntaxError => Throw invalidRegExp
  | JS.OutsideFragment => Throw (str "RegExp outside the modelled fragment")
  end.

(** [patterns.some(...)]: left to right, stopping at the first hit. *)
Fixpoint matchesAnyPattern (path : jsstring) (patterns : list jsstring)
  : outcome bool :=
  match patterns with
  | [] => Return false
  | pattern :: rest =>
      JS.bind (matchesPattern path pattern) (fun hit =>
        if hit then Return true else matchesAnyPattern path rest)
  end.

Definition evaluateFilesystemPolicy (policy : FilesystemPolicy)
    (path : jsstring) (isWrite : bool) : outcome PolicyEvaluation :=
  if negb (fs_enabled policy) then
    Return (mkEval false false
              (Some (str "Filesystem access is disabled"))
              None
              (Some (str "filesystem.enabled")))
  else if isWrite && readOnly policy then
    Return (mkEval false false
              (Some (str "Filesystem is read-only"))
              (Some (str "Use a policy that allows write access"))
              (Some (str "filesystem.readOnly")))
  else
    JS.bind
      (match blockedPaths policy with
       | Some ps => matchesAnyPattern path ps
       | None => Return false
       end)
      (fun blocked =>
         if blocked then
           Return (mkEval false false
                     (Some (str "Path " ++ JS.dquote ++ path ++ JS.dquote
                              ++ str " is blocked by policy"))
                     None
                     (Some (str "filesystem.blockedPaths")))
         else
           JS.bind
             (match allowedPaths policy with
              | Some (p :: ps) =>
                  JS.bind (matchesAnyPattern path (p :: ps))
                    (fun hit => Return (negb hit))
              | _ => Return false
              end)
             (fun notAllowed =>
                if notAllowed then
                  Return (mkEval false false
                            (Some (str "Path " ++ JS.dquote ++ path
                                     ++ JS.dquote
                                     ++ str " is not in allowed paths"))
                            None
                            (Some (str "filesystem.allowedPaths")))
                else Return allow)).

Definition evaluateFileSize (policy : FilesystemPolicy) (size : Z)
  : PolicyEvaluation :=
  if maxFileSize policy <? size then
    mkEval false false
      (Some (str "File size (" ++ JS.numberToString size
               ++ str " bytes) exceeds limit ("
               ++ JS.numberToString (maxFileSize policy) ++ str " bytes)"))
      None
      (Some (str "filesystem.maxFileSize"))
  else allow.

End FilesystemRules.

(** ** Presets *)

Definition restrictivePolicy : Policy :=
  {| name := str "restrictive";
     description := Some (str "Maximum security, minimal permissions");
     filesystem :=
       {| fs_enabled := true; readOnly := true; maxFileSize := 1024 * 1024;
          allowedPaths := None;
          blockedPaths := Some [str ".*"; str "*.env"; str "*.key"; str "*.pem"] |};
     shell :=
       {| sh_enabled := false; allowedCommands := None;
          blockedPatterns := None; timeout := 10000;
          approvalRequired := None |};
     network :=
       {| net_enabled := false; allowedDomains := None;
          blockedDomains := None |} |}.

Definition standardPolicy : Policy :=
  {| name := str "standard";
     description := Some (str "Balanced security and functionality");
     filesystem :=
       {| fs_enabled := true; readOnly := false;
          maxFileSize := 10 * 1024 * 1024;
          allowedPaths := None;
          blockedPaths :=
            Some [str ".*"; str "*.env"; str "*.key"; str "*.pem";
                  str "node_modules"] |};
     shell :=
       {| sh_enabled := true;
          allowedCommands :=
            Some [str "bun"; str "node"; str "npm"; str "npx"; str "cat";
                  str "echo"; str "ls"; str "pwd"; str "head"; str "tail";
                  str "grep"; str "find"; str "wc"];
          blockedPatterns :=
            Some [str "rm -rf /"; str "rm -rf ~"; str "sudo"; str "chmod";
                  str "chown"; str "curl"; str "wget"; str "ssh"];
          timeout := 30000;
          approvalRequired := Some [str "rm -rf"; str "rm -r"] |};
     network :=
       {| net_enabled := false; allowedDomains := None;
          blockedDomains := None |} |}.

Definition permissivePolicy : Policy :=
  {| name := str "permissive";
     description := Some (str "Maximum functionality, requires trust");
     filesystem :=
       {| fs_enabled := true; readOnly := false;
          maxFileSize := 100 * 1024 * 1024;
          allowedPaths := None;
          blockedPaths := Some [str "*.key"; str "*.pem"] |};
     shell :=
       {| sh_enabled := true; allowedCommands := None;
          blockedPatterns := Some [str "rm -rf /"; str "rm -rf ~"; str "sudo"];
          timeout := 300000;
          approvalRequired :=
            Some [str "rm -rf"; str "rm -r"; str "chmod"; str "chown"] |};
     network :=
       {| net_enabled := true; allowedDomains := Some [str "*"];
          blockedDomains := None |} |}.

Inductive PolicyPreset : Type := Restrictive | Standard | Permissive.

Definition getPreset (name : PolicyPreset) : Policy :=
  match name with
  | Restrictive => restrictivePolicy
  | Standard => standardPolicy
  | Permissive => permissivePolicy
  end.

(** ** [PolicyEngine] ([engine.ts]).  The engine is its policy. *)
Module PolicyEngine.

Definition fromPreset (preset : PolicyPreset) : Policy := getPreset preset.

Definition evaluateCreateFile (policy : Policy) (path content : jsstring)
  : outcome PolicyEvaluation :=
  JS.bind
    (FilesystemRules.evaluateFilesystemPolicy (filesystem policy) path true)
    (fun pathEval =>
       if negb (allowed pathEval) then Return pathEval
       else
         let sizeEval :=
           FilesystemRules.evaluateFileSize (filesystem policy)
             (JS.length content) in
         if negb (allowed sizeEval) then Return sizeEval
         else Return allow).

Definition evaluateReadFile (policy : Policy) (path : jsstring) :=
  FilesystemRules.evaluateFilesystemPolicy (filesystem policy) path false.

Definition evaluateEditFile (policy : Policy) (path : jsstring) :=
  FilesystemRules.evaluateFilesystemPolicy (filesystem policy) path true.

Definition evaluateDeleteFile (policy : Policy) (path : jsstring) :=
  FilesystemRules.evaluateFilesystemPolicy (filesystem policy) path true.

Definition evaluateShell (policy : Policy) (command : jsstring)
  : PolicyEvaluation :=
  ShellRules.evaluateShellPolicy (shell policy) command.

Definition evaluate (policy : Policy) (operation : Operation)
  : outcome PolicyEvaluation :=
  match operation with
  | MessageOperation _ _ => Return allow
  | CreateFileOperation _ path content _ _ =>
      evaluateCreateFile policy path content
  | ReadFileOperation _ path _ => evaluateReadFile policy path
  | EditFileOperation _ path _ => evaluateEditFile policy path
  | DeleteFileOperation _ path => evaluateDeleteFile policy path
  | ShellOperation _ command _ _ _ => Return (evaluateShell policy command)
  end.

Definition getShellTimeout (policy : Policy) (requestedTimeout : option Z)
  : Z :=
  ShellRules.getShellTimeout (shell policy) requestedTimeout.

End PolicyEngine.

End Policy.
Import Policy.

(* ===================================================================== *)
(** * Sandbox                                                             *)
(* ===================================================================== *)

Module Sandbox.

(** [FileResult], with the [editsApplied] that [editFile] adds. *)
Record FileResult : Type := mkFileResult {
  fr_success : bool;
  fr_path : jsstring;
  fr_content : option jsstring;
  fr_size : option Z;
  fr_error : option jsstring;
  fr_editsApplied : option Z;
}.

Record ShellResult : Type := mkShellResult {
  sr_success : bool;
  sr_command : jsstring;
  sr_exitCode : Z;
  sr_stdout : jsstring;
  sr_stderr : jsstring;
  sr_durationMs : Z;
  sr_timedOut : bool;
}.

Definition failure (path error : jsstring) : FileResult :=
  mkFileResult false path None None (Some error) None.

(** The primitives of the [Sandbox] class that the executor calls.  Each
    one catches its own exceptions and hands back a result, together
    with the sandbox (container and workspace) as the call leaves it. *)
Class SandboxOps (S : Type) : Type := {
  createFile : jsstring -> jsstring -> option bool -> option Encoding ->
               S -> FileResult * S;
  readFile : jsstring -> option Encoding -> S -> FileResult * S;
  editFile : jsstring -> list FileEdit -> S -> FileResult * S;
  deleteFile : jsstring -> S -> FileResult * S;
  exec : jsstring -> option jsstring -> option (list (jsstring * jsstring)) ->
         option Z -> S -> ShellResult * S;
}.

End Sandbox.

(** ** [filesystem/operations.ts]: [editFile] on the host file system *)

Module SandboxFs.
Import Sandbox.

(** What a path of the host names.  The text of a file is its content
    decoded as UTF-8, which is how [editFile] reads and writes it: a
    text that is written is stored as it comes back from UTF-8. *)
Inductive Node : Type :=
| File (text : jsstring)
| Directory.

(** [existsSync(p)] *)
Definition existsSync (fs : gmap jsstring Node) (p : jsstring) : bool :=
  match fs !! p with Some _ => true | None => false end.

(** [await readFile(p, 'utf-8')] *)
Definition fsReadFile (fs : gmap jsstring Node) (p : jsstring)
  : outcome jsstring :=
  match fs !! p with
  | Some (File text) => Return text
  | Some Directory =>
      Throw (str "EISDIR: illegal operation on a directory, read")
  | None => Throw (str "ENOENT: no such file or directory")
  end.

(** [await writeFile(p, content, 'utf-8')] *)
Definition fsWriteFile (fs : gmap jsstring Node) (p content : jsstring)
  : outcome (gmap jsstring Node) :=
  match fs !! p with
  | Some Directory =>
      Throw (str "EISDIR: illegal operation on a directory, open")
  | _ => Return (<[p := File (JS.toWellFormed content)]> fs)
  end.

Section WithPathJoin.

(** [join] of [node:path]. *)
Variable join : list jsstring -> jsstring.

Definition getFullPath (workspacePath relativePath : jsstring) : jsstring :=
  join [workspacePath; relativePath].

Definition isPathInWorkspace (workspacePath targetPath : jsstring) : bool :=
  let resolvedWorkspace := join [workspacePath] in
  let resolvedTarget := join [workspacePath; targetPath] in
  JS.startsWith resolvedTarget resolvedWorkspace.

(** The [for (const edit of edits)] loop: the first probe that is not
    found returns from [editFile] with a failure. *)
Fixpoint applyEdits (relativePath : jsstring) (edits : list FileEdit)
    (content : jsstring) (editsApplied : Z)
  : FileResult + (jsstring * Z) :=
  match edits with
  | [] => inr (content, editsApplied)
  | edit :: rest =>
      if negb (JS.includes content (oldContent edit)) then
        inl (failure relativePath
               (str "Could not find content to replace: " ++ JS.dquote
                  ++ JS.substring (oldContent edit) 0 50
                  ++ str "..." ++ JS.dquote))
      else
        applyEdits relativePath rest
          (JS.replace content (oldContent edit) (newContent edit))
          (editsApplied + 1)
  end.

Definition editFile (workspacePath relativePath : jsstring)
    (edits : list FileEdit) (fs : gmap jsstring Node)
  : FileResult * gmap jsstring Node :=
  if negb (isPathInWorkspace workspacePath relativePath) then
    (failure relativePath (str "Path is outside workspace"), fs)
  else
    let fullPath := getFullPath workspacePath relativePath in
    if negb (existsSync fs fullPath) then
      (failure relativePath (str "File not found"), fs)
    else
      match fsReadFile fs fullPath with
      | Throw message => (failure relativePath message, fs)
      | Return content0 =>
          match applyEdits relativePath edits content0 0 with
          | inl failed => (failed, fs)
          | inr (content, editsApplied) =>
              match fsWriteFile fs fullPath content with
              | Throw message => (failure relativePath message, fs)
              | Return fs' =>
                  (mkFileResult true relativePath None
                     (Some (JS.byteLength content)) None
                     (Some editsApplied), fs')
              end
          end
      end.

End WithPathJoin.

End SandboxFs.

(* ===================================================================== *)
(** * Run executor ([run.executor.ts])                                    *)
(* ===================================================================== *)

Module Executor.
Import Sandbox.

Record PendingApproval : Type := mkPending {
  pa_operationId : jsstring;
  pa_operationType : OperationType;
  pa_reason : jsstring;
  pa_details : ApprovalDetails;
}.

Record ExecuteRunResult : Type := mkResult {
  events : list Event;
  status : RunStatus;
  pendingApproval : option PendingApproval;
}.

(** [operation.id || ''] *)
Definition idOrEmpty (operation : Operation) : jsstring :=
  JS.orElse (op_id operation) [].

(** The [details] object built when an operation is gated. *)
Definition approvalDetails (policyResult : PolicyEvaluation)
    (operation : Operation) : ApprovalDetails :=
  match operation with
  | ShellOperation _ command _ _ _ =>
      mkDetails (policy policyResult) (Some command) None
  | CreateFileOperation _ path _ _ _
  | ReadFileOperation _ path _
  | EditFileOperation _ path _
  | DeleteFileOperation _ path =>
      mkDetails (policy policyResult) None (Some path)
  | MessageOperation _ _ =>
      mkDetails (policy policyResult) None None
  end.

Section WithSandbox.
Context {S : Type} `{SandboxOps S}.

Definition executeOperation (operation : Operation) (sandbox : S)
  : Event * S :=
  match operation with
  | MessageOperation id _ => (MessageEvent id, sandbox)
  | CreateFileOperation id path content encoding overwrite =>
      let '(result, sandbox') :=
        createFile path content overwrite encoding sandbox in
      (CreateFileEvent id path (fr_success result) (fr_size result)
         (fr_error result), sandbox')
  | ReadFileOperation id path encoding =>
      let '(result, sandbox') := readFile path encoding sandbox in
      (ReadFileEvent id path (fr_success result) (fr_content result)
         encoding (fr_size result) (fr_error result), sandbox')
  | EditFileOperation id path edits =>
      let '(result, sandbox') := editFile path edits sandbox in
      (EditFileEvent id path (fr_success result) (fr_editsApplied result)
         (fr_error result), sandbox')
  | DeleteFileOperation id path =>
      let '(result, sandbox') := deleteFile path sandbox in
      (DeleteFileEvent id path (fr_success result) (fr_error result),
       sandbox')
  | ShellOperation id command cwd timeout env =>
      let '(result, sandbox') := exec command cwd env timeout sandbox in
      (ShellEvent id command (sr_success result) (sr_exitCode result)
         (sr_stdout result) (sr_stderr result) (sr_durationMs result)
         (sr_timedOut result), sandbox')
  end.

(** The body of [executeRun]: [events] is the array filled by [push],
    the sandbox is threaded through the calls.  An exception of the
    policy engine leaves the loop and the function. *)
Fixpoint executeLoop (policyEngine : Policy) (operations : list Operation)
    (events : list Event) (sandbox : S)
  : outcome ExecuteRunResult * S :=
  match operations with
  | [] => (Return (mkResult events Completed None), sandbox)
  | operation :: rest =>
      match PolicyEngine.evaluate policyEngine operation with
      | Throw message => (Throw message, sandbox)
      | Return policyResult =>
          if negb (allowed policyResult) then
            executeLoop policyEngine rest
              (events ++
               [PolicyDeniedEvent (op_id operation) (op_type operation)
                  (JS.orElse (reason policyResult)
                     (str "Operation denied by policy"))
                  (suggestion policyResult)])
              sandbox
          else if requiresApproval policyResult then
            let details := approvalDetails policyResult operation in
            let why :=
              JS.orElse (reason policyResult)
                (str "Operation requires approval") in
            (Return
               (mkResult
                  (events ++
                   [ApprovalRequiredEvent (idOrEmpty operation)
                      (op_type operation) why details])
                  AwaitingApproval
                  (Some (mkPending (idOrEmpty operation)
                           (op_type operation) why details))),
             sandbox)
          else
            let '(event, sandbox') := executeOperation operation sandbox in
            executeLoop policyEngine rest (events ++ [event]) sandbox'
      end
  end.

Definition executeRun (operations : list Operation) (sandbox : S)
    (policyEngine : Policy) : outcome ExecuteRunResult * S :=
  executeLoop policyEngine operations [] sandbox.

End WithSandbox.

End Executor.

(* ===================================================================== *)
(** * Run service ([run.service.ts])                                      *)
(* ===================================================================== *)

Module RunSvc.
Import Sandbox Executor.

(** A row of the [runs] table.  The columns [startedAt] and
    [completedAt], readings of the wall clock, are not part of the
    embedding. *)
Record Run : Type := mkRun {
  run_id : jsstring;
  run_spaceId : jsstring;
  run_status : RunStatus;
  run_operations : list Operation;
  run_events : list Event;
  run_pendingApproval : option PendingApproval;
}.

Inductive Decision : Type := Approved | Denied.

(** The [approval] argument of [resume]. *)
Record Approval : Type := mkApproval {
  operationId : jsstring;
  decision : Decision;
  ap_reason : option jsstring;
}.

(** What the service works on: the [runs] table and the two maps of the
    space service ([sandboxes], [policyEngines]). *)
Record Services (S : Type) : Type := mkServices {
  runs : gmap jsstring Run;
  sandboxes : gmap jsstring S;
  policyEngines : gmap jsstring Policy;
}.
Arguments mkServices {S} runs sandboxes policyEngines.
Arguments runs {S} _.
Arguments sandboxes {S} _.
Arguments policyEngines {S} _.

(** [operations.findIndex(pred)]: [-1] when no element passes. *)
Fixpoint findIndexFrom {A} (pred : A -> bool) (xs : list A) (i : Z) : Z :=
  match xs with
  | [] => -1
  | x :: rest => if pred x then i else findIndexFrom pred rest (i + 1)
  end.

Definition findIndex {A} (pred : A -> bool) (xs : list A) : Z :=
  findIndexFrom pred xs 0.

(** [op.id === operationId]: an absent id equals no string. *)
Definition idIs (operationId : jsstring) (op : Operation) : bool :=
  match op_id op with
  | Some i => JS.eqb i operationId
  | None => false
  end.

Section WithSandbox.
Context {S : Type} `{SandboxOps S}.

(** [get(id)] *)
Definition get (id : jsstring) (w : Services S) : option Run :=
  runs w !! id.

Definition spaceMissing (spaceId : jsstring) : jsstring :=
  str "Space " ++ spaceId ++ str " not found or not initialized".

(** [create({spaceId, operations})].  [fresh] is the text that
    [nanoid(12)] returns; inserting a row whose id is taken fails. *)
Definition create (spaceId : jsstring) (operations : list Operation)
    (fresh : jsstring) (w : Services S)
  : outcome (Run * ExecuteRunResult) * Services S :=
  match sandboxes w !! spaceId, policyEngines w !! spaceId with
  | Some sandbox, Some policyEngine =>
      let id := str "run_" ++ fresh in
      let '(executed, sandbox') :=
        executeRun operations sandbox policyEngine in
      let w1 :=
        mkServices (runs w) (<[spaceId := sandbox']> (sandboxes w))
          (policyEngines w) in
      match executed with
      | Throw message => (Throw message, w1)
      | Return result =>
          let newRun :=
            mkRun id spaceId (status result) operations (events result)
              (pendingApproval result) in
          match runs w !! id with
          | Some _ =>
              (Throw (str "UNIQUE constraint failed: runs.id"), w1)
          | None =>
              (Return (newRun, result),
               mkServices (<[id := newRun]> (runs w)) (sandboxes w1)
                 (policyEngines w))
          end
      end
  | _, _ => (Throw (spaceMissing spaceId), w)
  end.

(** [resume(runId, approval)] *)
Definition resume (runId : jsstring) (approval : Approval) (w : Services S)
  : outcome (Run * ExecuteRunResult) * Services S :=
  match get runId w with
  | None => (Throw (str "Run " ++ runId ++ str " not found"), w)
  | Some run =>
      match run_status run with
      | AwaitingApproval =>
          match sandboxes w !! run_spaceId run,
                policyEngines w !! run_spaceId run with
          | Some sandbox, Some policyEngine =>
              let operations := run_operations run in
              let events := run_events run in
              let pendingIndex :=
                findIndex (idIs (operationId approval)) operations in
              if pendingIndex =? -1 then
                (Throw (str "Operation " ++ operationId approval
                          ++ str " not found in run"), w)
              else
                (* the update of the row and the value handed back *)
                let persist (w1 : Services S) (newEvents : list Event)
                    (status : RunStatus)
                    (pendingApproval : option PendingApproval) :=
                  let allEvents := events ++ newEvents in
                  let updatedRun :=
                    mkRun (run_id run) (run_spaceId run) status operations
                      allEvents pendingApproval in
                  (Return (updatedRun, mkResult newEvents status None),
                   mkServices (<[runId := updatedRun]> (runs w1))
                     (sandboxes w1) (policyEngines w1)) in
                match decision approval with
                | Denied =>
                    match operations !! Z.to_nat pendingIndex with
                    | Some pending =>
                        persist w
                          [PolicyDeniedEvent (Some (operationId approval))
                             (op_type pending)
                             (JS.orElse (ap_reason approval)
                                (str "Approval denied by user"))
                             None]
                          Completed None
                    | None =>
                        (Throw (str "TypeError: undefined is not an object"),
                         w)
                    end
                | Approved =>
                    let remainingOperations :=
                      drop (Z.to_nat pendingIndex) operations in
                    let '(executed, sandbox') :=
                      executeRun remainingOperations sandbox policyEngine in
                    let w1 :=
                      mkServices (runs w)
                        (<[run_spaceId run := sandbox']> (sandboxes w))
                        (policyEngines w) in
                    match executed with
                    | Throw message => (Throw message, w1)
                    | Return result =>
                        persist w1 (Executor.events result)
                          (status result) (pendingApproval result)
                    end
                end
          | _, _ => (Throw (spaceMissing (run_spaceId run)), w)
          end
      | _ =>
          (Throw (str "Run " ++ runId ++ str " is not awaiting approval"),
           w)
      end
  end.

(** [cancel(runId)].  Of the two columns it sets, [status] is in the
    embedding; [completedAt], which it stamps with the time of the call,
    is one of the clock columns that a [Run] does not have. *)
Definition cancel (runId : jsstring) (w : Services S)
  : option Run * Services S :=
  let table :=
    match runs w !! runId with
    | Some run =>
        <[runId :=
            mkRun (run_id run) (run_spaceId run) Cancelled
              (run_operations run) (run_events run)
              (run_pendingApproval run)]> (runs w)
    | None => runs w
    end in
  (table !! runId,
   mkServices table (sandboxes w) (policyEngines w)).

End WithSandbox.

End RunSvc.

(* ===================================================================== *)
(** * Protocol validation ([operations/schemas.ts], [validator.ts])       *)
(* ===================================================================== *)

Module Validation.

(** An untrusted input value.  An object is the list of its own
    properties; reading a property takes the first entry of that name,
    and a name that is not there reads as [undefined]. *)
Inductive json : Type :=
| JNull
| JBool (b : bool)
| JNum (q : Q)
| JStr (s : jsstring)
| JArr (items : list json)
| JObj (fields : list (jsstring * json)).

Fixpoint getField (fields : list (jsstring * json)) (key : jsstring)
  : option json :=
  match fields with
  | [] => None
  | (k, v) :: rest => if JS.eqb k key then Some v else getField rest key
  end.


Inductive PathSegment : Type :=
| Key (k : jsstring)
| Index (i : nat).

(** An issue of a [ZodError]: where it is, and the message when the
    schema source gives one (the library words the others). *)
Record ZodIssue : Type := mkIssue {
  issue_path : list PathSegment;
  issue_message : option jsstring;
}.

(** The outcome of [schema.safeParse]: the issues, or the parsed data. *)
Definition parsed (A : Type) : Type := (list ZodIssue + A)%type.

(** A schema reads the value found at a path; [None] is [undefined]. *)
Definition schema (A : Type) : Type :=
  list PathSegment -> option json -> parsed A.

(** Issues of two members of an object are reported together. *)
Definition ap {A B} (f : parsed (A -> B)) (x : parsed A) : parsed B :=
  match f, x with
  | inr g, inr a => inr (g a)
  | inl i, inr _ => inl i
  | inr _, inl j => inl j
  | inl i, inl j => inl (i ++ j)
  end.

(** A check on a parsed value: no issue, or one. *)
Definition check {A} (ok : A -> bool) (message : option jsstring)
    (path : list PathSegment) (a : A) : list ZodIssue :=
  if ok a then [] else [mkIssue path message].

Definition withChecks {A}
    (checks : list (list PathSegment -> A -> list ZodIssue))
    (inner : schema A) : schema A :=
  fun path v =>
    match inner path v with
    | inl issues => inl issues
    | inr a =>
        match flat_map (fun c => c path a) checks with
        | [] => inr a
        | issues => inl issues
        end
    end.

(** [z.string()] *)
Definition z_string : schema jsstring :=
  fun path v =>
    match v with
    | Some (JStr s) => inr s
    | _ => inl [mkIssue path None]
    end.

(** [z.boolean()] *)
Definition z_boolean : schema bool :=
  fun path v =>
    match v with
    | Some (JBool b) => inr b
    | _ => inl [mkIssue path None]
    end.

(** [z.number()] *)
Definition z_number : schema Q :=
  fun path v =>
    match v with
    | Some (JNum q) => inr q
    | _ => inl [mkIssue path None]
    end.

(** [.optional()] *)
Definition z_optional {A} (inner : schema A) : schema (option A) :=
  fun path v =>
    match v with
    | None => inr None
    | Some _ =>
        match inner path v with
        | inl issues => inl issues
        | inr a => inr (Some a)
        end
    end.

(** [.optional().default(d)]: [undefined] parses to [d]. *)
Definition z_default {A} (d : A) (inner : schema A) : schema A :=
  fun path v =>
    match v with
    | None => inr d
    | Some _ => inner path v
    end.

(** [z.literal(text)] *)
Definition z_literal (text : jsstring) : schema jsstring :=
  fun path v =>
    match v with
    | Some (JStr s) => if JS.eqb s text then inr s else inl [mkIssue path None]
    | _ => inl [mkIssue path None]
    end.

(** Parsing the items of [z.array(inner)], each under its index. *)
Fixpoint parseItems {A} (inner : schema A) (path : list PathSegment)
    (items : list json) (i : nat) : parsed (list A) :=
  match items with
  | [] => inr []
  | item :: rest =>
      ap (ap (inr cons) (inner (path ++ [Index i]) (Some item)))
         (parseItems inner path rest (Datatypes.S i))
  end.

(** [z.array(inner)] *)
Definition z_array {A} (inner : schema A) : schema (list A) :=
  fun path v =>
    match v with
    | Some (JArr items) => parseItems inner path items 0%nat
    | _ => inl [mkIssue path None]
    end.

(** [z.record(z.string(), z.string())] *)
Fixpoint parseEntries (path : list PathSegment)
    (fields : list (jsstring * json)) : parsed (list (jsstring * jsstring)) :=
  match fields with
  | [] => inr []
  | (k, v) :: rest =>
      ap (ap (inr (fun s tl => (k, s) :: tl))
            (z_string (path ++ [Key k]) (Some v)))
         (parseEntries path rest)
  end.

Definition z_record : schema (list (jsstring * jsstring)) :=
  fun path v =>
    match v with
    | Some (JObj fields) => parseEntries path fields
    | _ => inl [mkIssue path None]
    end.

(** ** The schemas of [operations/schemas.ts] *)

Definition MAX_PATH_LENGTH : Z := 255.
Definition MAX_COMMAND_LENGTH : Z := 4096.
Definition MAX_CONTENT_LENGTH : Z := 10 * 1024 * 1024.
Definition MAX_MESSAGE_LENGTH : Z := 100000.
Definition MIN_TIMEOUT : Z := 1000.
Definition MAX_TIMEOUT : Z := 3600000.

(** [.max(n)] on a string *)
Definition maxLength (n : Z) := check (fun s => JS.length s <=? n) None.

Definition pathSchema : schema jsstring :=
  withChecks
    [ maxLength MAX_PATH_LENGTH;
      check (fun path => negb (JS.startsWith path (str "/")))
        (Some (str "Path must be relative (no leading /)"));
      check (fun path => negb (JS.includes path (str "..")))
        (Some (str "Path cannot contain parent directory traversal (..)"));
      check (fun path => negb (JS.includes path [0%N]))
        (Some (str "Path cannot contain null bytes")) ]
    z_string.

(** [z.enum(['utf-8', 'base64']).optional().default('utf-8')] *)
Definition encodingSchema : schema Encoding :=
  z_default Utf8
    (fun path v =>
       match v with
       | Some (JStr s) =>
           if JS.eqb s (str "utf-8") then inr Utf8
           else if JS.eqb s (str "base64") then inr Base64
           else inl [mkIssue path None]
       | _ => inl [mkIssue path None]
       end).

(** [Number.isInteger] and the integer a number then is. *)
Definition isInteger (q : Q) : bool := Z.rem (Qnum q) (Zpos (Qden q)) =? 0.
Definition toInteger (q : Q) : Z := Z.quot (Qnum q) (Zpos (Qden q)).

(** [z.number().int().min(MIN_TIMEOUT).max(MAX_TIMEOUT)] *)
Definition timeoutSchema : schema Z :=
  fun path v =>
    match withChecks
            [ check isInteger None;
              check (fun q => Qle_bool (inject_Z MIN_TIMEOUT) q) None;
              check (fun q => Qle_bool q (inject_Z MAX_TIMEOUT)) None ]
            z_number path v with
    | inl issues => inl issues
    | inr q => inr (toInteger q)
    end.

(** The member [key] of the object being parsed. *)
Definition member {A} (fields : list (jsstring * json)) (key : string)
    (inner : schema A) (path : list PathSegment) : parsed A :=
  inner (path ++ [Key (str key)]) (getField fields (str key)).

(** [baseOperationSchema]: [id: z.string().optional()] *)
Definition idMember (fields : list (jsstring * json)) :=
  member fields "id" (z_optional z_string).

Definition messageOperationSchema (fields : list (jsstring * json))
    (path : list PathSegment) : parsed Operation :=
  ap (ap (inr MessageOperation) (idMember fields path))
     (member fields "content"
        (withChecks [maxLength MAX_MESSAGE_LENGTH] z_string) path).

Definition createFileOperationSchema (fields : list (jsstring * json))
    (path : list PathSegment) : parsed Operation :=
  ap (ap (ap (ap (ap (inr (fun id p c e o =>
                             CreateFileOperation id p c (Some e) (Some o)))
                   (idMember fields path))
               (member fields "path" pathSchema path))
           (member fields "content"
              (withChecks [maxLength MAX_CONTENT_LENGTH] z_string) path))
        (member fields "encoding" encodingSchema path))
     (member fields "overwrite" (z_default false z_boolean) path).

Definition readFileOperationSchema (fields : list (jsstring * json))
    (path : list PathSegment) : parsed Operation :=
  ap (ap (ap (inr (fun id p e => ReadFileOperation id p (Some e)))
             (idMember fields path))
         (member fields "path" pathSchema path))
     (member fields "encoding" encodingSchema path).

Definition fileEditSchema : schema FileEdit :=
  fun path v =>
    match v with
    | Some (JObj fields) =>
        ap (ap (inr mkFileEdit) (member fields "oldContent" z_string path))
           (member fields "newContent" z_string path)
    | _ => inl [mkIssue path None]
    end.

Definition editFileOperationSchema (fields : list (jsstring * json))
    (path : list PathSegment) : parsed Operation :=
  ap (ap (ap (inr EditFileOperation) (idMember fields path))
         (member fields "path" pathSchema path))
     (member fields "edits"
        (withChecks
           [check (fun edits : list FileEdit =>
                     1 <=? Z.of_nat (List.length edits)) None]
           (z_array fileEditSchema)) path).

Definition deleteFileOperationSchema (fields : list (jsstring * json))
    (path : list PathSegment) : parsed Operation :=
  ap (ap (inr DeleteFileOperation) (idMember fields path))
     (member fields "path" pathSchema path).

Definition shellOperationSchema (fields : list (jsstring * json))
    (path : list PathSegment) : parsed Operation :=
  ap (ap (ap (ap (ap (inr ShellOperation) (idMember fields path))
                 (member fields "command"
                    (withChecks [maxLength MAX_COMMAND_LENGTH] z_string) path))
             (member fields "cwd" (z_optional pathSchema) path))
         (member fields "timeout" (z_optional timeoutSchema) path))
     (member fields "env" (z_optional z_record) path).

(** [z.discriminatedUnion('type', [...])] *)
Definition operationSchema : schema Operation :=
  fun path v =>
    match v with
    | Some (JObj fields) =>
        match getField fields (str "type") with
        | Some (JStr tag) =>
            if JS.eqb tag (str "message") then
              messageOperationSchema fields path
            else if JS.eqb tag (str "createFile") then
              createFileOperationSchema fields path
            else if JS.eqb tag (str "readFile") then
              readFileOperationSchema fields path
            else if JS.eqb tag (str "editFile") then
              editFileOperationSchema fields path
            else if JS.eqb tag (str "deleteFile") then
              deleteFileOperationSchema fields path
            else if JS.eqb tag (str "shell") then
              shellOperationSchema fields path
            else inl [mkIssue (path ++ [Key (str "type")]) None]
        | _ => inl [mkIssue (path ++ [Key (str "type")]) None]
        end
    | _ => inl [mkIssue path None]
    end.

Record OperationsMessage : Type := mkMessage {
  protocolVersion : jsstring;
  operations : list Operation;
}.

Definition operationsMessageSchema : schema OperationsMessage :=
  fun path v =>
    match v with
    | Some (JObj fields) =>
        ap (ap (inr mkMessage)
              (member fields "protocolVersion" (z_literal (str "1.0")) path))
           (member fields "operations" (z_array operationSchema) path)
    | _ => inl [mkIssue path None]
    end.

(** ** [validator.ts] *)

Record ValidationResult (A : Type) : Type := mkValidation {
  success : bool;
  data : option A;
  error : option (list ZodIssue);
}.
Arguments mkValidation {A} success data error.
Arguments success {A} _.
Arguments data {A} _.
Arguments error {A} _.

Definition safeParse {A} (s : schema A) (input : json) : ValidationResult A :=
  match s [] (Some input) with
  | inr a => mkValidation true (Some a) None
  | inl issues => mkValidation false None (Some issues)
  end.

Definition validateOperation (input : json) : ValidationResult Operation :=
  safeParse operationSchema input.

Definition validateOperationsMessage (input : json)
  : ValidationResult OperationsMessage :=
  safeParse operationsMessageSchema input.

(** [validatePath(path)]: returns, or throws a [PathValidationError]. *)
Definition validatePath (path : jsstring) : outcome unit :=
  if JS.startsWith path (str "/") then
    Throw (str "Path must be relative (no leading /)")
  else if JS.includes path (str "..") then
    Throw (str "Path cannot contain parent directory traversal (..)")
  else if JS.includes path [0%N] then
    Throw (str "Path cannot contain null bytes")
  else if 255 <? JS.length path then
    Throw (str "Path exceeds maximum length of 255 characters")
  else Return tt.

Definition isValidPath (path : jsstring) : bool :=
  match validatePath path with
  | Return _ => true
  | Throw _ => false
  end.

End Validation.

(* ===================================================================== *)
(** * Reference notions the properties are stated with                    *)
(* ===================================================================== *)

Module Spec.
Import Sandbox Executor.

(** [p] occurs in [s] as a substring. *)
Definition occursIn (p s : jsstring) : Prop :=
  exists l r, s = l ++ p ++ r.

(** Some entry of an optional pattern list occurs in the command. *)
Definition someOccurs (patterns : option (list jsstring)) (command : jsstring)
  : Prop :=
  exists p, In p (default [] patterns) /\ occursIn p command.

(** [b] is the base token of [command]: the trimmed command up to its
    first ASCII space (all of it when it has none). *)
Definition baseToken (command b : jsstring) : Prop :=
  exists rest,
    JS.trim command = b ++ rest /\
    ~ In 32%N b /\
    (rest = [] \/ exists r, rest = 32%N :: r).

(** The longest prefix without a space. *)
Fixpoint upToSpace (t : jsstring) : jsstring :=
  match t with
  | [] => []
  | c :: t' => if N.eqb c 32 then [] else c :: upToSpace t'
  end.

(** Glob matching as the specification words it: [*] stands for any run
    of code units, every other code unit of the pattern for itself. *)
Fixpoint globMatch (pattern path : jsstring) {struct pattern} : bool :=
  match pattern with
  | [] => match path with [] => true | _ :: _ => false end
  | c :: pattern' =>
      if N.eqb c 42 then
        (fix anyRun (s : jsstring) : bool :=
           globMatch pattern' s ||
           match s with
           | [] => false
           | _ :: s' => anyRun s'
           end) path
      else
        match path with
        | d :: path' => N.eqb c d && globMatch pattern' path'
        | [] => false
        end
  end.

(** Replacing the first occurrence of [old] in [s] by the text [new],
    taken as it is. *)
Definition replaceFirst (s old new : jsstring) : jsstring :=
  match JS.splitFirst s old with
  | Some (pre, post) => pre ++ new ++ post
  | None => s
  end.

(** The policy decides [Allow] for the operation. *)
Definition isAllow (policyEngine : Policy) (operation : Operation) : bool :=
  match PolicyEngine.evaluate policyEngine operation with
  | Return e => allowed e && negb (requiresApproval e)
  | Throw _ => false
  end.

(** Every path pattern of the policy is a regular expression that
    [new RegExp] accepts. *)
Definition compiles (pattern : jsstring) : bool :=
  match JS.RegExp (FilesystemRules.regexSource pattern) with
  | JS.Compiled _ => true
  | _ => false
  end.

Definition patternsCompile (policyEngine : Policy) : bool :=
  forallb compiles (default [] (blockedPaths (filesystem policyEngine))) &&
  forallb compiles (default [] (allowedPaths (filesystem policyEngine))).

(** The sandbox after the operations were dispatched to it one after
    the other. *)
Definition runAll {S} `{SandboxOps S} (operations : list Operation)
    (sandbox : S) : S :=
  fold_left (fun s op => snd (executeOperation op s)) operations sandbox.

(** A sandbox that does nothing but write down the primitives invoked
    on it. *)
Inductive Call : Type :=
| CallCreateFile (path content : jsstring)
| CallReadFile (path : jsstring)
| CallEditFile (path : jsstring) (edits : list FileEdit)
| CallDeleteFile (path : jsstring)
| CallExec (command : jsstring).

Definition noFile (path : jsstring) : FileResult :=
  mkFileResult false path None None None None.

#[global] Instance Recorder : SandboxOps (list Call) := {|
  createFile path content _ _ log :=
    (noFile path, log ++ [CallCreateFile path content]);
  readFile path _ log := (noFile path, log ++ [CallReadFile path]);
  editFile path edits log := (noFile path, log ++ [CallEditFile path edits]);
  deleteFile path log := (noFile path, log ++ [CallDeleteFile path]);
  exec command _ _ _ log :=
    (mkShellResult false command 1 [] [] 0 false, log ++ [CallExec command]);
|}.

(** The primitive an operation is dispatched to ([message] has none). *)
Definition callsOf (operation : Operation) : list Call :=
  match operation with
  | MessageOperation _ _ => []
  | CreateFileOperation _ path content _ _ => [CallCreateFile path content]
  | ReadFileOperation _ path _ => [CallReadFile path]
  | EditFileOperation _ path edits => [CallEditFile path edits]
  | DeleteFileOperation _ path => [CallDeleteFile path]
  | ShellOperation _ command _ _ _ => [CallExec command]
  end.

(** A result with [earlier] events in front of its own. *)
Definition withEarlier (earlier : list Event)
    (o : outcome ExecuteRunResult) : outcome ExecuteRunResult :=
  match o with
  | Return r =>
      Return (mkResult (earlier ++ events r) (status r) (pendingApproval r))
  | Throw message => Throw message
  end.

(** The policy gates the operation behind an approval. *)
Definition isGated (policyEngine : Policy) (operation : Operation) : bool :=
  match PolicyEngine.evaluate policyEngine operation with
  | Return e => allowed e && requiresApproval e
  | Throw _ => false
  end.

(** The policy denies the operation. *)
Definition isDenied (policyEngine : Policy) (operation : Operation) : bool :=
  match PolicyEngine.evaluate policyEngine operation with
  | Return e => negb (allowed e)
  | Throw _ => false
  end.

(** The part of the regular-expression source that one code unit of a
    glob pattern turns into, and the term it is read back as when the
    pattern has no question mark. *)
Definition piece (c : N) : jsstring :=
  if FilesystemRules.isEscapedChar c then [92%N; c]
  else if N.eqb c 42 then [46%N; 42%N]
  else [c].

Definition termOf (c : N) : JS.term :=
  if N.eqb c 42 then JS.TAtom JS.ADot JS.QStar
  else JS.TAtom (JS.AChar c) JS.QOne.

Definition noLineTerminator (s : jsstring) : bool :=
  forallb (fun c => negb (JS.isLineTerminator c)) s.

(** ** Inputs that validation has to refuse *)

(** A path that starts with the separator [/], contains [..], contains a
    NUL, or is longer than 255 code units. *)
Definition badPath (p : jsstring) : Prop :=
  (exists r, p = 47%N :: r) \/
  occursIn (str "..") p \/
  In 0%N p \/
  255 < JS.length p.

Definition hasTag (fields : list (jsstring * Validation.json)) (tag : string)
  : Prop :=
  Validation.getField fields (str "type") = Some (Validation.JStr (str tag)).

Definition hasMember (fields : list (jsstring * Validation.json))
    (key : string) (v : Validation.json) : Prop :=
  Validation.getField fields (str key) = Some v.

(** An operation object with a bad path, a [createFile] whose content is
    longer than 10 * 1024 * 1024 code units, an [editFile] without edits,
    or a [shell] whose timeout is below 1000 or above 3600000. *)
Definition invalidOperation (input : Validation.json) : Prop :=
  exists fields,
    input = Validation.JObj fields /\
    ((exists p,
        (hasTag fields "createFile" \/ hasTag fields "readFile" \/
         hasTag fields "editFile" \/ hasTag fields "deleteFile") /\
        hasMember fields "path" (Validation.JStr p) /\ badPath p) \/
     (exists c,
        hasTag fields "createFile" /\
        hasMember fields "content" (Validation.JStr c) /\
        10 * 1024 * 1024 < JS.length c) \/
     (hasTag fields "editFile" /\
      hasMember fields "edits" (Validation.JArr [])) \/
     (exists q,
        hasTag fields "shell" /\
        hasMember fields "timeout" (Validation.JNum q) /\
        (q < inject_Z 1000 \/ inject_Z 3600000 < q)%Q)).

(** A parse that ends in issues. *)
Definition rejected {A} (p : Validation.parsed A) : Prop :=
  match p with
  | inl _ => True
  | inr _ => False
  end.

End Spec.

(* ===================================================================== *)
(** * Scenarios                                                           *)
(* ===================================================================== *)

Module Scenario.
Import RunSvc.

Definition spaceId : jsstring := str "spc_demo".

(** A shell command that the standard preset gates: its base command is
    on the allowlist, no blocked pattern occurs in it, and it contains
    [rm -rf]. *)
Definition gatedCommand : jsstring := str "ls && rm -rf tmp".

Definition gatedShell (id : option jsstring) : Operation :=
  ShellOperation id gatedCommand None None None.

Definition tailFile : Operation :=
  CreateFileOperation (Some (str "op2")) (str "tail.txt") (str "t") None None.

(** The decision of the standard preset on [gatedCommand]. *)
Definition gatedDecision : PolicyEvaluation :=
  mkEval true true (Some (str "Command requires approval")) None
    (Some (str "shell.approvalRequired")).

(** The event of a suspension on [gatedShell id]. *)
Definition gatedEvent (operationId : jsstring) : Event :=
  ApprovalRequiredEvent operationId TyShell (str "Command requires approval")
    (mkDetails (Some (str "shell.approvalRequired")) (Some gatedCommand) None).

(** One space with its sandbox and policy engine, and no run yet. *)
Definition services {S : Type} (sandbox : S) (policyEngine : Policy)
  : Services S :=
  mkServices ∅ {[spaceId := sandbox]} {[spaceId := policyEngine]}.


(** A path join for the scenarios: the parts with a slash between them,
    which is what [join] of [node:path] returns for an absolute directory
    without trailing slash and a plain file name. *)
Definition slashJoin (parts : list jsstring) : jsstring :=
  JS.join parts (str "/").

End Scenario.

(* ===================================================================== *)
(** * Further notions: what an event says about its operation            *)
(* ===================================================================== *)

Module Notions.
Import Sandbox Executor.

(** [event.operationId] *)
Definition eventId (e : Event) : option jsstring :=
  match e with
  | MessageEvent id => id
  | CreateFileEvent id _ _ _ _ => id
  | ReadFileEvent id _ _ _ _ _ _ => id
  | EditFileEvent id _ _ _ _ => id
  | DeleteFileEvent id _ _ _ => id
  | ShellEvent id _ _ _ _ _ _ _ => id
  | ApprovalRequiredEvent id _ _ _ => Some id
  | PolicyDeniedEvent id _ _ _ => id
  | ErrorEvent _ _ => None
  end.

(** What an operation works on: its [path], or its [command]. *)
Definition opTarget (o : Operation) : option jsstring :=
  match o with
  | MessageOperation _ _ => None
  | CreateFileOperation _ path _ _ _ => Some path
  | ReadFileOperation _ path _ => Some path
  | EditFileOperation _ path _ => Some path
  | DeleteFileOperation _ path => Some path
  | ShellOperation _ command _ _ _ => Some command
  end.

(** The [path] or [command] field of an event that has one. *)
Definition eventTarget (e : Event) : option jsstring :=
  match e with
  | CreateFileEvent _ path _ _ _ => Some path
  | ReadFileEvent _ path _ _ _ _ _ => Some path
  | EditFileEvent _ path _ _ _ => Some path
  | DeleteFileEvent _ path _ _ => Some path
  | ShellEvent _ command _ _ _ _ _ _ => Some command
  | _ => None
  end.

(** The [operationType] field of the two policy events. *)
Definition eventOperationType (e : Event) : option OperationType :=
  match e with
  | ApprovalRequiredEvent _ t _ _ => Some t
  | PolicyDeniedEvent _ t _ _ => Some t
  | _ => None
  end.

(** What of a run does not come from the sandbox: the status, the types
    of the events in order, and the pending approval; or the message of
    the exception. *)
Definition outline (o : outcome ExecuteRunResult)
  : (RunStatus * list EventType * option PendingApproval) + jsstring :=
  match o with
  | Return r => inl (status r, List.map ev_type (events r), pendingApproval r)
  | Throw message => inr message
  end.

(** The event repeats what identifies the operation: its id, its path or
    command when the event is the operation's own, its type when the event
    is one of the two policy events. *)
Definition echoes (op : Operation) (e : Event) : Prop :=
  match ev_type e with
  | EvOf t =>
      t = op_type op /\ eventId e = op_id op /\ eventTarget e = opTarget op
  | EvPolicyDenied =>
      eventId e = op_id op /\ eventOperationType e = Some (op_type op)
  | EvApprovalRequired =>
      eventId e = Some (idOrEmpty op) /\
      eventOperationType e = Some (op_type op)
  | EvError => False
  end.

(** No code unit of the text is a surrogate. *)
Definition noSurrogate (s : jsstring) : bool :=
  forallb (fun c => negb (JS.isHighSurrogate c || JS.isLowSurrogate c)) s.

Definition isShell (o : Operation) : bool :=
  match o with
  | ShellOperation _ _ _ _ _ => true
  | _ => false
  end.


(** The invariants of an operation that has passed validation: lengths
    within their limits, paths valid, at least one edit, a timeout within
    its range, and the defaults of [encoding] and [overwrite] filled
    in. *)
Definition wellFormed (op : Operation) : Prop :=
  match op with
  | MessageOperation _ content =>
      JS.length content <= Validation.MAX_MESSAGE_LENGTH
  | CreateFileOperation _ path content encoding overwrite =>
      Validation.isValidPath path = true /\
      JS.length content <= Validation.MAX_CONTENT_LENGTH /\
      encoding <> None /\ overwrite <> None
  | ReadFileOperation _ path encoding =>
      Validation.isValidPath path = true /\ encoding <> None
  | EditFileOperation _ path edits =>
      Validation.isValidPath path = true /\ edits <> []
  | DeleteFileOperation _ path => Validation.isValidPath path = true
  | ShellOperation _ command cwd timeout _ =>
      JS.length command <= Validation.MAX_COMMAND_LENGTH /\
      (forall d, cwd = Some d -> Validation.isValidPath d = true) /\
      (forall t, timeout = Some t ->
                 Validation.MIN_TIMEOUT <= t <= Validation.MAX_TIMEOUT)
  end.

(** The parse ends in issues, and [issue] is one of them. *)
Definition reports {A} (p : Validation.parsed A) (issue : Validation.ZodIssue)
  : Prop :=
  match p with
  | inl issues => In issue issues
  | inr _ => False
  end.

(** A fault of a path, with the message the path schema gives for it. *)
Definition pathFault (p message : jsstring) : Prop :=
  (JS.startsWith p (str "/") = true /\
   message = str "Path must be relative (no leading /)") \/
  (JS.includes p (str "..") = true /\
   message = str "Path cannot contain parent directory traversal (..)") \/
  (JS.includes p [0%N] = true /\
   message = str "Path cannot contain null bytes").

(** What a domain pattern stands for: [*] for every domain, [*.base] for
    [base] and for every domain that ends in [.base], any other text for
    itself. *)
Definition covers (pattern domain : jsstring) : Prop :=
  pattern = str "*" \/
  pattern = domain \/
  exists base,
    pattern = str "*." ++ base /\
    (domain = base \/ exists sub, domain = sub ++ str "." ++ base).

(** Some pattern of an optional list covers the domain. *)
Definition someCovers (patterns : option (list jsstring)) (domain : jsstring)
  : Prop :=
  exists p, In p (default [] patterns) /\ covers p domain.

(** Some pattern of the list matches the path as a glob. *)
Definition anyGlob (patterns : list jsstring) (path : jsstring) : bool :=
  existsb (fun pattern => Spec.globMatch pattern path) patterns.

(** No pattern of the list has a question mark. *)
Definition plainPatterns (patterns : option (list jsstring)) : bool :=
  forallb (fun pattern => negb (existsb (N.eqb 63) pattern))
    (default [] patterns).

(** The paths that the [blockedPaths] of the standard preset describe: a
    leading dot, one of the endings [.env], [.key], [.pem], or the very
    name [node_modules]. *)
Definition standardBlocked (path : jsstring) : Prop :=
  (exists r, path = str "." ++ r) \/
  (exists l, path = l ++ str ".env") \/
  (exists l, path = l ++ str ".key") \/
  (exists l, path = l ++ str ".pem") \/
  path = str "node_modules".

(** The denial of a blocked path. *)
Definition blockedDenial (path : jsstring) : PolicyEvaluation :=
  mkEval false false
    (Some (str "Path " ++ JS.dquote ++ path ++ JS.dquote
             ++ str " is blocked by policy"))
    None (Some (str "filesystem.blockedPaths")).

(** The gated batch of scenario S4 once stored as run [run_a], and the
    services holding it. *)
Definition suspendedRun : RunSvc.Run :=
  RunSvc.mkRun (str "run_a") Scenario.spaceId AwaitingApproval
    [Scenario.gatedShell (Some (str "op1")); Scenario.tailFile]
    [Scenario.gatedEvent (str "op1")]
    (Some (mkPending (str "op1") TyShell (str "Command requires approval")
             (mkDetails (Some (str "shell.approvalRequired"))
                (Some Scenario.gatedCommand) None))).

Definition suspended {S : Type} (sandbox : S) : RunSvc.Services S :=
  RunSvc.mkServices {[str "run_a" := suspendedRun]}
    {[Scenario.spaceId := sandbox]} {[Scenario.spaceId := standardPolicy]}.

(** The event of a denial by the user, and the run after it. *)
Definition userDenial : Event :=
  PolicyDeniedEvent (Some (str "op1")) TyShell
    (str "Approval denied by user") None.

Definition deniedRun : RunSvc.Run :=
  RunSvc.mkRun (str "run_a") Scenario.spaceId Completed
    [Scenario.gatedShell (Some (str "op1")); Scenario.tailFile]
    [Scenario.gatedEvent (str "op1"); userDenial] None.

End Notions.

(* ===================================================================== *)
(** * Network rules ([rules/network.ts])                                  *)
(* ===================================================================== *)

Module NetworkRules.

(** [s.endsWith(p)] *)
Definition endsWith (s p : jsstring) : bool :=
  let start := JS.length s - JS.length p in
  if start <? 0 then false
  else JS.eqb (JS.substring s start (JS.length s)) p.

Definition matchesDomain (domain pattern : jsstring) : bool :=
  if JS.eqb pattern (str "*") then true
  else if JS.eqb pattern domain then true
  else if JS.startsWith pattern (str "*.") then
    let baseDomain := JS.substring pattern 2 (JS.length pattern) in
    JS.eqb domain baseDomain || endsWith domain (str "." ++ baseDomain)
  else false.

Definition matchesAnyDomain (domain : jsstring) (patterns : list jsstring)
  : bool :=
  existsb (fun pattern => matchesDomain domain pattern) patterns.

Definition evaluateNetworkPolicy (policy : NetworkPolicy) (domain : jsstring)
  : PolicyEvaluation :=
  if negb (net_enabled policy) then
    mkEval false false
      (Some (str "Network access is disabled"))
      (Some (str "Use a policy that allows network access"))
      (Some (str "network.enabled"))
  else if match blockedDomains policy with
          | Some ps => matchesAnyDomain domain ps
          | None => false
          end then
    mkEval false false
      (Some (str "Domain " ++ JS.dquote ++ domain ++ JS.dquote
               ++ str " is blocked"))
      None
      (Some (str "network.blockedDomains"))
  else
    match allowedDomains policy with
    | Some (p :: ps) =>
        if negb (matchesAnyDomain domain (p :: ps)) then
          mkEval false false
            (Some (str "Domain " ++ JS.dquote ++ domain ++ JS.dquote
                     ++ str " is not in allowed domains"))
            None
            (Some (str "network.allowedDomains"))
        else mkEval true false None None None
    | _ => mkEval true false None None None
    end.

(** [PolicyEngine.isNetworkAllowed] *)
Definition isNetworkAllowed (policy : Policy) (domain : jsstring)
  : PolicyEvaluation :=
  evaluateNetworkPolicy (network policy) domain.

End NetworkRules.

(* ===================================================================== *)
(** * Sandbox: [deleteFile] ([filesystem/operations.ts])                  *)
(* ===================================================================== *)

Module SandboxDelete.
Import Sandbox SandboxFs.

Section WithPathJoin.

(** [join] of [node:path], and the message of the error that [unlink]
    raises on a directory (the host decides between EISDIR and EPERM). *)
Variable join : list jsstring -> jsstring.
Variable unlinkDirectory : jsstring.

(** [await unlink(p)] *)
Definition fsUnlink (fs : gmap jsstring Node) (p : jsstring)
  : outcome (gmap jsstring Node) :=
  match fs !! p with
  | Some (File _) => Return (delete p fs)
  | Some Directory => Throw unlinkDirectory
  | None => Throw (str "ENOENT: no such file or directory")
  end.

Definition deleteFile (workspacePath relativePath : jsstring)
    (fs : gmap jsstring Node) : FileResult * gmap jsstring Node :=
  if negb (isPathInWorkspace join workspacePath relativePath) then
    (failure relativePath (str "Path is outside workspace"), fs)
  else
    let fullPath := getFullPath join workspacePath relativePath in
    if negb (existsSync fs fullPath) then
      (failure relativePath (str "File not found"), fs)
    else
      match fsUnlink fs fullPath with
      | Throw message => (failure relativePath message, fs)
      | Return fs' =>
          (mkFileResult true relativePath None None None None, fs')
      end.

End WithPathJoin.

End SandboxDelete.

(* ===================================================================== *)
(** * Container output ([docker.ts]): the stream demultiplexer            *)
(* ===================================================================== *)

Module Docker.

(** A [Buffer]: its bytes. *)
Abbreviation Buffer := (list N).

(** [chunk[i]]; the loop reads inside the chunk only. *)
Definition byteAt (chunk : Buffer) (i : nat) : N := default 0%N (chunk !! i).

(** [chunk.readUInt32BE(i)] *)
Definition readUInt32BE (chunk : Buffer) (i : nat) : N :=
  (((byteAt chunk i * 256 + byteAt chunk (i + 1)) * 256
    + byteAt chunk (i + 2)) * 256 + byteAt chunk (i + 3))%N.

(** The arrays [stdoutChunks] and [stderrChunks] of one [exec]. *)
Record Streams : Type := mkStreams {
  stdoutChunks : list Buffer;
  stderrChunks : list Buffer;
}.

(** The [while (offset < chunk.length)] loop of the [data] handler.  An
    iteration that does not leave the loop moves [offset] forward by at
    least 8, so [fuel] iterations are enough once [fuel] exceeds the
    length of the chunk. *)
Fixpoint demux (fuel : nat) (chunk : Buffer) (offset : nat) (st : Streams)
  : Streams :=
  match fuel with
  | O => st
  | Datatypes.S fuel' =>
      if negb (offset <? List.length chunk)%nat then st
      else if (List.length chunk <? offset + 8)%nat then st
      else
        let type := byteAt chunk offset in
        let size := N.to_nat (readUInt32BE chunk (offset + 4)) in
        let offset := (offset + 8)%nat in
        if (List.length chunk <? offset + size)%nat then st
        else
          let data := take size (drop offset chunk) in
          let st' :=
            if N.eqb type 1 then
              mkStreams (stdoutChunks st ++ [data]) (stderrChunks st)
            else if N.eqb type 2 then
              mkStreams (stdoutChunks st) (stderrChunks st ++ [data])
            else st in
          demux fuel' chunk (offset + size)%nat st'
  end.

(** [stream.on('data', (chunk) => ...)] *)
Definition onData (chunk : Buffer) (st : Streams) : Streams :=
  demux (Datatypes.S (List.length chunk)) chunk 0 st.

(** [Buffer.concat(chunks)] *)
Definition concat (chunks : list Buffer) : Buffer := List.concat chunks.

(** ** The stream format, as the comment of the handler gives it *)

(** The four bytes of a size, most significant first. *)
Definition uint32BE (n : N) : Buffer :=
  [(n / 16777216) mod 256; (n / 65536) mod 256; (n / 256) mod 256;
   n mod 256]%N.

(** A frame: the header [type, 0, 0, 0, size (4 bytes)], then the
    payload. *)
Definition frame (type : N) (payload : Buffer) : Buffer :=
  [type; 0; 0; 0]%N ++ uint32BE (N.of_nat (List.length payload)) ++ payload.

Definition encode (frames : list (N * Buffer)) : Buffer :=
  flat_map (fun f => frame (fst f) (snd f)) frames.

(** The payloads of the frames of one type, in order. *)
Definition payloads (type : N) (frames : list (N * Buffer)) : list Buffer :=
  List.map snd (List.filter (fun f => N.eqb (fst f) type) frames).

(** What a frame adds to the streams. *)
Definition deliver (st : Streams) (f : N * Buffer) : Streams :=
  if N.eqb (fst f) 1 then
    mkStreams (stdoutChunks st ++ [snd f]) (stderrChunks st)
  else if N.eqb (fst f) 2 then
    mkStreams (stdoutChunks st) (stderrChunks st ++ [snd f])
  else st.

(** Every payload fits the size field. *)
Definition sized (frames : list (N * Buffer)) : Prop :=
  Forall (fun f => (N.of_nat (List.length (snd f)) < 4294967296)%N) frames.

End Docker.

(* ===================================================================== *)
(** * The run routes of the server ([routes/runs.ts])                     *)
(* ===================================================================== *)

Module RunsRoute.
Import Validation Executor RunSvc.

(** [PROTOCOL_VERSION] of [version.ts] *)
Definition PROTOCOL_VERSION : jsstring := str "1.0".

(** A member of a JSON body as [c.json] writes it: it is left out when
    its value is [undefined], and written as [null] when its value is
    [null]. *)
Inductive Member (A : Type) : Type :=
| Absent
| Null
| Present (a : A).
Arguments Absent {A}.
Arguments Null {A}.
Arguments Present {A} a.

(** A value that is [undefined] when it is not there (the
    [pendingApproval] of an [ExecuteRunResult]). *)
Definition ofUndefined {A} (o : option A) : Member A :=
  match o with
  | Some a => Present a
  | None => Absent
  end.

(** A value that is [null] when it is not there (the [pendingApproval]
    column of a row). *)
Definition ofNull {A} (o : option A) : Member A :=
  match o with
  | Some a => Present a
  | None => Null
  end.

(** What a handler answers: the status code and the JSON body.  Of the
    body the embedding keeps [data] or [error]; [meta] (the request id)
    and the members that are readings of the clock ([startedAt],
    [completedAt], [cancelledAt]) are not part of it. *)
Inductive Body : Type :=
| RunData (id spaceId : jsstring) (status : RunStatus)
    (protocolVersion : jsstring) (events : list Event)
    (pendingApproval : Member PendingApproval)
| CancelData (id : jsstring) (status : RunStatus)
| ErrorBody (code message : jsstring) (details : option (list ZodIssue))
| ValidatorResult (issues : list ZodIssue).

Record Response : Type := mkResponse {
  statusCode : Z;
  body : Body;
}.

(** [z.record(z.string(), z.unknown())]: any object, as it is. *)
Definition unknownRecord : schema json :=
  fun path v =>
    match v with
    | Some (JObj fields) => inr (JObj fields)
    | _ => inl [mkIssue path None]
    end.

(** [z.object({ files: z.array(z.string()).optional() })] *)
Definition contextSchema : schema (option (list jsstring)) :=
  fun path v =>
    match v with
    | Some (JObj fields) =>
        member fields "files" (z_optional (z_array z_string)) path
    | _ => inl [mkIssue path None]
    end.

(** [createRunSchema]: the version and the operations of a valid body. *)
Definition createRunSchema : schema (jsstring * list json) :=
  fun path v =>
    match v with
    | Some (JObj fields) =>
        ap (ap (ap (inr (fun version operations _ => (version, operations)))
                   (member fields "protocolVersion"
                      (z_literal PROTOCOL_VERSION) path))
               (member fields "operations" (z_array unknownRecord) path))
           (member fields "context" (z_optional contextSchema) path)
    | _ => inl [mkIssue path None]
    end.



Section WithSandbox.
Context {S : Type} `{Sandbox.SandboxOps S}.

(** [POST /spaces/:spaceId/runs].  A body that [createRunSchema] refuses
    is answered by the validator middleware with status 400. *)
Definition postRun (spaceId : jsstring) (request : json) (fresh : jsstring)
    (w : Services S) : Response * Services S :=
  match createRunSchema [] (Some request) with
  | inl issues => (mkResponse 400 (ValidatorResult issues), w)
  | inr (version, operations) =>
      let validatedMessage :=
        safeParse operationsMessageSchema
          (JObj [(str "protocolVersion", JStr version);
                 (str "operations", JArr operations)]) in
      if negb (success validatedMessage) then
        (mkResponse 400
           (ErrorBody (str "VALIDATION_ERROR") (str "Invalid operations")
              (error validatedMessage)), w)
      else
        match data validatedMessage with
        | Some message =>
            match create spaceId (Validation.operations message) fresh w with
            | (Return (run, result), w') =>
                (mkResponse
                   (match run_status run with
                    | AwaitingApproval => 200
                    | _ => 201
                    end)
                   (RunData (run_id run) (run_spaceId run) (run_status run)
                      PROTOCOL_VERSION (events result)
                      (ofUndefined (pendingApproval result))), w')
            | (Throw message, w') =>
                (mkResponse 500
                   (ErrorBody (str "EXECUTION_ERROR") message None), w')
            end
        | None =>
            (* a successful parse has its data *)
            (mkResponse 500
               (ErrorBody (str "EXECUTION_ERROR")
                  (str "TypeError: undefined is not an object") None), w)
        end
  end.

(** [GET /spaces/:spaceId/runs/:runId] *)
Definition getRun (runId : jsstring) (w : Services S) : Response :=
  match get runId w with
  | None =>
      mkResponse 404
        (ErrorBody (str "RUN_NOT_FOUND")
           (str "Run " ++ runId ++ str " not found") None)
  | Some run =>
      mkResponse 200
        (RunData (run_id run) (run_spaceId run) (run_status run)
           PROTOCOL_VERSION (run_events run)
           (ofNull (run_pendingApproval run)))
  end.



End WithSandbox.

End RunsRoute.

(* ===================================================================== *)
(** * [join] of [node:path] on a POSIX host                               *)
(* ===================================================================== *)

Module NodePath.

(** The segments of a path: the texts between its slashes. *)
Fixpoint split (path : jsstring) : list jsstring :=
  match path with
  | [] => [[]]
  | c :: rest =>
      if N.eqb c 47 then [] :: split rest
      else
        match split rest with
        | seg :: segs => (c :: seg) :: segs
        | [] => [[c]]
        end
  end.

(** [normalizeString(path, allowAboveRoot, '/', isPosixPathSeparator)],
    segment by segment.  [res] holds the segments kept so far, the last
    one first.  An empty segment and [.] are dropped; [..] removes the
    last segment kept, unless there is none or it is itself [..], in
    which case it is kept when [allowAboveRoot] and dropped otherwise. *)
Fixpoint normalizeString (allowAboveRoot : bool) (res segs : list jsstring)
  : list jsstring :=
  match segs with
  | [] => rev res
  | seg :: rest =>
      if JS.eqb seg [] || JS.eqb seg (str ".") then
        normalizeString allowAboveRoot res rest
      else if JS.eqb seg (str "..") then
        match res with
        | top :: res' =>
            if JS.eqb top (str "..") then
              normalizeString allowAboveRoot
                (if allowAboveRoot then seg :: res else res) rest
            else normalizeString allowAboveRoot res' rest
        | [] =>
            normalizeString allowAboveRoot
              (if allowAboveRoot then [seg] else []) rest
        end
      else normalizeString allowAboveRoot (seg :: res) rest
  end.

Definition endsWithSlash (path : jsstring) : bool :=
  match last path with
  | Some c => N.eqb c 47
  | None => false
  end.

(** [posix.normalize(path)] *)
Definition normalize (path : jsstring) : jsstring :=
  match path with
  | [] => str "."
  | c :: _ =>
      let isAbsolute := N.eqb c 47 in
      let trailingSeparator := endsWithSlash path in
      let normalized :=
        JS.join (normalizeString (negb isAbsolute) [] (split path))
          (str "/") in
      match normalized with
      | [] =>
          if isAbsolute then str "/"
          else if trailingSeparator then str "./" else str "."
      | _ :: _ =>
          let normalized :=
            if trailingSeparator then normalized ++ str "/"
            else normalized in
          if isAbsolute then str "/" ++ normalized else normalized
      end
  end.

(** [posix.join(...parts)]: the non-empty parts with a slash between
    them, normalized. *)
Definition join (parts : list jsstring) : jsstring :=
  match List.filter (fun part => negb (JS.eqb part [])) parts with
  | [] => str "."
  | p :: ps => normalize (JS.join (p :: ps) (str "/"))
  end.

(** ** Directories named by their segments *)

(** A segment that names an entry: not empty, without slash, and neither
    [.] nor [..]. *)
Definition isName (seg : jsstring) : bool :=
  negb (JS.eqb seg []) && negb (existsb (N.eqb 47) seg) &&
  negb (JS.eqb seg (str ".")) && negb (JS.eqb seg (str "..")).

(** The absolute path of the directory reached through [dirs]. *)
Definition absolute (dirs : list jsstring) : jsstring :=
  str "/" ++ JS.join dirs (str "/").

(** The segments that normalizing keeps when none is [..]. *)
Definition kept (segs : list jsstring) : list jsstring :=
  List.filter (fun seg => negb (JS.eqb seg [] || JS.eqb seg (str "."))) segs.

End NodePath.

(* ===================================================================== *)
(** * Space service ([space.service.ts]): the two maps                    *)
(* ===================================================================== *)

Module SpaceSvc.
Import RunSvc.

(** [getSandbox(id)] and [getPolicyEngine(id)] *)
Definition getSandbox {S : Type} (id : jsstring) (w : Services S) : option S :=
  sandboxes w !! id.

Definition getPolicyEngine {S : Type} (id : jsstring) (w : Services S)
  : option Policy :=
  policyEngines w !! id.

(** [destroy(id)], as far as the run service can tell: the sandbox and
    the policy engine of the space leave the maps; the table of runs is
    not touched.  (The container and the workspace directory are torn
    down and the row of the space is marked [destroyed]; neither is part
    of the embedding.) *)
Definition destroy {S : Type} (id : jsstring) (w : Services S) : Services S :=
  mkServices (runs w) (delete id (sandboxes w)) (delete id (policyEngines w)).

End SpaceSvc.

(* ===================================================================== *)
(** * Properties of the string primitives                                 *)
(* ===================================================================== *)

#[local] Arguments N.eqb : simpl never.
#[local] Arguments N.leb : simpl never.
#[local] Arguments N.ltb : simpl never.
#[local] Arguments JS.str : simpl never.

Section StringFacts.

Lemma js_eqb_eq (a b : jsstring) : JS.eqb a b = true <-> a = b.
Proof.
  revert b; induction a as [|x a IH]; intros [|y b]; simpl; try easy.
  rewrite andb_true_iff, N.eqb_eq, IH. split.
  - intros [-> ->]; reflexivity.
  - intros [= -> ->]; auto.
Qed.

Lemma js_eqb_refl (a : jsstring) : JS.eqb a a = true.
Proof. apply js_eqb_eq; reflexivity. Qed.

Lemma startsWith_spec (s p : jsstring) :
  JS.startsWith s p = true <-> exists r, s = p ++ r.
Proof.
  revert s; induction p as [|x p IH]; intros s; simpl.
  - split; [intros _; exists s; reflexivity | reflexivity].
  - destruct s as [|y s].
    + split; [discriminate | intros [r [=]]].
    + rewrite andb_true_iff, N.eqb_eq, IH. split.
      * intros [-> [r ->]]; eauto.
      * intros [r [= -> ->]]; eauto.
Qed.

Lemma includes_spec (s p : jsstring) :
  JS.includes s p = true <-> Spec.occursIn p s.
Proof.
  unfold Spec.occursIn. induction s as [|c s IH]; simpl.
  - rewrite orb_false_r, startsWith_spec. split.
    + intros [r ->]. exists [], r. reflexivity.
    + intros (l & r & E). destruct l as [|? l]; [eauto | discriminate].
  - rewrite orb_true_iff, startsWith_spec, IH. split.
    + intros [[r ->] | (l & r & ->)].
      * exists [], r. reflexivity.
      * exists (c :: l), r. reflexivity.
    + intros (l & r & E). destruct l as [|d l]; simpl in E.
      * left; eauto.
      * right. injection E as -> ->. eauto.
Qed.

Lemma arrayIncludes_spec (xs : list jsstring) (x : jsstring) :
  JS.arrayIncludes xs x = true <-> In x xs.
Proof.
  unfold JS.arrayIncludes. rewrite existsb_exists. split.
  - intros (y & Hy & E). apply js_eqb_eq in E. subst; assumption.
  - intros Hx. exists x. split; [assumption | apply js_eqb_refl].
Qed.

Lemma shell_matchesAny_spec (command : jsstring) (ps : list jsstring) :
  ShellRules.matchesAnyPattern command ps = true <->
  exists p, In p ps /\ Spec.occursIn p command.
Proof.
  unfold ShellRules.matchesAnyPattern. rewrite existsb_exists.
  split; intros (p & Hp & E); exists p; split; auto; apply includes_spec, E.
Qed.

Lemma indexOf_space (t : jsstring) (i : Z) :
  0 <= i ->
  let k := JS.indexOf_from t (str " ") i in
  (k = -1 /\ Spec.upToSpace t = t) \/
  (i <= k /\ k - i = Z.of_nat (List.length (Spec.upToSpace t)) /\
   (List.length (Spec.upToSpace t) < List.length t)%nat).
Proof.
  change (str " ") with [32%N].
  revert i; induction t as [|c t IH]; intros i Hi; simpl.
  - left; auto.
  - rewrite andb_true_r, N.eqb_sym. destruct (N.eqb c 32) eqn:E; simpl.
    + right. repeat split; simpl; lia.
    + destruct (IH (i + 1) ltac:(lia)) as [[H1 H2] | (H1 & H2 & H3)].
      * left. simpl in H1. rewrite H1, H2. auto.
      * right. simpl in H1, H2. simpl. repeat split; lia.
Qed.

Lemma extractBaseCommand_upToSpace (command : jsstring) :
  ShellRules.extractBaseCommand command = Spec.upToSpace (JS.trim command).
Proof.
  unfold ShellRules.extractBaseCommand, JS.indexOf.
  set (t := JS.trim command).
  destruct (indexOf_space t 0 ltac:(lia)) as [[H1 H2] | (H1 & H2 & H3)];
    cbv zeta in *.
  - rewrite H1. simpl. symmetry; exact H2.
  - destruct (Z.eqb_spec (JS.indexOf_from t (str " ") 0) (-1)) as [E|_];
      [lia|].
    set (k := JS.indexOf_from t (str " ") 0) in *.
    unfold JS.substring, JS.clamp, JS.length.
    replace (Z.min (Z.max 0 0) (Z.of_nat (List.length t))) with 0 by lia.
    replace (Z.min (Z.max k 0) (Z.of_nat (List.length t))) with k by lia.
    replace (Z.min 0 k) with 0 by lia. replace (Z.max 0 k) with k by lia.
    simpl Z.to_nat. rewrite drop_0.
    replace (Z.to_nat (k - 0)) with (List.length (Spec.upToSpace t)) by lia.
    clear. induction t as [|c t IH]; simpl; [reflexivity|].
    destruct (N.eqb c 32); simpl; [reflexivity | f_equal; exact IH].
Qed.

Lemma upToSpace_split (t : jsstring) :
  exists rest, t = Spec.upToSpace t ++ rest /\ ~ In 32%N (Spec.upToSpace t) /\
               (rest = [] \/ exists r, rest = 32%N :: r).
Proof.
  induction t as [|c t (rest & E & Hn & Hr)]; simpl.
  - exists []. auto.
  - destruct (N.eqb_spec c 32) as [->|Hc].
    + exists (32%N :: t). simpl. split; [reflexivity|]. split; eauto.
    + exists rest. simpl. split; [f_equal; exact E|]. split; [|exact Hr].
      intros [H|H]; [congruence | contradiction].
Qed.

Lemma upToSpace_unique (t b rest : jsstring) :
  t = b ++ rest -> ~ In 32%N b -> (rest = [] \/ exists r, rest = 32%N :: r) ->
  b = Spec.upToSpace t.
Proof.
  revert t; induction b as [|c b IH]; intros t -> Hn Hr; simpl.
  - destruct Hr as [-> | [r ->]]; reflexivity.
  - destruct (N.eqb_spec c 32) as [->|Hc].
    + exfalso; apply Hn; left; reflexivity.
    + f_equal. apply IH; auto. intros H; apply Hn; right; exact H.
Qed.

Lemma baseToken_extract (command : jsstring) :
  Spec.baseToken command (ShellRules.extractBaseCommand command).
Proof.
  rewrite extractBaseCommand_upToSpace. apply upToSpace_split.
Qed.

Lemma baseToken_unique (command b : jsstring) :
  Spec.baseToken command b -> b = ShellRules.extractBaseCommand command.
Proof.
  intros (rest & E & Hn & Hr). rewrite extractBaseCommand_upToSpace.
  eapply upToSpace_unique; eauto.
Qed.

End StringFacts.

(* ===================================================================== *)
(** * Shell policy                                                        *)
(* ===================================================================== *)

Section ShellPolicyFacts.

Lemma someOccurs_matchesAny (patterns : option (list jsstring))
    (command : jsstring) :
  Spec.someOccurs patterns command <->
  match patterns with
  | Some ps => ShellRules.matchesAnyPattern command ps
  | None => false
  end = true.
Proof.
  unfold Spec.someOccurs. destruct patterns as [ps|]; simpl.
  - symmetry. apply shell_matchesAny_spec.
  - split; [intros (p & [] & _) | discriminate].
Qed.

Lemma not_someOccurs (patterns : option (list jsstring)) (command : jsstring) :
  ~ Spec.someOccurs patterns command <->
  match patterns with
  | Some ps => ShellRules.matchesAnyPattern command ps
  | None => false
  end = false.
Proof. rewrite someOccurs_matchesAny. apply not_true_iff_false. Qed.

Lemma listed_spec (command : jsstring) (cmds : list jsstring) :
  (exists b, Spec.baseToken command b /\ In b cmds) <->
  JS.arrayIncludes cmds (ShellRules.extractBaseCommand command) = true.
Proof.
  rewrite arrayIncludes_spec. split.
  - intros (b & Hb & Hin). apply baseToken_unique in Hb. subst; exact Hin.
  - intros Hin. eexists; split; [apply baseToken_extract | exact Hin].
Qed.

Lemma unlisted_spec (command : jsstring) (cmds : list jsstring) :
  (exists b, Spec.baseToken command b /\ ~ In b cmds) <->
  JS.arrayIncludes cmds (ShellRules.extractBaseCommand command) = false.
Proof.
  rewrite <- not_true_iff_false, arrayIncludes_spec. split.
  - intros (b & Hb & Hin). apply baseToken_unique in Hb. subst; exact Hin.
  - intros Hin. eexists; split; [apply baseToken_extract | exact Hin].
Qed.

End ShellPolicyFacts.

(** C4.  Shell policy evaluation applies its checks in a fixed order: a
    disabled shell is denied under tag [shell.enabled]; otherwise a blocked
    pattern occurring in the raw command denies under
    [shell.blockedPatterns], before the allowlist is looked at; otherwise,
    with a non-empty allowlist, a base token (trimmed command up to the
    first ASCII space) that is not exactly an entry denies under
    [shell.allowedCommands] with a suggestion listing the allowed
    commands; otherwise an approval pattern occurring in the command
    yields a requirement of approval under [shell.approvalRequired];
    otherwise the command is allowed. *)
Theorem evaluateShellPolicy_order (policy : ShellPolicy) (command : jsstring) :
  let e := ShellRules.evaluateShellPolicy policy command in
  let cmds := default [] (allowedCommands policy) in
  let blocked := Spec.someOccurs (blockedPatterns policy) command in
  let listed :=
    cmds = [] \/ exists b, Spec.baseToken command b /\ In b cmds in
  let gated := Spec.someOccurs (approvalRequired policy) command in
  (sh_enabled policy = false ->
     allowed e = false /\ requiresApproval e = false /\
     Policy.policy e = Some (str "shell.enabled")) /\
  (sh_enabled policy = true -> blocked ->
     allowed e = false /\ requiresApproval e = false /\
     Policy.policy e = Some (str "shell.blockedPatterns")) /\
  (sh_enabled policy = true -> ~ blocked -> cmds <> [] ->
     (exists b, Spec.baseToken command b /\ ~ In b cmds) ->
     allowed e = false /\ requiresApproval e = false /\
     Policy.policy e = Some (str "shell.allowedCommands") /\
     suggestion e = Some (str "Allowed commands: " ++ JS.join cmds (str ", "))) /\
  (sh_enabled policy = true -> ~ blocked -> listed -> gated ->
     allowed e = true /\ requiresApproval e = true /\
     Policy.policy e = Some (str "shell.approvalRequired")) /\
  (sh_enabled policy = true -> ~ blocked -> listed -> ~ gated ->
     allowed e = true /\ requiresApproval e = false).
Proof.
  cbv zeta. unfold ShellRules.evaluateShellPolicy.
  repeat apply conj.
  - intros ->. simpl. auto.
  - intros -> Hb. apply someOccurs_matchesAny in Hb. cbn [negb].
    rewrite Hb. simpl. auto.
  - intros -> Hb Hne Hun. apply not_someOccurs in Hb. cbn [negb]. rewrite Hb.
    destruct (allowedCommands policy) as [[|c cs]|];
      cbn [default from_option id] in *; try congruence.
    apply unlisted_spec in Hun. rewrite Hun. cbn [negb]. simpl. auto.
  - intros -> Hb Hl Hg. apply not_someOccurs in Hb.
    apply someOccurs_matchesAny in Hg. cbn [negb]. rewrite Hb, Hg.
    destruct (allowedCommands policy) as [[|c cs]|];
      cbn [default from_option id] in *; auto.
    destruct Hl as [Hl | Hl]; [discriminate|].
    apply listed_spec in Hl. rewrite Hl. simpl. auto.
  - intros -> Hb Hl Hg. apply not_someOccurs in Hb, Hg.
    cbn [negb]. rewrite Hb, Hg.
    destruct (allowedCommands policy) as [[|c cs]|];
      cbn [default from_option id] in *; auto.
    destruct Hl as [Hl | Hl]; [discriminate|].
    apply listed_spec in Hl. rewrite Hl. simpl. auto.
Qed.

(** The five cases of the order, each at a command of its own: the
    restrictive preset, and under the standard preset a blocked command
    with an allowlisted base, a base outside the allowlist, a gated
    command and a plain one. *)
Lemma evaluateShellPolicy_order_witness :
  (allowed (ShellRules.evaluateShellPolicy (shell restrictivePolicy)
              (str "ls")) = false) /\
  (Policy.policy (ShellRules.evaluateShellPolicy (shell standardPolicy)
                    (str "bun && sudo foo"))
   = Some (str "shell.blockedPatterns")) /\
  (Policy.policy (ShellRules.evaluateShellPolicy (shell standardPolicy)
                    (str "rm -rf tmp"))
   = Some (str "shell.allowedCommands")) /\
  (requiresApproval (ShellRules.evaluateShellPolicy (shell standardPolicy)
                       (str "ls && rm -rf tmp")) = true) /\
  (allowed (ShellRules.evaluateShellPolicy (shell standardPolicy)
              (str "cat a.txt")) = true).
Proof.
  repeat apply conj.
  - destruct (evaluateShellPolicy_order (shell restrictivePolicy) (str "ls"))
      as (H1 & _).
    apply H1. reflexivity.
  - destruct (evaluateShellPolicy_order (shell standardPolicy)
                (str "bun && sudo foo")) as (_ & H2 & _).
    apply H2.
    + reflexivity.
    + exists (str "sudo"). split.
      * simpl. tauto.
      * exists (str "bun && "), (str " foo"). reflexivity.
  - destruct (evaluateShellPolicy_order (shell standardPolicy)
                (str "rm -rf tmp")) as (_ & _ & H3 & _).
    apply H3.
    + reflexivity.
    + apply not_someOccurs. reflexivity.
    + discriminate.
    + exists (str "rm"). split.
      * exists (str " -rf tmp"). split; [reflexivity|]. split.
        -- simpl. intros [H|[H|[]]]; discriminate H.
        -- right. exists (str "-rf tmp"). reflexivity.
      * intros Hin. apply arrayIncludes_spec in Hin. discriminate Hin.
  - destruct (evaluateShellPolicy_order (shell standardPolicy)
                (str "ls && rm -rf tmp")) as (_ & _ & _ & H4 & _).
    apply H4.
    + reflexivity.
    + apply not_someOccurs. reflexivity.
    + right. exists (str "ls"). split.
      * exists (str " && rm -rf tmp"). split; [reflexivity|]. split.
        -- simpl. intros [H|[H|[]]]; discriminate H.
        -- right. exists (str "&& rm -rf tmp"). reflexivity.
      * simpl. tauto.
    + exists (str "rm -rf"). split.
      * simpl. tauto.
      * exists (str "ls && "), (str " tmp"). reflexivity.
  - destruct (evaluateShellPolicy_order (shell standardPolicy)
                (str "cat a.txt")) as (_ & _ & _ & _ & H5).
    apply H5.
    + reflexivity.
    + apply not_someOccurs. reflexivity.
    + right. exists (str "cat"). split.
      * exists (str " a.txt"). split; [reflexivity|]. split.
        -- simpl. intros [H|[H|[H|[]]]]; discriminate H.
        -- right. exists (str "a.txt"). reflexivity.
      * simpl. tauto.
    + apply not_someOccurs. reflexivity.
Defined.

(** C6.  For a requested timeout in the valid range [1000, 3600000] the
    effective timeout is the minimum of the request and the policy's shell
    timeout; without a request it is the policy's shell timeout; and
    whatever is requested, the result never exceeds the policy's shell
    timeout. *)
Theorem getShellTimeout_effective (policy : ShellPolicy) :
  (forall requested, 1000 <= requested <= 3600000 ->
     ShellRules.getShellTimeout policy (Some requested)
     = Z.min requested (timeout policy)) /\
  ShellRules.getShellTimeout policy None = timeout policy /\
  (forall requested,
     ShellRules.getShellTimeout policy requested <= timeout policy).
Proof.
  unfold ShellRules.getShellTimeout. repeat apply conj.
  - intros t Ht. destruct (Z.eqb_spec t 0) as [->|_]; [lia|]. simpl.
    destruct (Z.ltb_spec t (timeout policy)); lia.
  - reflexivity.
  - intros [t|]; [|lia].
    destruct (Z.eqb_spec t 0); simpl; [lia|].
    destruct (Z.ltb_spec t (timeout policy)); lia.
Qed.

Lemma getShellTimeout_effective_witness :
  ShellRules.getShellTimeout (shell standardPolicy) (Some 5000) = 5000 /\
  ShellRules.getShellTimeout (shell standardPolicy) (Some 60000) = 30000.
Proof.
  split.
  - rewrite (proj1 (getShellTimeout_effective (shell standardPolicy)) 5000).
    + reflexivity.
    + lia.
  - rewrite (proj1 (getShellTimeout_effective (shell standardPolicy)) 60000).
    + reflexivity.
    + lia.
Defined.

(* ===================================================================== *)
(** * Run executor                                                        *)
(* ===================================================================== *)

Section ExecutorFacts.
Import Sandbox Executor.
Context {S : Type} `{SandboxOps S}.

Lemma executeOperation_type (operation : Operation) (sandbox : S) :
  ev_type (fst (executeOperation operation sandbox))
  = EvOf (op_type operation).
Proof.
  destruct operation; simpl;
    repeat match goal with
           | |- context [let '(_, _) := ?x in _] => destruct x
           end; reflexivity.
Qed.

(** The events pushed before a call of the loop stay in front. *)
Lemma executeLoop_acc (policyEngine : Policy) (operations : list Operation) :
  forall (earlier : list Event) (sandbox : S),
    executeLoop policyEngine operations earlier sandbox
    = (Spec.withEarlier earlier
         (fst (executeLoop policyEngine operations [] sandbox)),
       snd (executeLoop policyEngine operations [] sandbox)).
Proof.
  induction operations as [|op rest IH]; intros earlier sandbox; simpl.
  - rewrite app_nil_r. reflexivity.
  - destruct (PolicyEngine.evaluate policyEngine op) as [pe|m]; simpl;
      [|reflexivity].
    destruct (allowed pe); simpl.
    + destruct (requiresApproval pe); simpl; [reflexivity|].
      destruct (executeOperation op sandbox) as [event sandbox'].
      rewrite (IH (earlier ++ [event])), (IH [event]).
      destruct (fst (executeLoop policyEngine rest [] sandbox')); simpl;
        [|reflexivity].
      rewrite <- app_assoc. reflexivity.
    + rewrite (IH (earlier ++ _)), (IH [_]).
      destruct (fst (executeLoop policyEngine rest [] sandbox)); simpl;
        [|reflexivity].
      rewrite <- app_assoc. reflexivity.
Qed.

(** One step of the loop, by the decision on the first operation. *)
Lemma executeLoop_step (policyEngine : Policy) (op : Operation)
    (rest : list Operation) (sandbox : S) (r : ExecuteRunResult) (s' : S) :
  executeLoop policyEngine (op :: rest) [] sandbox = (Return r, s') ->
  (Spec.isDenied policyEngine op = true /\
   exists e r0,
     ev_type e = EvPolicyDenied /\
     executeLoop policyEngine rest [] sandbox = (Return r0, s') /\
     r = mkResult (e :: events r0) (status r0) (pendingApproval r0)) \/
  (Spec.isGated policyEngine op = true /\ s' = sandbox /\
   exists reason details,
     r = mkResult
           [ApprovalRequiredEvent (idOrEmpty op) (op_type op) reason details]
           AwaitingApproval
           (Some (mkPending (idOrEmpty op) (op_type op) reason details))) \/
  (Spec.isAllow policyEngine op = true /\
   exists r0,
     executeLoop policyEngine rest []
       (snd (executeOperation op sandbox)) = (Return r0, s') /\
     r = mkResult (fst (executeOperation op sandbox) :: events r0)
           (status r0) (pendingApproval r0)).
Proof.
  unfold Spec.isDenied, Spec.isGated, Spec.isAllow. simpl.
  destruct (PolicyEngine.evaluate policyEngine op) as [pe|m];
    [|discriminate].
  destruct (allowed pe); simpl.
  - destruct (requiresApproval pe); simpl.
    + intros [= <- <-]. right; left. repeat split; eauto.
    + destruct (executeOperation op sandbox) as [event sandbox'] eqn:E.
      rewrite executeLoop_acc. simpl.
      destruct (executeLoop policyEngine rest [] sandbox') as [[r0|m] s0];
        simpl; [|discriminate].
      intros [= <- <-]. right; right. split; [reflexivity|].
      exists r0. split; reflexivity.
  - rewrite executeLoop_acc.
    destruct (executeLoop policyEngine rest [] sandbox) as [[r0|m] s0];
      simpl; [|discriminate].
    intros [= <- <-]. left. split; [reflexivity|].
    eexists _, r0. repeat split; reflexivity.
Qed.

(** What a returned result looks like, operation by operation. *)
Lemma executeLoop_inv (policyEngine : Policy) (operations : list Operation) :
  forall (sandbox : S) (r : ExecuteRunResult) (s' : S),
    executeLoop policyEngine operations [] sandbox = (Return r, s') ->
    (List.length (events r) <= List.length operations)%nat /\
    (forall i e, events r !! i = Some e ->
       exists op, operations !! i = Some op /\
         ((ev_type e = EvOf (op_type op) /\
           Spec.isAllow policyEngine op = true) \/
          (ev_type e = EvPolicyDenied /\
           Spec.isDenied policyEngine op = true) \/
          (ev_type e = EvApprovalRequired /\
           Spec.isGated policyEngine op = true /\
           Datatypes.S i = List.length (events r)))) /\
    (status r = Completed ->
       List.length (events r) = List.length operations /\
       pendingApproval r = None /\
       forall i e, events r !! i = Some e -> ev_type e <> EvApprovalRequired) /\
    (status r = AwaitingApproval ->
       exists front op reason details,
         events r = front ++
           [ApprovalRequiredEvent (idOrEmpty op) (op_type op) reason details] /\
         pendingApproval r
         = Some (mkPending (idOrEmpty op) (op_type op) reason details) /\
         operations !! List.length front = Some op /\
         Spec.isGated policyEngine op = true) /\
    (status r = Completed \/ status r = AwaitingApproval) /\
    s' = Spec.runAll
           (List.filter (Spec.isAllow policyEngine)
              (take (List.length (events r)) operations))
           sandbox.
Proof.
  induction operations as [|op rest IH]; intros sandbox r s' Hrun.
  - simpl in Hrun. injection Hrun as <- <-. simpl.
    split; [lia|]. split; [|split; [|split; [|split]]].
    + intros i e Hi. rewrite lookup_nil in Hi. discriminate.
    + intros _. split; [reflexivity|]. split; [reflexivity|].
      intros i e Hi. rewrite lookup_nil in Hi. discriminate.
    + discriminate.
    + left; reflexivity.
    + reflexivity.
  - apply executeLoop_step in Hrun.
    destruct Hrun as [(Hd & e & r0 & He & Hrest & ->)
                     | [(Hg & -> & reason & details & ->)
                       | (Ha & r0 & Hrest & ->)]].
    + destruct (IH _ _ _ Hrest) as (I1 & I2 & I3 & I4 & I5 & I6).
      assert (Hna : Spec.isAllow policyEngine op = false).
      { unfold Spec.isAllow, Spec.isDenied in *.
        destruct (PolicyEngine.evaluate policyEngine op) as [pe|];
          [|reflexivity].
        destruct (allowed pe); [discriminate | reflexivity]. }
      simpl. rewrite Hna.
      split; [lia|]. split; [|split; [|split; [|split]]].
      * intros [|i] e' Hi; simpl in Hi.
        -- injection Hi as <-. exists op. split; [reflexivity|]. auto.
        -- destruct (I2 _ _ Hi) as (op' & Hop & Hcase).
           exists op'. split; [exact Hop|].
           destruct Hcase as [?|[?|(?&?&?)]]; auto.
           right; right. split; [assumption|]. split; [assumption|]. lia.
      * intros Hs. destruct (I3 Hs) as (J1 & J2 & J3).
        split; [lia|]. split; [exact J2|].
        intros [|i] e' Hi; simpl in Hi.
        -- injection Hi as <-. rewrite He. discriminate.
        -- eapply J3; eassumption.
      * intros Hs.
        destruct (I4 Hs) as (front & op' & rs & ds & E1 & E2 & E3 & E4).
        exists (e :: front), op', rs, ds. simpl. rewrite E1.
        split; [reflexivity|]. split; [exact E2|]. split; assumption.
      * exact I5.
      * exact I6.
    + simpl.
      split; [lia|]. split; [|split; [|split; [|split]]].
      * intros [|i] e' Hi; simpl in Hi;
          [|rewrite lookup_nil in Hi; discriminate].
        injection Hi as <-. exists op. split; [reflexivity|].
        right; right. auto.
      * discriminate.
      * intros _. exists [], op, reason, details. auto.
      * right; reflexivity.
      * assert (Hna : Spec.isAllow policyEngine op = false).
        { unfold Spec.isAllow, Spec.isGated in *.
          destruct (PolicyEngine.evaluate policyEngine op) as [pe|];
            [|reflexivity].
          destruct (allowed pe), (requiresApproval pe);
            simpl in *; congruence. }
        rewrite Hna. reflexivity.
    + destruct (IH _ _ _ Hrest) as (I1 & I2 & I3 & I4 & I5 & I6).
      simpl. rewrite Ha.
      split; [lia|]. split; [|split; [|split; [|split]]].
      * intros [|i] e' Hi; simpl in Hi.
        -- injection Hi as <-. exists op. split; [reflexivity|].
           left. split; [apply executeOperation_type | exact Ha].
        -- destruct (I2 _ _ Hi) as (op' & Hop & Hcase).
           exists op'. split; [exact Hop|].
           destruct Hcase as [?|[?|(?&?&?)]]; auto.
           right; right. split; [assumption|]. split; [assumption|]. lia.
      * intros Hs. destruct (I3 Hs) as (J1 & J2 & J3).
        split; [lia|]. split; [exact J2|].
        intros [|i] e' Hi; simpl in Hi.
        -- injection Hi as <-. rewrite executeOperation_type. discriminate.
        -- eapply J3; eassumption.
      * intros Hs.
        destruct (I4 Hs) as (front & op' & rs & ds & E1 & E2 & E3 & E4).
        exists (fst (executeOperation op sandbox) :: front), op', rs, ds.
        simpl. rewrite E1.
        split; [reflexivity|]. split; [exact E2|]. split; assumption.
      * exact I5.
      * exact I6.
Qed.

End ExecutorFacts.

Section ExecutorTotality.
Import Sandbox Executor.
Context {S : Type} `{SandboxOps S}.

Lemma matchesAnyPattern_total (path : jsstring) (patterns : list jsstring) :
  forallb Spec.compiles patterns = true ->
  exists b, FilesystemRules.matchesAnyPattern path patterns = Return b.
Proof.
  induction patterns as [|p ps IH]; simpl; [eauto|].
  intros Hc. apply andb_true_iff in Hc as [Hp Hps].
  unfold FilesystemRules.matchesPattern, Spec.compiles in *.
  destruct (JS.RegExp (FilesystemRules.regexSource p)); try discriminate.
  simpl. destruct (JS.test r path); eauto.
Qed.

Lemma evaluateFilesystemPolicy_total (policyEngine : Policy)
    (path : jsstring) (isWrite : bool) :
  Spec.patternsCompile policyEngine = true ->
  exists e,
    FilesystemRules.evaluateFilesystemPolicy (filesystem policyEngine)
      path isWrite = Return e.
Proof.
  unfold Spec.patternsCompile, FilesystemRules.evaluateFilesystemPolicy.
  intros Hc. apply andb_true_iff in Hc as [Hb Ha].
  destruct (negb (fs_enabled (filesystem policyEngine))); [eauto|].
  destruct (isWrite && readOnly (filesystem policyEngine)); [eauto|].
  destruct (blockedPaths (filesystem policyEngine)) as [bs|]; simpl in *.
  - destruct (matchesAnyPattern_total path bs Hb) as [b ->]. simpl.
    destruct b; [eauto|].
    destruct (allowedPaths (filesystem policyEngine)) as [[|a as_]|];
      simpl in *; eauto.
    destruct (matchesAnyPattern_total path (a :: as_) Ha) as [b E].
    simpl in E. rewrite E. simpl. destruct b; simpl; eauto.
  - destruct (allowedPaths (filesystem policyEngine)) as [[|a as_]|];
      simpl in *; eauto.
    destruct (matchesAnyPattern_total path (a :: as_) Ha) as [b E].
    simpl in E. rewrite E. simpl. destruct b; simpl; eauto.
Qed.

Lemma evaluate_total (policyEngine : Policy) (operation : Operation) :
  Spec.patternsCompile policyEngine = true ->
  exists e, PolicyEngine.evaluate policyEngine operation = Return e.
Proof.
  intros Hc. destruct operation; simpl; eauto;
    unfold PolicyEngine.evaluateCreateFile, PolicyEngine.evaluateReadFile,
      PolicyEngine.evaluateEditFile, PolicyEngine.evaluateDeleteFile;
    try (apply evaluateFilesystemPolicy_total; exact Hc).
  destruct (evaluateFilesystemPolicy_total policyEngine path true Hc)
    as [e ->].
  simpl. destruct (negb (allowed e)); [eauto|].
  destruct (negb _); eauto.
Qed.

Lemma executeLoop_total (policyEngine : Policy)
    (operations : list Operation) :
  Spec.patternsCompile policyEngine = true ->
  forall sandbox : S,
  exists r s',
    executeLoop policyEngine operations [] sandbox = (Return r, s').
Proof.
  intros Hc. induction operations as [|op rest IH]; intros sandbox; simpl.
  - eauto.
  - destruct (evaluate_total policyEngine op Hc) as [e ->].
    destruct (negb (allowed e)).
    + rewrite executeLoop_acc.
      destruct (IH sandbox) as (r & s' & ->). simpl. eauto.
    + destruct (requiresApproval e); [eauto|].
      destruct (executeOperation op sandbox) as [event sandbox'].
      rewrite executeLoop_acc.
      destruct (IH sandbox') as (r & s' & ->). simpl. eauto.
Qed.

(** When the policy engine throws, the sandbox is as the operations
    allowed before that point left it. *)
Lemma executeLoop_throw (policyEngine : Policy)
    (operations : list Operation) :
  forall (sandbox : S) (message : jsstring) (s' : S),
    executeLoop policyEngine operations [] sandbox = (Throw message, s') ->
    exists n op,
      operations !! n = Some op /\
      PolicyEngine.evaluate policyEngine op = Throw message /\
      s' = Spec.runAll
             (List.filter (Spec.isAllow policyEngine) (take n operations))
             sandbox.
Proof.
  induction operations as [|op rest IH]; intros sandbox message s';
    simpl; [discriminate|].
  destruct (PolicyEngine.evaluate policyEngine op) as [pe|m] eqn:E.
  - destruct (allowed pe) eqn:Ea; simpl.
    + destruct (requiresApproval pe) eqn:Eg; simpl; [discriminate|].
      destruct (executeOperation op sandbox) as [event sandbox'] eqn:Eo.
      rewrite executeLoop_acc.
      destruct (executeLoop policyEngine rest [] sandbox')
        as [[r0|m] s0] eqn:Er; simpl; [discriminate|].
      intros [= <- <-].
      destruct (IH _ _ _ Er) as (n & op' & Hn & Hev & Hs).
      exists (Datatypes.S n), op'. simpl. unfold Spec.isAllow at 1.
      rewrite E, Ea, Eg. simpl.
      unfold Spec.runAll in *. simpl. rewrite Eo. simpl. auto.
    + rewrite executeLoop_acc.
      destruct (executeLoop policyEngine rest [] sandbox)
        as [[r0|m] s0] eqn:Er; simpl; [discriminate|].
      intros [= <- <-].
      destruct (IH _ _ _ Er) as (n & op' & Hn & Hev & Hs).
      exists (Datatypes.S n), op'. simpl. unfold Spec.isAllow at 1.
      rewrite E, Ea. simpl. auto.
  - intros [= <- <-]. exists 0%nat, op. simpl. auto.
Qed.

End ExecutorTotality.

(** C3, as the code has it.  Whenever [executeRun] returns a result (it
    does for every policy whose path patterns are accepted by [new
    RegExp]), the events are in position correspondence with the
    operations evaluated: there are at most as many events as operations
    and the i-th event is the own-typed event of the i-th operation, a
    [policyDenied] or an [approvalRequired]; when the status is
    [completed] there are as many events as operations and each is
    own-typed or [policyDenied]; when the status is [awaiting_approval]
    the last event is an [approvalRequired], and the pending approval's
    [operationId] is the id of the operation at index [len(events)-1]
    when that operation has one, and the empty string when it has
    none. *)
Theorem executeRun_events_correspond
    {S : Type} `{Sandbox.SandboxOps S}
    (operations : list Operation) (sandbox : S) (policyEngine : Policy) :
  (Spec.patternsCompile policyEngine = true ->
   exists r s',
     Executor.executeRun operations sandbox policyEngine = (Return r, s')) /\
  (forall r s',
     Executor.executeRun operations sandbox policyEngine = (Return r, s') ->
     (List.length (Executor.events r) <= List.length operations)%nat /\
     (forall i e, Executor.events r !! i = Some e ->
        exists op, operations !! i = Some op /\
          (ev_type e = EvOf (op_type op) \/ ev_type e = EvPolicyDenied \/
           ev_type e = EvApprovalRequired)) /\
     (Executor.status r = Completed ->
        List.length (Executor.events r) = List.length operations /\
        forall i e, Executor.events r !! i = Some e ->
          exists op, operations !! i = Some op /\
            (ev_type e = EvOf (op_type op) \/ ev_type e = EvPolicyDenied)) /\
     (Executor.status r = AwaitingApproval ->
        exists e pa op,
          last (Executor.events r) = Some e /\
          ev_type e = EvApprovalRequired /\
          Executor.pendingApproval r = Some pa /\
          operations !! (List.length (Executor.events r) - 1)%nat = Some op /\
          (forall id, op_id op = Some id -> Executor.pa_operationId pa = id) /\
          (op_id op = None -> Executor.pa_operationId pa = [])) /\
     (Executor.status r = Completed \/ Executor.status r = AwaitingApproval)).
Proof.
  unfold Executor.executeRun. split.
  - intros Hc. apply executeLoop_total. exact Hc.
  - intros r s' Hrun.
    destruct (executeLoop_inv _ _ _ _ _ Hrun) as (I1 & I2 & I3 & I4 & I5 & _).
    split; [exact I1|]. split; [|split; [|split]].
    + intros i e Hi. destruct (I2 _ _ Hi) as (op & Hop & Hcase).
      exists op. split; [exact Hop|]. tauto.
    + intros Hs. destruct (I3 Hs) as (J1 & _ & J3).
      split; [exact J1|]. intros i e Hi.
      destruct (I2 _ _ Hi) as (op & Hop & Hcase).
      exists op. split; [exact Hop|].
      destruct Hcase as [[? _]|[[? _]|[? _]]]; auto.
      exfalso. eapply J3; eassumption.
    + intros Hs.
      destruct (I4 Hs) as (front & op & rs & ds & E1 & E2 & E3 & _).
      eexists _, _, op. rewrite E1, E2, last_snoc, length_app. simpl.
      replace (List.length front + 1 - 1)%nat with (List.length front) by lia.
      split; [reflexivity|]. split; [reflexivity|]. split; [reflexivity|].
      split; [exact E3|]. unfold Executor.idOrEmpty. simpl.
      split.
      * intros id ->. destruct id; reflexivity.
      * intros ->. reflexivity.
    + exact I5.
Qed.

(** Scenario S3 (a denial in the middle of a batch) through the theorem:
    the run returns, is completed and has three events. *)
Lemma executeRun_events_correspond_witness :
  exists r s',
    Executor.executeRun
      [CreateFileOperation None (str "ok.txt") (str "ok") None None;
       ShellOperation None (str "sudo rm -rf /") None None None;
       CreateFileOperation None (str "tail.txt") (str "t") None None]
      ([] : list Spec.Call) standardPolicy = (Return r, s') /\
    List.length (Executor.events r) = 3%nat.
Proof.
  destruct (proj1 (executeRun_events_correspond
                     [CreateFileOperation None (str "ok.txt") (str "ok")
                        None None;
                      ShellOperation None (str "sudo rm -rf /") None None None;
                      CreateFileOperation None (str "tail.txt") (str "t")
                        None None]
                     ([] : list Spec.Call) standardPolicy))
    as (r & s' & Hrun).
  - vm_compute. reflexivity.
  - exists r, s'. split; [exact Hrun|].
    destruct (proj2 (executeRun_events_correspond _ _ _) r s' Hrun)
      as (_ & _ & Hcompleted & _).
    apply Hcompleted.
    vm_compute in Hrun. injection Hrun as <- _. reflexivity.
Defined.

(** An operation without id: the pending approval carries the empty
    string, which is not the id of the operation at index
    [len(events)-1] (it has none), so the specification's "matches the
    id" does not hold there. *)
Lemma pendingApproval_operationId_counterexample :
  let operations :=
    [ShellOperation None (str "ls && rm -rf tmp") None None None] in
  exists r pa op,
    fst (Executor.executeRun operations ([] : list Spec.Call) standardPolicy)
    = Return r /\
    Executor.status r = AwaitingApproval /\
    Executor.pendingApproval r = Some pa /\
    operations !! (List.length (Executor.events r) - 1)%nat = Some op /\
    Executor.pa_operationId pa = [] /\
    op_id op <> Some (Executor.pa_operationId pa).
Proof.
  cbv zeta. eexists _, _, _.
  split; [vm_compute; reflexivity|].
  split; [reflexivity|]. split; [reflexivity|]. split; [reflexivity|].
  split; [reflexivity|]. discriminate.
Qed.

Section DispatchFacts.
Import Sandbox Executor.

Lemma recorder_runAll (operations : list Operation) :
  forall log : list Spec.Call,
    Spec.runAll operations log = log ++ flat_map Spec.callsOf operations.
Proof.
  unfold Spec.runAll.
  induction operations as [|op rest IH]; intros log; simpl.
  - rewrite app_nil_r. reflexivity.
  - rewrite IH. destruct op; simpl; rewrite <- ?app_assoc, ?app_nil_r;
      reflexivity.
Qed.

Lemma executeRun_dispatch {S : Type} `{SandboxOps S}
    (policyEngine : Policy) (operations : list Operation) (sandbox : S) :
  exists n,
    (n <= List.length operations)%nat /\
    snd (executeRun operations sandbox policyEngine)
    = Spec.runAll
        (List.filter (Spec.isAllow policyEngine) (take n operations))
        sandbox /\
    (forall r, fst (executeRun operations sandbox policyEngine) = Return r ->
               n = List.length (events r)).
Proof.
  unfold executeRun.
  destruct (executeLoop policyEngine operations [] sandbox)
    as [[r|m] s'] eqn:E.
  - destruct (executeLoop_inv _ _ _ _ _ E) as (I1 & _ & _ & _ & _ & I6).
    exists (List.length (events r)). simpl.
    split; [exact I1|]. split; [exact I6|]. intros r' [= <-]. reflexivity.
  - destruct (executeLoop_throw _ _ _ _ _ E) as (n & op & Hn & _ & Hs).
    exists n. simpl. split; [|split; [exact Hs | discriminate]].
    apply lookup_lt_Some in Hn. lia.
Qed.

End DispatchFacts.

(** C10.  An operation that the policy denies or gates behind an approval
    is never dispatched to the sandbox.  Whatever the sandbox is, its
    state after [executeRun] is the state reached by dispatching, in
    order, exactly the operations decided [Allow] among those that were
    evaluated (the first [n], where [n] is the number of events of a
    returned result); and on the sandbox that records every primitive
    invoked, the record grows by the calls of those operations and by
    nothing else. *)
Theorem denied_or_gated_not_dispatched
    (policyEngine : Policy) (operations : list Operation) :
  (forall (S : Type) (ops : Sandbox.SandboxOps S) (sandbox : S),
     exists n,
       (n <= List.length operations)%nat /\
       snd (Executor.executeRun operations sandbox policyEngine)
       = Spec.runAll
           (List.filter (Spec.isAllow policyEngine) (take n operations))
           sandbox /\
       (forall r,
          fst (Executor.executeRun operations sandbox policyEngine) = Return r ->
          n = List.length (Executor.events r))) /\
  (forall log : list Spec.Call,
     exists n,
       (n <= List.length operations)%nat /\
       snd (Executor.executeRun operations log policyEngine)
       = log ++ flat_map Spec.callsOf
                  (List.filter (Spec.isAllow policyEngine) (take n operations)) /\
       (forall r,
          fst (Executor.executeRun operations log policyEngine) = Return r ->
          n = List.length (Executor.events r))).
Proof.
  split.
  - intros S ops sandbox. apply executeRun_dispatch.
  - intros log.
    destruct (executeRun_dispatch policyEngine operations log)
      as (n & Hn & Hs & Hr).
    exists n. rewrite Hs, recorder_runAll. auto.
Qed.

(** Scenario S3 on the recording sandbox: of the three operations only the
    two file creations reach a primitive; the denied shell command leaves
    no call. *)
Lemma denied_or_gated_not_dispatched_witness :
  snd (Executor.executeRun
         [CreateFileOperation None (str "ok.txt") (str "ok") None None;
          ShellOperation None (str "sudo rm -rf /") None None None;
          CreateFileOperation None (str "tail.txt") (str "t") None None]
         ([] : list Spec.Call) standardPolicy)
  = [Spec.CallCreateFile (str "ok.txt") (str "ok");
     Spec.CallCreateFile (str "tail.txt") (str "t")].
Proof.
  destruct (proj2 (denied_or_gated_not_dispatched standardPolicy
                     [CreateFileOperation None (str "ok.txt") (str "ok")
                        None None;
                      ShellOperation None (str "sudo rm -rf /") None None None;
                      CreateFileOperation None (str "tail.txt") (str "t")
                        None None]) [])
    as (n & _ & Hlog & Hn).
  rewrite Hlog.
  rewrite (Hn (Executor.mkResult
                 [CreateFileEvent None (str "ok.txt") false None None;
                  PolicyDeniedEvent None TyShell
                    (str "Command contains blocked pattern") None;
                  CreateFileEvent None (str "tail.txt") false None None]
                 Completed None)).
  - vm_compute. reflexivity.
  - vm_compute. reflexivity.
Defined.

(* ===================================================================== *)
(** * Run service                                                         *)
(* ===================================================================== *)

Section RunServiceFacts.
Import Sandbox Executor RunSvc.
Context {S : Type} `{SandboxOps S}.

Lemma findIndexFrom_spec {A} (pred : A -> bool) (xs : list A) :
  forall i,
    (findIndexFrom pred xs i = -1 /\ forall x, In x xs -> pred x = false) \/
    (exists k x,
       findIndexFrom pred xs i = i + Z.of_nat k /\
       xs !! k = Some x /\ pred x = true /\
       forall j y, (j < k)%nat -> xs !! j = Some y -> pred y = false) \/
    (i < 0).
Proof.
  induction xs as [|x xs IH]; intros i; simpl.
  - left. split; [reflexivity | intros x []].
  - destruct (Z_lt_dec i 0) as [Hneg|Hpos]; [right; right; exact Hneg|].
    destruct (pred x) eqn:Ex.
    + right; left. exists 0%nat, x. simpl.
      split; [lia|]. split; [reflexivity|]. split; [exact Ex|]. lia.
    + destruct (IH (i + 1)) as [[H1 H2] | [(k & y & H1 & H2 & H3 & H4) | Hn]];
        [| |lia].
      * left. split; [exact H1|]. intros z [<-|Hz]; auto.
      * right; left. exists (Datatypes.S k), y. simpl.
        split; [lia|]. split; [exact H2|]. split; [exact H3|].
        intros [|j] z Hj Hz; simpl in Hz.
        -- injection Hz as <-. exact Ex.
        -- eapply H4; [|exact Hz]. lia.
Qed.

(** No operation carries the id: [findIndex] gives [-1]. *)
Lemma findIndex_absent (operationId : jsstring) (operations : list Operation) :
  (forall op, In op operations -> op_id op <> Some operationId) ->
  findIndex (idIs operationId) operations = -1.
Proof.
  intros Habs. unfold findIndex.
  destruct (findIndexFrom_spec (idIs operationId) operations 0)
    as [[H1 _] | [(k & x & _ & Hk & Hp & _) | Hn]]; [exact H1 | | lia].
  exfalso. apply (Habs x).
  - apply list_elem_of_In. eapply list_elem_of_lookup_2. exact Hk.
  - unfold idIs in Hp. destruct (op_id x) as [i|]; [|discriminate].
    apply js_eqb_eq in Hp. congruence.
Qed.

(** The first operation carrying the id is at [k]: [findIndex] gives [k]. *)
Lemma findIndex_first (operationId : jsstring) (operations : list Operation)
    (k : nat) (op : Operation) :
  operations !! k = Some op ->
  op_id op = Some operationId ->
  (forall j y, (j < k)%nat -> operations !! j = Some y ->
               op_id y <> Some operationId) ->
  findIndex (idIs operationId) operations = Z.of_nat k.
Proof.
  intros Hk Hid Hfirst. unfold findIndex.
  assert (Hp : idIs operationId op = true).
  { unfold idIs. rewrite Hid. apply js_eqb_refl. }
  destruct (findIndexFrom_spec (idIs operationId) operations 0)
    as [[_ H2] | [(k' & x & H1 & Hk' & Hx & Hbefore) | Hn]]; [| |lia].
  - rewrite H2 in Hp; [discriminate|].
    apply list_elem_of_In. eapply list_elem_of_lookup_2. exact Hk.
  - rewrite H1. f_equal.
    destruct (lt_eq_lt_dec k k') as [[Hlt|Heq]|Hgt]; [|lia|].
    + rewrite (Hbefore k op Hlt Hk) in Hp. discriminate.
    + exfalso. apply (Hfirst k' x Hgt Hk').
      unfold idIs in Hx. destruct (op_id x) as [i|]; [|discriminate].
      apply js_eqb_eq in Hx. congruence.
Qed.

(** [resume] on an id that no operation of the run carries. *)
Lemma resume_not_found (w : Services S) (runId : jsstring) (run : Run)
    (approval : Approval) (sandbox : S) (policyEngine : Policy) :
  get runId w = Some run ->
  run_status run = AwaitingApproval ->
  sandboxes w !! run_spaceId run = Some sandbox ->
  policyEngines w !! run_spaceId run = Some policyEngine ->
  (forall op, In op (run_operations run) ->
              op_id op <> Some (operationId approval)) ->
  resume runId approval w
  = (Throw (str "Operation " ++ operationId approval
              ++ str " not found in run"), w).
Proof.
  intros Hget Hst Hsb Hpe Habs. unfold resume.
  rewrite Hget, Hst, Hsb, Hpe.
  rewrite (findIndex_absent _ _ Habs). reflexivity.
Qed.

(** [resume] with a denial: one [policyDenied] event, the run is marked
    completed, and no operation is evaluated or dispatched. *)
Lemma resume_denied (w : Services S) (runId : jsstring) (run : Run)
    (approval : Approval) (sandbox : S) (policyEngine : Policy)
    (k : nat) (pending : Operation) :
  get runId w = Some run ->
  run_status run = AwaitingApproval ->
  sandboxes w !! run_spaceId run = Some sandbox ->
  policyEngines w !! run_spaceId run = Some policyEngine ->
  findIndex (idIs (operationId approval)) (run_operations run) = Z.of_nat k ->
  run_operations run !! k = Some pending ->
  decision approval = Denied ->
  let denied :=
    PolicyDeniedEvent (Some (operationId approval)) (op_type pending)
      (JS.orElse (ap_reason approval) (str "Approval denied by user")) None in
  let updatedRun :=
    mkRun (run_id run) (run_spaceId run) Completed (run_operations run)
      (run_events run ++ [denied]) None in
  resume runId approval w
  = (Return (updatedRun, mkResult [denied] Completed None),
     mkServices (<[runId := updatedRun]> (runs w)) (sandboxes w)
       (policyEngines w)).
Proof.
  intros Hget Hst Hsb Hpe Hidx Hk Hdec. cbv zeta. unfold resume.
  rewrite Hget, Hst, Hsb, Hpe, Hidx, Hdec.
  destruct (Z.eqb_spec (Z.of_nat k) (-1)) as [E|_]; [lia|].
  rewrite Nat2Z.id, Hk. reflexivity.
Qed.

(** [resume] with an approval: [executeRun] is called on the operations
    from the pending one on, with the same policy engine. *)
Lemma resume_approved (w : Services S) (runId : jsstring) (run : Run)
    (approval : Approval) (sandbox : S) (policyEngine : Policy) (k : nat)
    (result : ExecuteRunResult) (sandbox' : S) :
  get runId w = Some run ->
  run_status run = AwaitingApproval ->
  sandboxes w !! run_spaceId run = Some sandbox ->
  policyEngines w !! run_spaceId run = Some policyEngine ->
  findIndex (idIs (operationId approval)) (run_operations run) = Z.of_nat k ->
  decision approval = Approved ->
  executeRun (drop k (run_operations run)) sandbox policyEngine
  = (Return result, sandbox') ->
  let updatedRun :=
    mkRun (run_id run) (run_spaceId run) (status result) (run_operations run)
      (run_events run ++ events result) (pendingApproval result) in
  resume runId approval w
  = (Return (updatedRun, mkResult (events result) (status result) None),
     mkServices (<[runId := updatedRun]> (runs w))
       (<[run_spaceId run := sandbox']> (sandboxes w)) (policyEngines w)).
Proof.
  intros Hget Hst Hsb Hpe Hidx Hdec Hrun. cbv zeta. unfold resume.
  rewrite Hget, Hst, Hsb, Hpe, Hidx, Hdec.
  destruct (Z.eqb_spec (Z.of_nat k) (-1)) as [E|_]; [lia|].
  rewrite Nat2Z.id, Hrun. reflexivity.
Qed.

(** A gated operation at the head of the list suspends [executeRun] at
    once, before anything reaches the sandbox. *)
Lemma executeRun_gated_head (policyEngine : Policy) (op : Operation)
    (rest : list Operation) (sandbox : S) (e : PolicyEvaluation) :
  PolicyEngine.evaluate policyEngine op = Return e ->
  allowed e = true -> requiresApproval e = true ->
  let why := JS.orElse (reason e) (str "Operation requires approval") in
  let details := approvalDetails e op in
  executeRun (op :: rest) sandbox policyEngine
  = (Return
       (mkResult
          [ApprovalRequiredEvent (idOrEmpty op) (op_type op) why details]
          AwaitingApproval
          (Some (mkPending (idOrEmpty op) (op_type op) why details))),
     sandbox).
Proof.
  intros He Ha Hg. unfold executeRun. simpl. rewrite He, Ha, Hg. reflexivity.
Qed.

(** [create] when the space is there, the executor returns and the run id
    is free. *)
Lemma create_returns (w : Services S) (spaceId fresh : jsstring)
    (operations : list Operation) (sandbox sandbox' : S)
    (policyEngine : Policy) (result : ExecuteRunResult) :
  sandboxes w !! spaceId = Some sandbox ->
  policyEngines w !! spaceId = Some policyEngine ->
  executeRun operations sandbox policyEngine = (Return result, sandbox') ->
  runs w !! (str "run_" ++ fresh) = None ->
  let newRun :=
    mkRun (str "run_" ++ fresh) spaceId (status result) operations
      (events result) (pendingApproval result) in
  create spaceId operations fresh w
  = (Return (newRun, result),
     mkServices (<[str "run_" ++ fresh := newRun]> (runs w))
       (<[spaceId := sandbox']> (sandboxes w)) (policyEngines w)).
Proof.
  intros Hsb Hpe Hrun Hfree. cbv zeta. unfold create.
  rewrite Hsb, Hpe, Hrun, Hfree. reflexivity.
Qed.

(** Approving a gated operation does not execute it: the resumed call
    evaluates the operation again under the same policy, suspends on it
    again, and hands the sandbox back as it was. *)
Lemma resume_approved_regated (w : Services S) (runId : jsstring) (run : Run)
    (approval : Approval) (sandbox : S) (policyEngine : Policy) (k : nat)
    (pending : Operation) (e : PolicyEvaluation) :
  get runId w = Some run ->
  run_status run = AwaitingApproval ->
  sandboxes w !! run_spaceId run = Some sandbox ->
  policyEngines w !! run_spaceId run = Some policyEngine ->
  findIndex (idIs (operationId approval)) (run_operations run) = Z.of_nat k ->
  run_operations run !! k = Some pending ->
  PolicyEngine.evaluate policyEngine pending = Return e ->
  allowed e = true -> requiresApproval e = true ->
  decision approval = Approved ->
  exists updatedRun event,
    resume runId approval w
    = (Return (updatedRun, mkResult [event] AwaitingApproval None),
       mkServices (<[runId := updatedRun]> (runs w)) (sandboxes w)
         (policyEngines w)) /\
    ev_type event = EvApprovalRequired /\
    run_status updatedRun = AwaitingApproval /\
    run_events updatedRun = run_events run ++ [event].
Proof.
  intros Hget Hst Hsb Hpe Hidx Hk He Ha Hg Hdec.
  pose proof (executeRun_gated_head policyEngine pending
                (drop (Datatypes.S k) (run_operations run)) sandbox e
                He Ha Hg) as Hrun.
  cbv zeta in Hrun. rewrite <- (drop_S _ _ _ Hk) in Hrun.
  pose proof (resume_approved w runId run approval sandbox policyEngine k
                _ _ Hget Hst Hsb Hpe Hidx Hdec Hrun) as Hres.
  cbv zeta in Hres. rewrite (insert_id _ _ _ Hsb) in Hres.
  eexists _, _. split; [exact Hres|]. repeat split.
Qed.

End RunServiceFacts.

Section ScenarioFacts.
Import Sandbox Executor RunSvc.
Context {S : Type} `{SandboxOps S}.

Lemma gatedShell_decision (id : option jsstring) :
  PolicyEngine.evaluate standardPolicy (Scenario.gatedShell id)
  = Return Scenario.gatedDecision.
Proof. reflexivity. Qed.

(** Submitting a batch that starts with the gated command: the run is
    stored awaiting approval, with the one event of the suspension. *)
Lemma create_gated (sandbox : S) (id : option jsstring)
    (rest : list Operation) (fresh : jsstring) :
  let operations := Scenario.gatedShell id :: rest in
  let stored := JS.orElse id [] in
  let result :=
    mkResult [Scenario.gatedEvent stored] AwaitingApproval
      (Some (mkPending stored TyShell (str "Command requires approval")
               (mkDetails (Some (str "shell.approvalRequired"))
                  (Some Scenario.gatedCommand) None))) in
  let run :=
    mkRun (str "run_" ++ fresh) Scenario.spaceId AwaitingApproval operations
      (events result) (pendingApproval result) in
  create Scenario.spaceId operations fresh
    (Scenario.services sandbox standardPolicy)
  = (Return (run, result),
     mkServices {[str "run_" ++ fresh := run]} {[Scenario.spaceId := sandbox]}
       {[Scenario.spaceId := standardPolicy]}).
Proof.
  cbv zeta.
  pose proof (create_returns (Scenario.services sandbox standardPolicy)
                Scenario.spaceId fresh (Scenario.gatedShell id :: rest)
                sandbox sandbox standardPolicy _
                (lookup_singleton_eq _ _) (lookup_singleton_eq _ _)
                (executeRun_gated_head _ _ _ _ _
                   (gatedShell_decision id) eq_refl eq_refl)
                (lookup_empty _)) as Hcreate.
  cbv zeta in Hcreate. rewrite Hcreate. unfold Scenario.services.
  cbn [runs sandboxes policyEngines].
  rewrite insert_empty, insert_singleton_eq. reflexivity.
Qed.

End ScenarioFacts.

(** C1 at its failing input.  Under the standard preset a batch with the
    single gated shell operation [op1] suspends.  Resuming it with decision
    [approved] calls [executeRun] on the operations from the pending one
    on without bypassing the policy, so the operation is gated again: the
    resumed run appends a second [approvalRequired] event instead of the
    [shell] event, stays in [awaiting_approval], and the command never
    reaches the sandbox. *)
Theorem resume_approved_suspends_again
    {S : Type} `{Sandbox.SandboxOps S} (sandbox : S) :
  let operations := [Scenario.gatedShell (Some (str "op1"))] in
  exists runA resultA w1 runB resultB w2,
    RunSvc.create Scenario.spaceId operations (str "a")
      (Scenario.services sandbox standardPolicy)
    = (Return (runA, resultA), w1) /\
    RunSvc.run_status runA = AwaitingApproval /\
    RunSvc.run_events runA = [Scenario.gatedEvent (str "op1")] /\
    RunSvc.resume (RunSvc.run_id runA)
      (RunSvc.mkApproval (str "op1") RunSvc.Approved None) w1
    = (Return (runB, resultB), w2) /\
    Executor.events resultB = [Scenario.gatedEvent (str "op1")] /\
    Executor.status resultB = AwaitingApproval /\
    RunSvc.run_status runB = AwaitingApproval /\
    RunSvc.run_events runB
    = [Scenario.gatedEvent (str "op1"); Scenario.gatedEvent (str "op1")] /\
    RunSvc.sandboxes w2 !! Scenario.spaceId = Some sandbox.
Proof.
  cbv zeta. do 6 eexists.
  split; [apply (create_gated sandbox (Some (str "op1")) [] (str "a"))|].
  split; [reflexivity|]. split; [reflexivity|].
  split.
  - eapply (resume_approved _ _ _ _ sandbox standardPolicy 0).
    + apply lookup_singleton_eq.
    + reflexivity.
    + apply lookup_singleton_eq.
    + apply lookup_singleton_eq.
    + reflexivity.
    + reflexivity.
    + apply (executeRun_gated_head _ _ _ _ _
               (gatedShell_decision (Some (str "op1")))); reflexivity.
  - cbn [Executor.events Executor.status Executor.pendingApproval
         RunSvc.run_status RunSvc.run_events RunSvc.sandboxes
         RunSvc.run_spaceId].
    split; [reflexivity|]. split; [reflexivity|]. split; [reflexivity|].
    split; [reflexivity|]. apply lookup_insert_eq.
Qed.

(** C2 at its failing input.  Under the standard preset the batch [op1]
    (gated shell command), [op2] (create [tail.txt]) suspends at [op1].
    Resuming it with decision [denied] and reason [no] appends the one
    [policyDenied] event and marks the run completed at once: [op2],
    which the policy allows, is never evaluated, gets no event, and the
    sandbox is untouched. *)
Theorem resume_denied_drops_the_rest
    {S : Type} `{Sandbox.SandboxOps S} (sandbox : S) :
  let operations :=
    [Scenario.gatedShell (Some (str "op1")); Scenario.tailFile] in
  exists runA resultA w1 runB resultB w2,
    RunSvc.create Scenario.spaceId operations (str "a")
      (Scenario.services sandbox standardPolicy)
    = (Return (runA, resultA), w1) /\
    RunSvc.run_status runA = AwaitingApproval /\
    RunSvc.resume (RunSvc.run_id runA)
      (RunSvc.mkApproval (str "op1") RunSvc.Denied (Some (str "no"))) w1
    = (Return (runB, resultB), w2) /\
    Executor.events resultB
    = [PolicyDeniedEvent (Some (str "op1")) TyShell (str "no") None] /\
    RunSvc.run_status runB = Completed /\
    RunSvc.run_events runB
    = [Scenario.gatedEvent (str "op1");
       PolicyDeniedEvent (Some (str "op1")) TyShell (str "no") None] /\
    Spec.isAllow standardPolicy Scenario.tailFile = true /\
    RunSvc.sandboxes w2 !! Scenario.spaceId = Some sandbox.
Proof.
  cbv zeta. do 6 eexists.
  split; [apply (create_gated sandbox (Some (str "op1"))
                   [Scenario.tailFile] (str "a"))|].
  split; [reflexivity|].
  split.
  - eapply (resume_denied _ _ _ _ sandbox standardPolicy 0).
    + apply lookup_singleton_eq.
    + reflexivity.
    + apply lookup_singleton_eq.
    + apply lookup_singleton_eq.
    + reflexivity.
    + reflexivity.
    + reflexivity.
  - cbn [Executor.events RunSvc.run_status RunSvc.run_events
         RunSvc.sandboxes].
    split; [reflexivity|]. split; [reflexivity|]. split; [reflexivity|].
    split; [reflexivity|]. apply lookup_singleton_eq.
Qed.

(** C9, as the code has it.  When [executeRun] suspends on an operation
    without id, the pending approval carries the empty string as its
    [operationId]; and a [resume] call on a run awaiting approval fails
    with the operation-not-found error, leaving the services as they
    were, whenever no operation of the run carries the supplied
    [operationId] as its id.  (So a suspended run none of whose
    operations has an id can never be resumed.) *)
Theorem resume_unknown_operationId {S : Type} `{Sandbox.SandboxOps S} :
  (forall operations (sandbox : S) policyEngine r s',
     Executor.executeRun operations sandbox policyEngine = (Return r, s') ->
     Executor.status r = AwaitingApproval ->
     exists op pa,
       operations !! (List.length (Executor.events r) - 1)%nat = Some op /\
       Executor.pendingApproval r = Some pa /\
       (op_id op = None -> Executor.pa_operationId pa = [])) /\
  (forall (w : RunSvc.Services S) runId run approval sandbox policyEngine,
     RunSvc.get runId w = Some run ->
     RunSvc.run_status run = AwaitingApproval ->
     RunSvc.sandboxes w !! RunSvc.run_spaceId run = Some sandbox ->
     RunSvc.policyEngines w !! RunSvc.run_spaceId run = Some policyEngine ->
     (forall op, In op (RunSvc.run_operations run) ->
                 op_id op <> Some (RunSvc.operationId approval)) ->
     RunSvc.resume runId approval w
     = (Throw (str "Operation " ++ RunSvc.operationId approval
                 ++ str " not found in run"), w)).
Proof.
  split.
  - intros operations sandbox policyEngine r s' Hrun Hs.
    destruct (executeLoop_inv _ _ _ _ _ Hrun) as (_ & _ & _ & Hawait & _).
    destruct (Hawait Hs) as (front & op & rs & ds & E1 & E2 & E3 & _).
    exists op, (Executor.mkPending (Executor.idOrEmpty op) (op_type op) rs ds).
    rewrite E1, length_app. simpl.
    replace (List.length front + 1 - 1)%nat with (List.length front) by lia.
    split; [exact E3|]. split; [exact E2|].
    intros Hid. unfold Executor.idOrEmpty. rewrite Hid. reflexivity.
  - intros. eapply resume_not_found; eassumption.
Qed.

(** A batch whose only operation is the gated command without id: the
    stored [operationId] is the empty string, and resuming with it is
    refused, as no operation carries it. *)
Lemma resume_unknown_operationId_witness :
  let operations := [Scenario.gatedShell None] in
  let approval := RunSvc.mkApproval [] RunSvc.Approved None in
  exists r run w1,
    Executor.executeRun operations ([] : list Spec.Call) standardPolicy
    = (Return r, []) /\
    Executor.pa_operationId <$> Executor.pendingApproval r = Some [] /\
    RunSvc.create Scenario.spaceId operations (str "a")
      (Scenario.services ([] : list Spec.Call) standardPolicy)
    = (Return (run, r), w1) /\
    RunSvc.resume (RunSvc.run_id run) approval w1
    = (Throw (str "Operation " ++ [] ++ str " not found in run"), w1).
Proof.
  cbv zeta. eexists _, _, _.
  assert (Hrun :
    Executor.executeRun [Scenario.gatedShell None] ([] : list Spec.Call)
      standardPolicy
    = (Return
         (Executor.mkResult [Scenario.gatedEvent []] AwaitingApproval
            (Some (Executor.mkPending [] TyShell
                     (str "Command requires approval")
                     (mkDetails (Some (str "shell.approvalRequired"))
                        (Some Scenario.gatedCommand) None)))), []))
    by reflexivity.
  split; [exact Hrun|].
  split.
  - destruct (proj1 resume_unknown_operationId _ _ _ _ _ Hrun eq_refl)
      as (op & pa & Hop & Hpa & Hempty).
    rewrite Hpa. simpl. f_equal. apply Hempty.
    simpl in Hop. injection Hop as <-. reflexivity.
  - split; [apply (create_gated ([] : list Spec.Call) None [] (str "a"))|].
    eapply (proj2 resume_unknown_operationId _ _ _
              (RunSvc.mkApproval [] RunSvc.Approved None)
              ([] : list Spec.Call) standardPolicy).
    + apply lookup_singleton_eq.
    + reflexivity.
    + apply lookup_singleton_eq.
    + apply lookup_singleton_eq.
    + simpl. intros op [<-|[]]. discriminate.
Defined.

(** A run suspended on an operation without id is not beyond resuming:
    a call that names another operation of the run goes through, be it
    by the stored empty string (when an operation has the empty id) or
    by any other id present. *)
Lemma resume_without_id_counterexample :
  let operations :=
    [MessageOperation (Some []) (str "hi");
     MessageOperation (Some (str "m1")) (str "there");
     Scenario.gatedShell None] in
  exists runA resultA w1,
    RunSvc.create Scenario.spaceId operations (str "a")
      (Scenario.services ([] : list Spec.Call) standardPolicy)
    = (Return (runA, resultA), w1) /\
    RunSvc.run_status runA = AwaitingApproval /\
    operations !! (List.length (RunSvc.run_events runA) - 1)%nat
    = Some (Scenario.gatedShell None) /\
    Executor.pa_operationId <$> RunSvc.run_pendingApproval runA = Some [] /\
    (exists runB resultB w2,
       RunSvc.resume (RunSvc.run_id runA)
         (RunSvc.mkApproval [] RunSvc.Denied None) w1
       = (Return (runB, resultB), w2) /\
       RunSvc.run_status runB = Completed) /\
    (exists runB resultB w2,
       RunSvc.resume (RunSvc.run_id runA)
         (RunSvc.mkApproval (str "m1") RunSvc.Denied None) w1
       = (Return (runB, resultB), w2) /\
       RunSvc.run_status runB = Completed).
Proof.
  cbv zeta. eexists _, _, _.
  split.
  - apply (create_returns (Scenario.services ([] : list Spec.Call)
                             standardPolicy)
             Scenario.spaceId (str "a") _ [] [] standardPolicy).
    + apply lookup_singleton_eq.
    + apply lookup_singleton_eq.
    + reflexivity.
    + apply lookup_empty.
  - split; [reflexivity|]. split; [reflexivity|]. split; [reflexivity|].
    split.
    + eexists _, _, _. split.
      * eapply (resume_denied _ _ _ _ ([] : list Spec.Call) standardPolicy 0).
        -- apply lookup_insert_eq.
        -- reflexivity.
        -- apply lookup_insert_eq.
        -- apply lookup_singleton_eq.
        -- reflexivity.
        -- reflexivity.
        -- reflexivity.
      * reflexivity.
    + eexists _, _, _. split.
      * eapply (resume_denied _ _ _ _ ([] : list Spec.Call) standardPolicy 1).
        -- apply lookup_insert_eq.
        -- reflexivity.
        -- apply lookup_insert_eq.
        -- apply lookup_singleton_eq.
        -- reflexivity.
        -- reflexivity.
        -- reflexivity.
      * reflexivity.
Qed.

(* ===================================================================== *)
(** * Sandbox: [editFile]                                                 *)
(* ===================================================================== *)

Section EditFileFacts.
Import Sandbox SandboxFs.
Variable join : list jsstring -> jsstring.

Lemma substring_prefix (s : jsstring) (n : nat) :
  JS.substring s 0 (Z.of_nat n) = take n s.
Proof.
  unfold JS.substring, JS.clamp, JS.length.
  replace (Z.min (Z.max 0 0) (Z.of_nat (List.length s))) with 0 by lia.
  set (m := Z.min (Z.max (Z.of_nat n) 0) (Z.of_nat (List.length s))).
  replace (Z.min 0 m) with 0 by lia. replace (Z.max 0 m) with m by lia.
  simpl Z.to_nat. rewrite drop_0, Z.sub_0_r.
  destruct (le_lt_dec n (List.length s)) as [Hle|Hgt].
  - replace (Z.to_nat m) with n by lia. reflexivity.
  - replace (Z.to_nat m) with (List.length s) by lia.
    rewrite firstn_all, take_ge by lia. reflexivity.
Qed.

(** [splitFirst] finds an occurrence, and the leftmost one. *)
Lemma splitFirst_Some (s p pre post : jsstring) :
  JS.splitFirst s p = Some (pre, post) ->
  s = pre ++ p ++ post /\
  forall pre' post', s = pre' ++ p ++ post' ->
                     (List.length pre <= List.length pre')%nat.
Proof.
  revert pre post; induction s as [|c s IH]; intros pre post; simpl.
  - destruct (JS.startsWith [] p) eqn:E; [|discriminate].
    intros [= <- <-]. apply startsWith_spec in E as [r E].
    destruct p; [|discriminate]. simpl. split; [reflexivity|]. intros; lia.
  - destruct (JS.startsWith (c :: s) p) eqn:E.
    + intros [= <- <-]. apply startsWith_spec in E as [r E].
      rewrite E at 1. rewrite E, drop_app_length. simpl.
      split; [reflexivity|]. intros; lia.
    + destruct (JS.splitFirst s p) as [[pre0 post0]|] eqn:Es; [|discriminate].
      intros [= <- <-]. destruct (IH _ _ eq_refl) as [-> Hmin].
      split; [reflexivity|].
      intros [|d pre'] post' Heq; simpl in Heq.
      * exfalso. apply not_true_iff_false in E. apply E.
        apply startsWith_spec. exists post'. exact Heq.
      * injection Heq as _ Heq. simpl. apply Hmin in Heq. lia.
Qed.

Lemma splitFirst_None (s p : jsstring) :
  JS.splitFirst s p = None <-> JS.includes s p = false.
Proof.
  induction s as [|c s IH]; simpl.
  - destruct (JS.startsWith [] p); simpl; split; congruence.
  - destruct (JS.startsWith (c :: s) p); simpl; [split; congruence|].
    rewrite <- IH. destruct (JS.splitFirst s p) as [[? ?]|];
      split; congruence.
Qed.

(** A replacement text without dollar sign stands for itself. *)
Lemma getSubstitution_plain (matched preceding following templ : jsstring) :
  ~ In 36%N templ ->
  JS.getSubstitution matched preceding following templ = templ.
Proof.
  induction templ as [|c t IH]; intros Hn; [reflexivity|].
  assert (Hc : c <> 36%N) by (intros ->; apply Hn; left; reflexivity).
  assert (Ht : ~ In 36%N t) by (intros Hin; apply Hn; right; exact Hin).
  specialize (IH Ht).
  change (JS.getSubstitution matched preceding following (c :: t))
    with (match c with
          | 36%N =>
              match t with
              | 36%N :: rest =>
                  36%N :: JS.getSubstitution matched preceding following rest
              | 38%N :: rest =>
                  matched ++ JS.getSubstitution matched preceding following rest
              | 96%N :: rest =>
                  preceding
                    ++ JS.getSubstitution matched preceding following rest
              | 39%N :: rest =>
                  following
                    ++ JS.getSubstitution matched preceding following rest
              | _ => c :: JS.getSubstitution matched preceding following t
              end
          | _ => c :: JS.getSubstitution matched preceding following t
          end).
  destruct c as [|q]; [rewrite IH; reflexivity|].
  do 6 (destruct q as [q|q|]; try (rewrite IH; reflexivity)).
  congruence.
Qed.

Lemma replace_plain (s old new : jsstring) :
  ~ In 36%N new -> JS.replace s old new = Spec.replaceFirst s old new.
Proof.
  intros Hn. unfold JS.replace, Spec.replaceFirst.
  destruct (JS.splitFirst s old) as [[pre post]|]; [|reflexivity].
  rewrite getSubstitution_plain by exact Hn. reflexivity.
Qed.

(** The loop over the edits: it stops at the first probe that is not in
    the buffer, with an error that quotes the first 50 code units of the
    probe; otherwise every edit is counted. *)
Lemma applyEdits_inl (relativePath : jsstring) (edits : list FileEdit) :
  forall content n failed,
    applyEdits relativePath edits content n = inl failed ->
    fr_success failed = false /\
    exists edit,
      In edit edits /\
      fr_error failed
      = Some (str "Could not find content to replace: " ++ JS.dquote
                ++ take 50 (oldContent edit) ++ str "..." ++ JS.dquote).
Proof.
  induction edits as [|edit rest IH]; intros content n failed; simpl;
    [discriminate|].
  destruct (JS.includes content (oldContent edit)); simpl.
  - intros Hrest. destruct (IH _ _ _ Hrest) as (Hs & e & He & Herr).
    split; [exact Hs|]. exists e. split; [right; exact He | exact Herr].
  - intros [= <-]. split; [reflexivity|]. exists edit.
    split; [left; reflexivity|]. simpl.
    rewrite <- (substring_prefix (oldContent edit) 50). reflexivity.
Qed.

Lemma applyEdits_inr (relativePath : jsstring) (edits : list FileEdit) :
  forall content n final applied,
    applyEdits relativePath edits content n = inr (final, applied) ->
    applied = n + Z.of_nat (List.length edits) /\
    final = fold_left
              (fun buffer edit =>
                 JS.replace buffer (oldContent edit) (newContent edit))
              edits content.
Proof.
  induction edits as [|edit rest IH]; intros content n final applied; simpl.
  - intros [= <- <-]. split; [lia | reflexivity].
  - destruct (JS.includes content (oldContent edit)); simpl; [|discriminate].
    intros Hrest. destruct (IH _ _ _ _ Hrest) as (-> & ->).
    split; [lia | reflexivity].
Qed.

(** [editFile] either fails and leaves the file system as it was, or
    succeeds, has applied every edit, and has written the final buffer,
    which the file holds as it comes back from UTF-8. *)
Lemma editFile_outcome (workspacePath relativePath : jsstring)
    (edits : list FileEdit) (fs : gmap jsstring Node) :
  let result := fst (editFile join workspacePath relativePath edits fs) in
  let fs' := snd (editFile join workspacePath relativePath edits fs) in
  (fr_success result = false /\ fs' = fs) \/
  (fr_success result = true /\
   fr_editsApplied result = Some (Z.of_nat (List.length edits)) /\
   exists content0,
     fs !! getFullPath join workspacePath relativePath = Some (File content0) /\
     fs' = <[getFullPath join workspacePath relativePath :=
               File (JS.toWellFormed
                       (fold_left
                          (fun buffer edit =>
                             JS.replace buffer (oldContent edit)
                               (newContent edit))
                          edits content0))]> fs).
Proof.
  cbv zeta. unfold editFile.
  destruct (isPathInWorkspace join workspacePath relativePath); simpl;
    [|left; auto].
  set (fullPath := getFullPath join workspacePath relativePath).
  unfold existsSync, fsReadFile, fsWriteFile.
  destruct (fs !! fullPath) as [[content0|]|] eqn:Efs; simpl;
    [| left; auto | left; auto].
  destruct (applyEdits relativePath edits content0 0)
    as [failed | [final applied]] eqn:Ea.
  - left. simpl. split; [|reflexivity]. apply (applyEdits_inl _ _ _ _ _ Ea).
  - right. simpl. apply applyEdits_inr in Ea as (-> & ->).
    split; [reflexivity|]. split; [f_equal; lia|].
    exists content0. split; reflexivity.
Qed.

(** When no new content holds a dollar sign, a successful [editFile] has
    replaced, edit by edit, the first occurrence of the probe by the new
    content as it stands, and the file holds the outcome as it comes back
    from UTF-8. *)
Lemma editFile_plain (workspacePath relativePath : jsstring)
    (edits : list FileEdit) (fs : gmap jsstring Node) :
  Forall (fun edit => ~ In 36%N (newContent edit)) edits ->
  fr_success (fst (editFile join workspacePath relativePath edits fs)) = true ->
  exists content0,
    fs !! getFullPath join workspacePath relativePath = Some (File content0) /\
    snd (editFile join workspacePath relativePath edits fs)
    = <[getFullPath join workspacePath relativePath :=
          File (JS.toWellFormed
                  (fold_left
                     (fun buffer edit =>
                        Spec.replaceFirst buffer (oldContent edit)
                          (newContent edit))
                     edits content0))]> fs.
Proof.
  intros Hplain Hok.
  destruct (editFile_outcome workspacePath relativePath edits fs)
    as [[Hfail _] | (_ & _ & content0 & Hfile & Hfs)];
    [congruence|].
  exists content0. split; [exact Hfile|]. rewrite Hfs. do 3 f_equal.
  clear Hfs Hfile Hok. revert content0.
  induction Hplain as [|edit rest Hedit _ IH]; intros content0;
    [reflexivity|].
  cbn [fold_left]. rewrite replace_plain by exact Hedit. apply IH.
Qed.

End EditFileFacts.

(** C7 at its failing input.  The file holds [abc] and the single edit
    replaces [b] by the text [$&$&].  [editFile] succeeds with
    [editsApplied = 1], but the buffer written back is [abbc]: the text
    [$&] was expanded to the matched probe, where replacing the first
    occurrence of the probe by the new content gives [a$&$&c]. *)
Theorem editFile_expands_dollar_patterns
    (join : list jsstring -> jsstring) (workspacePath relativePath : jsstring) :
  SandboxFs.isPathInWorkspace join workspacePath relativePath = true ->
  let fullPath := SandboxFs.getFullPath join workspacePath relativePath in
  let edits := [mkFileEdit (str "b") (str "$&$&")] in
  SandboxFs.editFile join workspacePath relativePath edits
    {[fullPath := SandboxFs.File (str "abc")]}
  = (Sandbox.mkFileResult true relativePath None (Some 4) None (Some 1),
     {[fullPath := SandboxFs.File (str "abbc")]}) /\
  Spec.replaceFirst (str "abc") (str "b") (str "$&$&") = str "a$&$&c".
Proof.
  intros Hin. cbv zeta. split; [|reflexivity].
  unfold SandboxFs.editFile, SandboxFs.existsSync, SandboxFs.fsReadFile,
    SandboxFs.fsWriteFile.
  rewrite Hin. cbn [negb]. rewrite lookup_singleton_eq. cbn [negb].
  change (SandboxFs.applyEdits relativePath
            [mkFileEdit (str "b") (str "$&$&")] (str "abc") 0)
    with (inr (str "abbc", 1) : Sandbox.FileResult + (jsstring * Z)).
  cbv iota beta. rewrite insert_singleton_eq. reflexivity.
Qed.

Lemma editFile_expands_dollar_patterns_witness :
  fst (SandboxFs.editFile Scenario.slashJoin (str "/ws") (str "notes.txt")
         [mkFileEdit (str "b") (str "$&$&")]
         {[str "/ws/notes.txt" := SandboxFs.File (str "abc")]})
  = Sandbox.mkFileResult true (str "notes.txt") None (Some 4) None (Some 1) /\
  snd (SandboxFs.editFile Scenario.slashJoin (str "/ws") (str "notes.txt")
         [mkFileEdit (str "b") (str "$&$&")]
         {[str "/ws/notes.txt" := SandboxFs.File (str "abc")]})
  = {[str "/ws/notes.txt" := SandboxFs.File (str "abbc")]}.
Proof.
  pose proof (editFile_expands_dollar_patterns Scenario.slashJoin
                (str "/ws") (str "notes.txt") eq_refl) as [Hedit _].
  cbv zeta in Hedit.
  change (SandboxFs.getFullPath Scenario.slashJoin (str "/ws")
            (str "notes.txt")) with (str "/ws/notes.txt") in Hedit.
  rewrite Hedit. split; reflexivity.
Defined.

(* ===================================================================== *)
(** * Protocol validation                                                 *)
(* ===================================================================== *)

Section ValidationFacts.
Import Validation.

Lemma ap_rejected_l {A B} (f : parsed (A -> B)) (x : parsed A) :
  Spec.rejected f -> Spec.rejected (ap f x).
Proof. destruct f, x; simpl; auto. Qed.

Lemma ap_rejected_r {A B} (f : parsed (A -> B)) (x : parsed A) :
  Spec.rejected x -> Spec.rejected (ap f x).
Proof. destruct f, x; simpl; auto. Qed.

Lemma safeParse_rejected {A} (s : schema A) (input : json) :
  Spec.rejected (s [] (Some input)) ->
  success (safeParse s input) = false /\ data (safeParse s input) = None.
Proof.
  unfold safeParse. destruct (s [] (Some input)); simpl; [auto | tauto].
Qed.

(** One failing check is enough for [withChecks] to refuse. *)
Lemma withChecks_rejected {A} (checks : list (list PathSegment -> A -> list ZodIssue))
    (inner : schema A) (path : list PathSegment) (v : option json) (a : A) :
  inner path v = inr a ->
  (exists c, In c checks /\ c path a <> []) ->
  Spec.rejected (withChecks checks inner path v).
Proof.
  intros Hinner (c & Hc & Hne). unfold withChecks. rewrite Hinner.
  destruct (flat_map (fun c => c path a) checks) eqn:E; simpl; [|exact I].
  exfalso. apply Hne.
  assert (Hin : forall i, In i (c path a) ->
                          In i (flat_map (fun c => c path a) checks)).
  { intros i Hi. apply in_flat_map. exists c. auto. }
  rewrite E in Hin. destruct (c path a) as [|i l]; [reflexivity|].
  destruct (Hin i (or_introl eq_refl)).
Qed.

Lemma check_fails {A} (ok : A -> bool) (message : option jsstring)
    (path : list PathSegment) (a : A) :
  ok a = false -> check ok message path a <> [].
Proof. intros E. unfold check. rewrite E. discriminate. Qed.

Lemma includes_char (s : jsstring) (c : N) :
  In c s -> JS.includes s [c] = true.
Proof.
  intros Hin. apply includes_spec. apply in_split in Hin as (l & r & ->).
  exists l, r. reflexivity.
Qed.

Lemma pathSchema_rejected (path : list PathSegment) (p : jsstring) :
  Spec.badPath p -> Spec.rejected (pathSchema path (Some (JStr p))).
Proof.
  intros Hbad. unfold pathSchema.
  eapply withChecks_rejected; [reflexivity|].
  destruct Hbad as [[r ->] | [Hdots | [Hnul | Hlen]]].
  - eexists. split; [right; left; reflexivity|].
    apply check_fails. reflexivity.
  - eexists. split; [right; right; left; reflexivity|].
    apply check_fails. apply includes_spec in Hdots. rewrite Hdots. reflexivity.
  - eexists. split; [right; right; right; left; reflexivity|].
    apply check_fails. rewrite (includes_char _ _ Hnul). reflexivity.
  - eexists. split; [left; reflexivity|].
    apply check_fails. unfold MAX_PATH_LENGTH. apply Z.leb_gt. exact Hlen.
Qed.

Lemma timeoutSchema_rejected (path : list PathSegment) (q : Q) :
  (q < inject_Z 1000 \/ inject_Z 3600000 < q)%Q ->
  Spec.rejected (z_optional timeoutSchema path (Some (JNum q))).
Proof.
  intros Hout. unfold z_optional, timeoutSchema.
  assert (Hrej : Spec.rejected
            (withChecks
               [check isInteger None;
                check (fun q => Qle_bool (inject_Z MIN_TIMEOUT) q) None;
                check (fun q => Qle_bool q (inject_Z MAX_TIMEOUT)) None]
               z_number path (Some (JNum q)))).
  { eapply withChecks_rejected; [reflexivity|].
    destruct Hout as [Hlow | Hhigh].
    - eexists. split; [right; left; reflexivity|].
      apply check_fails. apply not_true_iff_false. intros Hle.
      apply Qle_bool_iff in Hle. apply Qlt_not_le in Hlow. contradiction.
    - eexists. split; [right; right; left; reflexivity|].
      apply check_fails. apply not_true_iff_false. intros Hle.
      apply Qle_bool_iff in Hle. apply Qlt_not_le in Hhigh. contradiction. }
  destruct (withChecks _ z_number path (Some (JNum q))); simpl in *; auto.
Qed.

Lemma content_rejected (path : list PathSegment) (c : jsstring) :
  10 * 1024 * 1024 < JS.length c ->
  Spec.rejected
    (withChecks [maxLength MAX_CONTENT_LENGTH] z_string path (Some (JStr c))).
Proof.
  intros Hlen. eapply withChecks_rejected; [reflexivity|].
  eexists. split; [left; reflexivity|].
  apply check_fails. unfold MAX_CONTENT_LENGTH. apply Z.leb_gt. exact Hlen.
Qed.

Lemma edits_rejected (path : list PathSegment) :
  Spec.rejected
    (withChecks
       [check (fun edits : list FileEdit =>
                 1 <=? Z.of_nat (List.length edits)) None]
       (z_array fileEditSchema) path (Some (JArr []))).
Proof.
  eapply withChecks_rejected; [reflexivity|].
  eexists. split; [left; reflexivity|]. apply check_fails. reflexivity.
Qed.

(** The tag of the object selects the schema. *)
Ltac pick_schema Htag :=
  unfold operationSchema; unfold Spec.hasTag in Htag; rewrite Htag;
  repeat match goal with
         | |- context [JS.eqb (str ?a) (str ?b)] =>
             let v := eval vm_compute in (JS.eqb (str a) (str b)) in
             change (JS.eqb (str a) (str b)) with v
         end;
  cbv iota.

Lemma operationSchema_rejected (input : json) :
  Spec.invalidOperation input ->
  forall path, Spec.rejected (operationSchema path (Some input)).
Proof.
  intros (fields & -> & Hcase) path.
  destruct Hcase as [(p & Htag & Hp & Hbad)
                    | [(c & Htag & Hc & Hlen)
                      | [(Htag & He) | (q & Htag & Hq & Hout)]]].
  - assert (Hpath : Spec.rejected (member fields "path" pathSchema path)).
    { unfold member. unfold Spec.hasMember in Hp. rewrite Hp.
      apply pathSchema_rejected. exact Hbad. }
    destruct Htag as [Htag | [Htag | [Htag | Htag]]]; pick_schema Htag.
    + unfold createFileOperationSchema.
      do 3 apply ap_rejected_l. apply ap_rejected_r. exact Hpath.
    + unfold readFileOperationSchema.
      apply ap_rejected_l. apply ap_rejected_r. exact Hpath.
    + unfold editFileOperationSchema.
      apply ap_rejected_l. apply ap_rejected_r. exact Hpath.
    + unfold deleteFileOperationSchema.
      apply ap_rejected_r. exact Hpath.
  - pick_schema Htag. unfold createFileOperationSchema.
    do 2 apply ap_rejected_l. apply ap_rejected_r.
    unfold member. unfold Spec.hasMember in Hc. rewrite Hc.
    apply content_rejected. exact Hlen.
  - pick_schema Htag. unfold editFileOperationSchema.
    apply ap_rejected_r.
    unfold member. unfold Spec.hasMember in He. rewrite He.
    apply edits_rejected.
  - pick_schema Htag. unfold shellOperationSchema.
    apply ap_rejected_l. apply ap_rejected_r.
    unfold member. unfold Spec.hasMember in Hq. rewrite Hq.
    apply timeoutSchema_rejected. exact Hout.
Qed.

Lemma parseItems_rejected {A} (inner : schema A) (path : list PathSegment)
    (before after : list json) (x : json) :
  (forall p, Spec.rejected (inner p (Some x))) ->
  forall i, Spec.rejected (parseItems inner path (before ++ x :: after) i).
Proof.
  intros Hx. induction before as [|b before IH]; intros i;
    cbn [app parseItems].
  - apply ap_rejected_l, ap_rejected_r, Hx.
  - apply ap_rejected_r, IH.
Qed.

Lemma literal_rejected (text : jsstring) (path : list PathSegment)
    (v : option json) :
  v <> Some (JStr text) -> Spec.rejected (z_literal text path v).
Proof.
  intros Hne. unfold z_literal.
  destruct v as [[| | |s| |]|]; simpl; auto.
  destruct (JS.eqb s text) eqn:E; simpl; auto.
  apply js_eqb_eq in E. subst. congruence.
Qed.

End ValidationFacts.

(** C8.  [validateOperation] returns an error, and no parsed value, for
    every operation object whose path starts with [/], contains [..],
    contains a NUL or is longer than 255 code units, for every
    [createFile] whose content is longer than 10 * 1024 * 1024 code
    units, for every [editFile] with an empty list of edits and for every
    [shell] with a timeout below 1000 or above 3600000;
    [validateOperationsMessage] returns an error for every envelope with
    such an operation among its operations, and for every envelope whose
    [protocolVersion] is not the string [1.0]. *)
Theorem invalid_input_rejected :
  (forall input,
     Spec.invalidOperation input ->
     Validation.success (Validation.validateOperation input) = false /\
     Validation.data (Validation.validateOperation input) = None /\
     forall fields before after,
       Validation.getField fields (str "operations")
       = Some (Validation.JArr (before ++ input :: after)) ->
       Validation.success
         (Validation.validateOperationsMessage (Validation.JObj fields))
       = false /\
       Validation.data
         (Validation.validateOperationsMessage (Validation.JObj fields))
       = None) /\
  (forall fields,
     Validation.getField fields (str "protocolVersion")
     <> Some (Validation.JStr (str "1.0")) ->
     Validation.success
       (Validation.validateOperationsMessage (Validation.JObj fields))
     = false /\
     Validation.data
       (Validation.validateOperationsMessage (Validation.JObj fields))
     = None).
Proof.
  split.
  - intros input Hbad.
    pose proof (operationSchema_rejected input Hbad) as Hrej.
    destruct (safeParse_rejected Validation.operationSchema input (Hrej []))
      as [Hs Hd].
    split; [exact Hs|]. split; [exact Hd|].
    intros fields before after Hops.
    apply safeParse_rejected. unfold Validation.operationsMessageSchema.
    apply ap_rejected_r. unfold Validation.member. rewrite Hops.
    unfold Validation.z_array. apply parseItems_rejected. exact Hrej.
  - intros fields Hversion.
    apply safeParse_rejected. unfold Validation.operationsMessageSchema.
    apply ap_rejected_l, ap_rejected_r. unfold Validation.member.
    apply literal_rejected. exact Hversion.
Qed.

(** Scenario S2: the operation that creates [../escape.txt] is refused on
    its own and inside an envelope, and so is an envelope of version
    [2.0]. *)
Lemma invalid_input_rejected_witness :
  let escape :=
    Validation.JObj
      [(str "type", Validation.JStr (str "createFile"));
       (str "path", Validation.JStr (str "../escape.txt"));
       (str "content", Validation.JStr (str "x"))] in
  Validation.success (Validation.validateOperation escape) = false /\
  Validation.success
    (Validation.validateOperationsMessage
       (Validation.JObj
          [(str "protocolVersion", Validation.JStr (str "1.0"));
           (str "operations", Validation.JArr [escape])])) = false /\
  Validation.success
    (Validation.validateOperationsMessage
       (Validation.JObj
          [(str "protocolVersion", Validation.JStr (str "2.0"));
           (str "operations", Validation.JArr [])])) = false.
Proof.
  cbv zeta.
  assert (Hbad : Spec.invalidOperation
            (Validation.JObj
               [(str "type", Validation.JStr (str "createFile"));
                (str "path", Validation.JStr (str "../escape.txt"));
                (str "content", Validation.JStr (str "x"))])).
  { eexists. split; [reflexivity|]. left. exists (str "../escape.txt").
    split; [left; reflexivity|]. split; [reflexivity|].
    right; left. exists [], (str "/escape.txt"). reflexivity. }
  destruct (proj1 invalid_input_rejected _ Hbad) as (Hop & _ & Henvelope).
  split; [exact Hop|]. split.
  - apply (Henvelope _ [] []). reflexivity.
  - apply (proj2 invalid_input_rejected). discriminate.
Defined.

Section ContentSize.
Import Validation.

Lemma byteLength_repeat (c : N) (n : nat) :
  N.ltb c 2048 = false -> JS.isHighSurrogate c = false ->
  JS.byteLength (repeat c n) = 3 * Z.of_nat n.
Proof.
  intros Hwide Hhigh.
  assert (Hnarrow : N.ltb c 128 = false)
    by (apply N.ltb_ge; apply N.ltb_ge in Hwide; lia).
  induction n as [|n IH]; [reflexivity|].
  cbn [repeat JS.byteLength]. rewrite Hnarrow, Hwide, Hhigh, IH. lia.
Qed.

(** A [createFile] whose content has at most 10 * 1024 * 1024 code units
    is accepted, whatever the size of its encoding. *)
Lemma createFile_accepted (content : jsstring) :
  JS.length content <= MAX_CONTENT_LENGTH ->
  validateOperation
    (JObj [(str "type", JStr (str "createFile"));
           (str "path", JStr (str "big.txt"));
           (str "content", JStr content)])
  = mkValidation true
      (Some (CreateFileOperation None (str "big.txt") content (Some Utf8)
               (Some false)))
      None.
Proof.
  intros Hlen. apply Z.leb_le in Hlen.
  unfold validateOperation, safeParse.
  cbv -[JS.length Z.leb MAX_CONTENT_LENGTH].
  rewrite Hlen. reflexivity.
Qed.

End ContentSize.

(** C8 as it is worded fails for content measured in bytes.  The text of
    3495254 euro signs (U+20AC, three bytes each in UTF-8) is 10485762
    bytes long, two more than 10 MiB, and [validateOperation] accepts the
    [createFile] that carries it: [z.string().max] counts the 3495254
    code units. *)
Lemma content_over_10MiB_accepted_counterexample :
  let content := repeat 8364%N (N.to_nat 3495254) in
  let input :=
    Validation.JObj
      [(str "type", Validation.JStr (str "createFile"));
       (str "path", Validation.JStr (str "big.txt"));
       (str "content", Validation.JStr content)] in
  JS.byteLength content = 10 * 1024 * 1024 + 2 /\
  JS.length content = 3495254 /\
  Validation.success (Validation.validateOperation input) = true /\
  Validation.data (Validation.validateOperation input)
  = Some (CreateFileOperation None (str "big.txt") content
            (Some Utf8) (Some false)).
Proof.
  cbv zeta.
  pose proof (N_nat_Z 3495254) as Hsize.
  change (Z.of_N 3495254) with 3495254 in Hsize.
  revert Hsize. generalize (N.to_nat 3495254). intros n Hsize.
  assert (Hunits : JS.length (repeat 8364%N n) = 3495254)
    by (unfold JS.length; rewrite repeat_length; exact Hsize).
  split; [rewrite byteLength_repeat by reflexivity; lia|].
  split; [exact Hunits|].
  rewrite createFile_accepted
    by (rewrite Hunits; unfold Validation.MAX_CONTENT_LENGTH; lia).
  split; reflexivity.
Qed.

(* ===================================================================== *)
(** * Path patterns                                                       *)
(* ===================================================================== *)

Section PatternFacts.

Lemma escaped_is_syntax (c : N) :
  FilesystemRules.isEscapedChar c = true -> JS.isSyntaxChar c = true.
Proof.
  unfold FilesystemRules.isEscapedChar. rewrite existsb_exists.
  intros (k & Hk & E). apply N.eqb_eq in E. subst k.
  simpl in Hk.
  repeat (destruct Hk as [<- | Hk]; [reflexivity|]). destruct Hk.
Qed.

Lemma escaped_not_star (c : N) :
  FilesystemRules.isEscapedChar c = true -> N.eqb c 42 = false.
Proof.
  intros He. destruct (N.eqb_spec c 42) as [->|]; [discriminate He | reflexivity].
Qed.

(** The source text, pattern unit by pattern unit. *)
Lemma regexSource_pieces (pattern : jsstring) :
  FilesystemRules.regexSource pattern
  = 94%N :: flat_map Spec.piece pattern ++ [36%N].
Proof.
  unfold FilesystemRules.regexSource, JS.replaceAllChar, JS.escapeAll.
  change (str "^") with [94%N]. change (str "$") with [36%N].
  change (str ".*") with [46%N; 42%N].
  cbn [app]. f_equal. f_equal.
  induction pattern as [|c p IH]; [reflexivity|].
  cbn [flat_map]. rewrite flat_map_app, IH. f_equal.
  unfold Spec.piece.
  destruct (FilesystemRules.isEscapedChar c) eqn:He.
  - cbn [flat_map app]. rewrite (escaped_not_star c He).
    change (N.eqb 92 42) with false. reflexivity.
  - cbn [flat_map app]. destruct (N.eqb c 42); reflexivity.
Qed.

Lemma parse_escaped (st : JS.pstate) (acc : list JS.term) (c : N)
    (rest : jsstring) :
  st <> JS.PEscape ->
  FilesystemRules.isEscapedChar c = true ->
  JS.parse st acc (92%N :: c :: rest)
  = JS.parse JS.PAtom (JS.TAtom (JS.AChar c) JS.QOne :: acc) rest.
Proof.
  intros Hst He. apply escaped_is_syntax in He.
  destruct st; try congruence; cbn [JS.parse];
    change (N.eqb 92 92) with true; cbv iota; rewrite He; reflexivity.
Qed.

Lemma parse_star (st : JS.pstate) (acc : list JS.term) (rest : jsstring) :
  st <> JS.PEscape ->
  JS.parse st acc (46%N :: 42%N :: rest)
  = JS.parse JS.PQuant (JS.TAtom JS.ADot JS.QStar :: acc) rest.
Proof. intros Hst. destruct st; try congruence; reflexivity. Qed.

(** A code unit that is neither escaped, nor a star, nor a question mark
    is no syntax character. *)
Lemma plain_char (c : N) :
  FilesystemRules.isEscapedChar c = false ->
  N.eqb c 42 = false -> N.eqb c 63 = false ->
  N.eqb c 92 = false /\ N.eqb c 94 = false /\ N.eqb c 36 = false /\
  N.eqb c 46 = false /\ N.eqb c 43 = false /\ JS.isSyntaxChar c = false.
Proof.
  intros He Hs Hq. unfold FilesystemRules.isEscapedChar in He.
  cbn [existsb] in He.
  repeat (apply orb_false_elim in He as [?E He]).
  unfold JS.isSyntaxChar. cbn [existsb].
  repeat match goal with
         | H : N.eqb c _ = false |- _ => rewrite H; clear H
         end.
  auto 10.
Qed.

Lemma parse_plain (st : JS.pstate) (acc : list JS.term) (c : N)
    (rest : jsstring) :
  st <> JS.PEscape ->
  FilesystemRules.isEscapedChar c = false ->
  N.eqb c 42 = false -> N.eqb c 63 = false ->
  JS.parse st acc (c :: rest)
  = JS.parse JS.PAtom (JS.TAtom (JS.AChar c) JS.QOne :: acc) rest.
Proof.
  intros Hst He Hs Hq.
  destruct (plain_char c He Hs Hq) as (H1 & H2 & H3 & H4 & H5 & H6).
  destruct st; try congruence; cbn [JS.parse];
    rewrite H1, H2, H3, H4, Hs, H5, Hq, H6; reflexivity.
Qed.

(** The source built from a pattern never leaves the modelled fragment:
    [new RegExp] accepts it or throws a [SyntaxError]. *)
Lemma parse_pieces_in_fragment (pattern tail : jsstring) :
  (forall st acc, st <> JS.PEscape ->
                  JS.parse st acc tail <> JS.OutsideFragment) ->
  forall st acc, st <> JS.PEscape ->
    JS.parse st acc (flat_map Spec.piece pattern ++ tail)
    <> JS.OutsideFragment.
Proof.
  intros Htail. induction pattern as [|c p IH]; intros st acc Hst.
  - apply Htail. exact Hst.
  - cbn [flat_map]. rewrite <- app_assoc. unfold Spec.piece at 1.
    destruct (FilesystemRules.isEscapedChar c) eqn:He.
    + cbn [app]. rewrite parse_escaped by assumption. apply IH. discriminate.
    + destruct (N.eqb c 42) eqn:Hs.
      * cbn [app]. rewrite parse_star by assumption. apply IH. discriminate.
      * cbn [app]. destruct (N.eqb c 63) eqn:Hq.
        -- apply N.eqb_eq in Hq. subst c.
           destruct st; try congruence; cbn [JS.parse];
             change (N.eqb 63 92) with false; change (N.eqb 63 94) with false;
             change (N.eqb 63 36) with false; change (N.eqb 63 46) with false;
             change (N.eqb 63 42) with false; change (N.eqb 63 43) with false;
             change (N.eqb 63 63) with true; cbv iota;
             try discriminate; apply IH; discriminate.
        -- rewrite parse_plain by assumption. apply IH. discriminate.
Qed.

Lemma regexSource_in_fragment (pattern : jsstring) :
  JS.RegExp (FilesystemRules.regexSource pattern) <> JS.OutsideFragment.
Proof.
  rewrite regexSource_pieces. unfold JS.RegExp.
  change (JS.parse JS.PStart [] (94%N :: flat_map Spec.piece pattern ++ [36%N]))
    with (JS.parse JS.PStart [JS.TBegin]
            (flat_map Spec.piece pattern ++ [36%N])).
  apply parse_pieces_in_fragment; [|discriminate].
  intros st acc Hst. destruct st; try congruence; discriminate.
Qed.

(** Without question mark, the source is read back term by term. *)
Lemma parse_pieces_terms (pattern tail : jsstring) :
  ~ In 63%N pattern ->
  forall st acc, st <> JS.PEscape ->
    exists st', st' <> JS.PEscape /\
      JS.parse st acc (flat_map Spec.piece pattern ++ tail)
      = JS.parse st' (rev (List.map Spec.termOf pattern) ++ acc) tail.
Proof.
  induction pattern as [|c p IH]; intros Hq st acc Hst.
  - exists st. split; [exact Hst | reflexivity].
  - assert (Hc : N.eqb c 63 = false).
    { apply N.eqb_neq. intros ->. apply Hq. left. reflexivity. }
    assert (Hp : ~ In 63%N p) by (intros Hin; apply Hq; right; exact Hin).
    cbn [flat_map List.map rev]. rewrite <- !app_assoc.
    unfold Spec.piece at 1, Spec.termOf at 2.
    destruct (FilesystemRules.isEscapedChar c) eqn:He.
    + rewrite (escaped_not_star c He).
      cbn [app]. rewrite parse_escaped by assumption.
      apply (IH Hp). discriminate.
    + destruct (N.eqb c 42) eqn:Hs.
      * cbn [app]. rewrite parse_star by assumption.
        apply (IH Hp). discriminate.
      * cbn [app]. rewrite parse_plain by assumption.
        apply (IH Hp). discriminate.
Qed.

Lemma RegExp_of_glob (pattern : jsstring) :
  ~ In 63%N pattern ->
  JS.RegExp (FilesystemRules.regexSource pattern)
  = JS.Compiled (JS.TBegin :: List.map Spec.termOf pattern ++ [JS.TEnd]).
Proof.
  intros Hq. rewrite regexSource_pieces. unfold JS.RegExp.
  change (JS.parse JS.PStart [] (94%N :: flat_map Spec.piece pattern ++ [36%N]))
    with (JS.parse JS.PStart [JS.TBegin]
            (flat_map Spec.piece pattern ++ [36%N])).
  destruct (parse_pieces_terms pattern [36%N] Hq JS.PStart [JS.TBegin])
    as (st' & Hst' & ->); [discriminate|].
  assert (E : JS.parse st' (rev (List.map Spec.termOf pattern) ++ [JS.TBegin])
                [36%N]
              = JS.Compiled
                  (rev (JS.TEnd :: rev (List.map Spec.termOf pattern)
                          ++ [JS.TBegin])))
    by (destruct st'; try congruence; reflexivity).
  rewrite E. f_equal. cbn [rev]. rewrite rev_app_distr, rev_involutive.
  reflexivity.
Qed.

Lemma matchTerms_star (a : JS.atom) (ts : list JS.term) (b : bool)
    (s : jsstring) :
  JS.matchTerms (JS.TAtom a JS.QStar :: ts) b s
  = JS.matchTerms ts b s ||
    match s with
    | c :: s' =>
        JS.atomMatches a c && JS.matchTerms (JS.TAtom a JS.QStar :: ts) false s'
    | [] => false
    end.
Proof. destruct s; reflexivity. Qed.

Lemma globMatch_star (pattern path : jsstring) :
  Spec.globMatch (42%N :: pattern) path
  = Spec.globMatch pattern path ||
    match path with
    | [] => false
    | _ :: s' => Spec.globMatch (42%N :: pattern) s'
    end.
Proof. destruct path; reflexivity. Qed.

(** On a path without line terminators the terms of a pattern match as
    the glob does. *)
Lemma matchTerms_glob (pattern : jsstring) :
  forall (b : bool) (path : jsstring),
    Spec.noLineTerminator path = true ->
    JS.matchTerms (List.map Spec.termOf pattern ++ [JS.TEnd]) b path
    = Spec.globMatch pattern path.
Proof.
  induction pattern as [|c p IH]; intros b path Hnl.
  - destruct path; reflexivity.
  - cbn [List.map app]. unfold Spec.termOf at 1.
    destruct (N.eqb c 42) eqn:Hs.
    + apply N.eqb_eq in Hs. subst c. revert b.
      induction path as [|d s IHs]; intros b.
      * rewrite matchTerms_star, globMatch_star, IH by exact Hnl. reflexivity.
      * rewrite matchTerms_star, globMatch_star, IH by exact Hnl.
        cbn [Spec.noLineTerminator forallb] in Hnl.
        apply andb_true_iff in Hnl as [Hd Hs].
        rewrite (IHs Hs false). cbn [JS.atomMatches]. rewrite Hd. reflexivity.
    + destruct path as [|d s].
      * cbn [JS.matchTerms Spec.globMatch]. rewrite Hs. reflexivity.
      * cbn [Spec.noLineTerminator forallb] in Hnl.
        apply andb_true_iff in Hnl as [_ Hnl].
        cbn [JS.matchTerms Spec.globMatch JS.atomMatches].
        rewrite Hs, (IH false s Hnl), (N.eqb_sym d c). reflexivity.
Qed.

Lemma testFrom_not_at_start (ts : list JS.term) (s : jsstring) :
  JS.testFrom (JS.TBegin :: ts) false s = false.
Proof. induction s as [|c s IH]; cbn; [reflexivity | exact IH]. Qed.

(** Where the code and the specification agree: a pattern without
    question mark, on a path without line terminators. *)
Lemma matchesPattern_glob (path pattern : jsstring) :
  ~ In 63%N pattern ->
  Spec.noLineTerminator path = true ->
  FilesystemRules.matchesPattern path pattern
  = Return (Spec.globMatch pattern path).
Proof.
  intros Hq Hnl. unfold FilesystemRules.matchesPattern.
  rewrite (RegExp_of_glob pattern Hq). f_equal.
  unfold JS.test.
  destruct path as [|d s].
  - cbn [JS.testFrom]. rewrite orb_false_r. cbn [JS.matchTerms andb].
    apply matchTerms_glob. reflexivity.
  - cbn [JS.testFrom]. rewrite testFrom_not_at_start, orb_false_r.
    cbn [JS.matchTerms andb]. apply matchTerms_glob. exact Hnl.
Qed.

End PatternFacts.

(** C5 at its failing inputs.  The escaping pass leaves the question mark
    as it is, so in the compiled expression it is a quantifier: the
    pattern [a?] matches the path [a] and does not match the path [a?],
    where matching every code unit but [*] literally gives the opposite
    answers; a pattern that starts with a question mark makes [new
    RegExp] throw; and [*] does not match a run that contains a line
    feed, as the dot stops at line terminators. *)
Theorem matchesPattern_question_mark :
  FilesystemRules.matchesPattern (str "a") (str "a?") = Return true /\
  Spec.globMatch (str "a?") (str "a") = false /\
  FilesystemRules.matchesPattern (str "a?") (str "a?") = Return false /\
  Spec.globMatch (str "a?") (str "a?") = true /\
  FilesystemRules.matchesPattern (str "x") (str "?x")
  = Throw FilesystemRules.invalidRegExp /\
  FilesystemRules.matchesPattern [97; 10; 98]%N (str "*") = Return false /\
  Spec.globMatch (str "*") [97; 10; 98]%N = true.
Proof. repeat split; reflexivity. Qed.

(* ===================================================================== *)
(** * Further properties of the run executor                              *)
(* ===================================================================== *)

Section ExecutorLaws.
Import Sandbox Executor.
Context {S : Type} `{SandboxOps S}.

(** A batch continued by another: the second part starts where the first
    one ends, unless the first one suspends or throws. *)
Lemma executeLoop_app (policyEngine : Policy) (first second : list Operation) :
  forall sandbox : S,
    executeLoop policyEngine (first ++ second) [] sandbox
    = match executeLoop policyEngine first [] sandbox with
      | (Return r1, s1) =>
          match status r1 with
          | Completed =>
              (Spec.withEarlier (events r1)
                 (fst (executeLoop policyEngine second [] s1)),
               snd (executeLoop policyEngine second [] s1))
          | _ => (Return r1, s1)
          end
      | (Throw message, s1) => (Throw message, s1)
      end.
Proof.
  induction first as [|op rest IH]; intros sandbox.
  - cbn [app executeLoop status events].
    destruct (executeLoop policyEngine second [] sandbox) as [[r|m] s'];
      [destruct r|]; reflexivity.
  - cbn [app executeLoop].
    destruct (PolicyEngine.evaluate policyEngine op) as [pe|m];
      [|reflexivity].
    destruct (negb (allowed pe)).
    + rewrite (executeLoop_acc policyEngine (rest ++ second)),
        (executeLoop_acc policyEngine rest), IH.
      destruct (executeLoop policyEngine rest [] sandbox) as [[r1|m] s1];
        [|reflexivity].
      destruct r1 as [ev1 st1 pa1]. cbn [fst snd Spec.withEarlier status events].
      destruct st1; try reflexivity.
      destruct (executeLoop policyEngine second [] s1) as [[r2|m] s2];
        cbn [fst snd Spec.withEarlier events status pendingApproval];
        [|reflexivity].
      rewrite <- app_assoc. reflexivity.
    + destruct (requiresApproval pe); [reflexivity|].
      destruct (executeOperation op sandbox) as [event sandbox'].
      rewrite (executeLoop_acc policyEngine (rest ++ second)),
        (executeLoop_acc policyEngine rest), IH.
      destruct (executeLoop policyEngine rest [] sandbox') as [[r1|m] s1];
        [|reflexivity].
      destruct r1 as [ev1 st1 pa1]. cbn [fst snd Spec.withEarlier status events].
      destruct st1; try reflexivity.
      destruct (executeLoop policyEngine second [] s1) as [[r2|m] s2];
        cbn [fst snd Spec.withEarlier events status pendingApproval];
        [|reflexivity].
      rewrite <- app_assoc. reflexivity.
Qed.

(** Only a shell command can be gated, and only by [approvalRequired]. *)
Lemma filesystem_never_gated (policy : FilesystemPolicy) (path : jsstring)
    (isWrite : bool) (e : PolicyEvaluation) :
  FilesystemRules.evaluateFilesystemPolicy policy path isWrite = Return e ->
  requiresApproval e = false.
Proof.
  unfold FilesystemRules.evaluateFilesystemPolicy.
  destruct (negb (fs_enabled policy)); [intros [= <-]; reflexivity|].
  destruct (isWrite && readOnly policy); [intros [= <-]; reflexivity|].
  destruct (match blockedPaths policy with
            | Some ps => FilesystemRules.matchesAnyPattern path ps
            | None => Return false
            end) as [blocked|m]; cbn [JS.bind]; [|discriminate].
  destruct blocked; [intros [= <-]; reflexivity|].
  destruct (match allowedPaths policy with
            | Some (p :: ps) =>
                JS.bind (FilesystemRules.matchesAnyPattern path (p :: ps))
                  (fun hit => Return (negb hit))
            | _ => Return false
            end) as [notAllowed|m]; cbn [JS.bind]; [|discriminate].
  destruct notAllowed; intros [= <-]; reflexivity.
Qed.

Lemma gated_is_shell (policyEngine : Policy) (op : Operation)
    (e : PolicyEvaluation) :
  PolicyEngine.evaluate policyEngine op = Return e ->
  requiresApproval e = true ->
  exists id command cwd timeout env,
    op = ShellOperation id command cwd timeout env /\
    e = mkEval true true (Some (str "Command requires approval")) None
          (Some (str "shell.approvalRequired")).
Proof.
  destruct op as [id c|id p c en ov|id p en|id p ed|id p|id c cwd t env];
    cbn [PolicyEngine.evaluate].
  - intros [= <-]. discriminate.
  - unfold PolicyEngine.evaluateCreateFile.
    destruct (FilesystemRules.evaluateFilesystemPolicy _ p true)
      as [pe|m] eqn:Ep; cbn [JS.bind]; [|discriminate].
    apply filesystem_never_gated in Ep.
    destruct (negb (allowed pe)); [intros [= <-]; congruence|].
    unfold FilesystemRules.evaluateFileSize.
    destruct (_ <? _); cbn [allowed negb]; intros [= <-]; discriminate.
  - intros Hev Hg. apply filesystem_never_gated in Hev. congruence.
  - intros Hev Hg. apply filesystem_never_gated in Hev. congruence.
  - intros Hev Hg. apply filesystem_never_gated in Hev. congruence.
  - intros [= <-] Hg. exists id, c, cwd, t, env. split; [reflexivity|].
    revert Hg. unfold PolicyEngine.evaluateShell, ShellRules.evaluateShellPolicy.
    destruct (negb (sh_enabled (shell policyEngine))); [discriminate|].
    destruct (match blockedPatterns (shell policyEngine) with
              | Some ps => ShellRules.matchesAnyPattern c ps
              | None => false
              end); [discriminate|].
    destruct (match approvalRequired (shell policyEngine) with
              | Some ps => ShellRules.matchesAnyPattern c ps
              | None => false
              end);
      destruct (allowedCommands (shell policyEngine)) as [[|a l]|];
      cbv zeta; try discriminate; try reflexivity;
      destruct (negb (JS.arrayIncludes (a :: l) (ShellRules.extractBaseCommand c)));
      try discriminate; reflexivity.
Qed.

End ExecutorLaws.

Section ExecutorOutline.
Import Sandbox Executor Notions.

Lemma outline_withEarlier (e : Event) (o : outcome ExecuteRunResult) :
  outline (Spec.withEarlier [e] o)
  = match outline o with
    | inl (st, tys, pa) => inl (st, ev_type e :: tys, pa)
    | inr message => inr message
    end.
Proof. destruct o as [r|m]; reflexivity. Qed.

(** The decisions of a run are the policy's alone: two sandboxes, of
    whatever kind, give the same status, event types and suspension. *)
Lemma executeLoop_outline {S1 S2 : Type} {ops1 : SandboxOps S1}
    {ops2 : SandboxOps S2} (policyEngine : Policy)
    (operations : list Operation) :
  forall (s1 : S1) (s2 : S2),
    outline (fst (executeLoop policyEngine operations [] s1))
    = outline (fst (executeLoop policyEngine operations [] s2)).
Proof.
  induction operations as [|op rest IH]; intros s1 s2; [reflexivity|].
  cbn [executeLoop].
  destruct (PolicyEngine.evaluate policyEngine op) as [pe|m]; [|reflexivity].
  destruct (negb (allowed pe)).
  - rewrite (executeLoop_acc policyEngine rest _ s1),
      (executeLoop_acc policyEngine rest _ s2).
    cbn [fst app]. rewrite !outline_withEarlier, (IH s1 s2). reflexivity.
  - destruct (requiresApproval pe); [reflexivity|].
    pose proof (executeOperation_type op s1) as T1.
    pose proof (executeOperation_type op s2) as T2.
    destruct (executeOperation op s1) as [e1 s1'].
    destruct (executeOperation op s2) as [e2 s2'].
    cbn [fst] in T1, T2.
    rewrite (executeLoop_acc policyEngine rest _ s1'),
      (executeLoop_acc policyEngine rest _ s2').
    cbn [fst app]. rewrite !outline_withEarlier, (IH s1' s2'), T1, T2.
    reflexivity.
Qed.

End ExecutorOutline.

Section ExecutorEcho.
Import Sandbox Executor Notions.
Context {S : Type} `{SandboxOps S}.

Lemma executeOperation_echoes (operation : Operation) (sandbox : S) :
  echoes operation (fst (executeOperation operation sandbox)).
Proof.
  destruct operation; cbn [executeOperation];
    repeat match goal with
           | |- context [let '(_, _) := ?x in _] => destruct x
           end; repeat split.
Qed.

Lemma executeLoop_echoes (policyEngine : Policy) (operations : list Operation) :
  forall (sandbox : S) (r : ExecuteRunResult) (s' : S),
    executeLoop policyEngine operations [] sandbox = (Return r, s') ->
    forall i e, events r !! i = Some e ->
      exists op, operations !! i = Some op /\ echoes op e.
Proof.
  induction operations as [|op rest IH]; intros sandbox r s'.
  - intros [= <- <-] i e Hi. cbn [events] in Hi.
    rewrite lookup_nil in Hi. discriminate.
  - cbn [executeLoop].
    destruct (PolicyEngine.evaluate policyEngine op) as [pe|m];
      [|discriminate].
    destruct (negb (allowed pe)).
    + rewrite executeLoop_acc.
      destruct (executeLoop policyEngine rest [] sandbox) as [[r0|m] s0] eqn:E;
        cbn [fst snd Spec.withEarlier]; [|discriminate].
      intros [= <- <-] [|i] e Hi; cbn [events app lookup list_lookup] in Hi.
      * injection Hi as <-. exists op. repeat split.
      * destruct (IH _ _ _ E i e Hi) as (op' & Hop & He). eauto.
    + destruct (requiresApproval pe).
      * intros [= <- <-] [|i] e Hi; cbn [events app lookup list_lookup] in Hi.
        -- injection Hi as <-. exists op. repeat split.
        -- destruct i; discriminate Hi.
      * pose proof (executeOperation_echoes op sandbox) as He0.
        destruct (executeOperation op sandbox) as [e0 sandbox'].
        rewrite executeLoop_acc.
        destruct (executeLoop policyEngine rest [] sandbox')
          as [[r0|m] s0] eqn:E; cbn [fst snd Spec.withEarlier]; [|discriminate].
        intros [= <- <-] [|i] e Hi; cbn [events app lookup list_lookup] in Hi.
        -- injection Hi as <-. exists op. split; [reflexivity | exact He0].
        -- destruct (IH _ _ _ E i e Hi) as (op' & Hop & He). eauto.
Qed.

(** Where a run is suspended: on an operation that the policy gates, with
    the reason and the details of that decision. *)
Lemma executeLoop_suspended (policyEngine : Policy)
    (operations : list Operation) :
  forall (sandbox : S) (r : ExecuteRunResult) (s' : S),
    executeLoop policyEngine operations [] sandbox = (Return r, s') ->
    status r = AwaitingApproval ->
    exists front op e,
      operations !! List.length front = Some op /\
      PolicyEngine.evaluate policyEngine op = Return e /\
      requiresApproval e = true /\
      events r = front ++
        [ApprovalRequiredEvent (idOrEmpty op) (op_type op)
           (JS.orElse (reason e) (str "Operation requires approval"))
           (approvalDetails e op)] /\
      pendingApproval r
      = Some (mkPending (idOrEmpty op) (op_type op)
                (JS.orElse (reason e) (str "Operation requires approval"))
                (approvalDetails e op)).
Proof.
  induction operations as [|op rest IH]; intros sandbox r s'.
  - intros [= <- <-]. discriminate.
  - cbn [executeLoop].
    destruct (PolicyEngine.evaluate policyEngine op) as [pe|m] eqn:Ev;
      [|discriminate].
    destruct (negb (allowed pe)).
    + rewrite executeLoop_acc.
      destruct (executeLoop policyEngine rest [] sandbox) as [[r0|m] s0] eqn:E;
        cbn [fst snd Spec.withEarlier]; [|discriminate].
      intros [= <- <-] Hs. cbn [status] in Hs.
      destruct (IH _ _ _ E Hs) as (front & op' & e & H1 & H2 & H3 & H4 & H5).
      eexists (_ :: front), op', e. cbn [events pendingApproval].
      rewrite H4. repeat split; assumption.
    + destruct (requiresApproval pe) eqn:Eg.
      * intros [= <- <-] _. exists [], op, pe. repeat split; assumption.
      * destruct (executeOperation op sandbox) as [e0 sandbox'].
        rewrite executeLoop_acc.
        destruct (executeLoop policyEngine rest [] sandbox')
          as [[r0|m] s0] eqn:E; cbn [fst snd Spec.withEarlier]; [|discriminate].
        intros [= <- <-] Hs. cbn [status] in Hs.
        destruct (IH _ _ _ E Hs) as (front & op' & e & H1 & H2 & H3 & H4 & H5).
        eexists (_ :: front), op', e. cbn [events pendingApproval].
        rewrite H4. repeat split; assumption.
Qed.

(** A batch without shell commands runs to its end. *)
Lemma executeLoop_no_shell (policyEngine : Policy)
    (operations : list Operation) (sandbox : S) (r : ExecuteRunResult)
    (s' : S) :
  executeLoop policyEngine operations [] sandbox = (Return r, s') ->
  forallb (fun op => negb (isShell op)) operations = true ->
  status r = Completed.
Proof.
  intros Hrun Hns.
  destruct (executeLoop_inv _ _ _ _ _ Hrun) as (_ & _ & _ & _ & [Hc|Ha] & _);
    [exact Hc|].
  exfalso.
  destruct (executeLoop_suspended _ _ _ _ _ Hrun Ha)
    as (front & op & e & Hop & Hev & Hg & _).
  destruct (gated_is_shell _ _ _ Hev Hg) as (id & c & cwd & t & env & -> & _).
  rewrite forallb_forall in Hns.
  specialize (Hns _ (proj1 (list_elem_of_In _ _)
                       (list_elem_of_lookup_2 _ _ _ Hop))).
  discriminate.
Qed.



End ExecutorEcho.

(** X1.  Running a batch made of two parts.  When the first part alone
    completes, the whole batch gives the events of the first part followed
    by what the second part gives on the sandbox the first part left, with
    the status and suspension of the second part.  When the first part
    alone is suspended, or the policy engine throws in it, the second part
    is never looked at: the whole batch gives what the first part gives. *)
Theorem executeRun_of_two_parts {S : Type} `{Sandbox.SandboxOps S}
    (first second : list Operation) (sandbox : S) (policyEngine : Policy) :
  (forall r1 s1,
     Executor.executeRun first sandbox policyEngine = (Return r1, s1) ->
     Executor.status r1 = Completed ->
     Executor.executeRun (first ++ second) sandbox policyEngine
     = (Spec.withEarlier (Executor.events r1)
          (fst (Executor.executeRun second s1 policyEngine)),
        snd (Executor.executeRun second s1 policyEngine))) /\
  (forall r1 s1,
     Executor.executeRun first sandbox policyEngine = (Return r1, s1) ->
     Executor.status r1 = AwaitingApproval ->
     Executor.executeRun (first ++ second) sandbox policyEngine
     = (Return r1, s1)) /\
  (forall message s1,
     Executor.executeRun first sandbox policyEngine = (Throw message, s1) ->
     Executor.executeRun (first ++ second) sandbox policyEngine
     = (Throw message, s1)).
Proof.
  unfold Executor.executeRun. repeat apply conj.
  - intros r1 s1 Hrun Hs. rewrite executeLoop_app, Hrun, Hs. reflexivity.
  - intros r1 s1 Hrun Hs. rewrite executeLoop_app, Hrun, Hs. reflexivity.
  - intros m s1 Hrun. rewrite executeLoop_app, Hrun. reflexivity.
Qed.

(** A file creation followed by the gated command and one more file: the
    first part completes, so the batch is the creation event followed by
    the suspension of the second part; with the gated command in the first
    part the last file is not looked at. *)
Lemma executeRun_of_two_parts_witness :
  fst (Executor.executeRun
         ([CreateFileOperation None (str "ok.txt") (str "ok") None None] ++
          [Scenario.gatedShell (Some (str "op1")); Scenario.tailFile])
         ([] : list Spec.Call) standardPolicy)
  = Return
      (Executor.mkResult
         [CreateFileEvent None (str "ok.txt") false None None;
          Scenario.gatedEvent (str "op1")]
         AwaitingApproval
         (Some (Executor.mkPending (str "op1") TyShell
                  (str "Command requires approval")
                  (mkDetails (Some (str "shell.approvalRequired"))
                     (Some Scenario.gatedCommand) None)))) /\
  Executor.executeRun
    ([Scenario.gatedShell (Some (str "op1"))] ++ [Scenario.tailFile])
    ([] : list Spec.Call) standardPolicy
  = Executor.executeRun [Scenario.gatedShell (Some (str "op1"))]
      ([] : list Spec.Call) standardPolicy.
Proof.
  split.
  - rewrite (proj1 (executeRun_of_two_parts
                      [CreateFileOperation None (str "ok.txt") (str "ok")
                         None None]
                      [Scenario.gatedShell (Some (str "op1"));
                       Scenario.tailFile]
                      ([] : list Spec.Call) standardPolicy)
               (Executor.mkResult
                  [CreateFileEvent None (str "ok.txt") false None None]
                  Completed None)
               [Spec.CallCreateFile (str "ok.txt") (str "ok")]).
    + reflexivity.
    + vm_compute. reflexivity.
    + reflexivity.
  - rewrite (proj1 (proj2 (executeRun_of_two_parts
                      [Scenario.gatedShell (Some (str "op1"))]
                      [Scenario.tailFile]
                      ([] : list Spec.Call) standardPolicy))
               (Executor.mkResult [Scenario.gatedEvent (str "op1")]
                  AwaitingApproval
                  (Some (Executor.mkPending (str "op1") TyShell
                           (str "Command requires approval")
                           (mkDetails (Some (str "shell.approvalRequired"))
                              (Some Scenario.gatedCommand) None))))
               []).
    + reflexivity.
    + reflexivity.
    + reflexivity.
Defined.

(** X2.  Every event of a returned run repeats what identifies the
    operation at its position: an event of the operation's own type
    carries the operation's id and its path or command; a [policyDenied]
    event carries the operation's id and type; an [approvalRequired] event
    carries the operation's type and its id, or the empty string when the
    operation has none.  [executeRun] never pushes an [error] event. *)
Theorem executeRun_events_echo {S : Type} `{Sandbox.SandboxOps S}
    (operations : list Operation) (sandbox : S) (policyEngine : Policy)
    (r : Executor.ExecuteRunResult) (s' : S) :
  Executor.executeRun operations sandbox policyEngine = (Return r, s') ->
  forall i e, Executor.events r !! i = Some e ->
    ev_type e <> EvError /\
    exists op, operations !! i = Some op /\ Notions.echoes op e.
Proof.
  unfold Executor.executeRun. intros Hrun i e Hi.
  destruct (executeLoop_echoes _ _ _ _ _ Hrun i e Hi) as (op & Hop & He).
  split; [|eauto].
  intros Herr. unfold Notions.echoes in He. rewrite Herr in He. exact He.
Qed.

(** Scenario S3: the second event is the denial of the shell command and
    repeats its id. *)
Lemma executeRun_events_echo_witness :
  exists op,
    [CreateFileOperation (Some (str "a")) (str "ok.txt") (str "ok") None None;
     ShellOperation (Some (str "b")) (str "sudo rm -rf /") None None None]
      !! 1%nat = Some op /\
    Notions.echoes op
      (PolicyDeniedEvent (Some (str "b")) TyShell
         (str "Command contains blocked pattern") None).
Proof.
  apply (executeRun_events_echo
           [CreateFileOperation (Some (str "a")) (str "ok.txt") (str "ok")
              None None;
            ShellOperation (Some (str "b")) (str "sudo rm -rf /") None None
              None]
           ([] : list Spec.Call) standardPolicy
           (Executor.mkResult
              [CreateFileEvent (Some (str "a")) (str "ok.txt") false None None;
               PolicyDeniedEvent (Some (str "b")) TyShell
                 (str "Command contains blocked pattern") None]
              Completed None)
           [Spec.CallCreateFile (str "ok.txt") (str "ok")]).
  - vm_compute. reflexivity.
  - reflexivity.
Defined.

(** X3.  Only a shell command can suspend a run.  When [executeRun]
    returns [awaiting_approval], the operation at the position of the last
    event is a shell operation in whose command an [approvalRequired]
    pattern of the policy occurs, and the pending approval is of type
    [shell], has the reason "Command requires approval" and carries the
    command in its details under the tag [shell.approvalRequired].  A
    batch without shell operations that returns is completed. *)
Theorem executeRun_suspends_only_on_shell {S : Type} `{Sandbox.SandboxOps S}
    (operations : list Operation) (sandbox : S) (policyEngine : Policy)
    (r : Executor.ExecuteRunResult) (s' : S) :
  Executor.executeRun operations sandbox policyEngine = (Return r, s') ->
  (Executor.status r = AwaitingApproval ->
   exists id command cwd timeout env,
     operations !! (List.length (Executor.events r) - 1)%nat
     = Some (ShellOperation id command cwd timeout env) /\
     Spec.someOccurs (approvalRequired (shell policyEngine)) command /\
     Executor.pendingApproval r
     = Some (Executor.mkPending (JS.orElse id []) TyShell
               (str "Command requires approval")
               (mkDetails (Some (str "shell.approvalRequired"))
                  (Some command) None))) /\
  (forallb (fun op => negb (Notions.isShell op)) operations = true ->
   Executor.status r = Completed).
Proof.
  unfold Executor.executeRun. intros Hrun. split.
  - intros Hs.
    destruct (executeLoop_suspended _ _ _ _ _ Hrun Hs)
      as (front & op & e & Hop & Hev & Hg & Hevents & Hpending).
    destruct (gated_is_shell _ _ _ Hev Hg)
      as (id & c & cwd & t & env & -> & ->).
    exists id, c, cwd, t, env. rewrite Hevents, length_app, Hpending.
    cbn [List.length].
    replace (List.length front + 1 - 1)%nat with (List.length front) by lia.
    split; [exact Hop|]. split; [|reflexivity].
    apply someOccurs_matchesAny.
    cbn [PolicyEngine.evaluate] in Hev. injection Hev as Hev.
    unfold PolicyEngine.evaluateShell, ShellRules.evaluateShellPolicy in Hev.
    destruct (negb (sh_enabled (shell policyEngine))); [discriminate|].
    destruct (match blockedPatterns (shell policyEngine) with
              | Some ps => ShellRules.matchesAnyPattern c ps
              | None => false
              end); [discriminate|].
    destruct (match approvalRequired (shell policyEngine) with
              | Some ps => ShellRules.matchesAnyPattern c ps
              | None => false
              end); [reflexivity|].
    exfalso. cbv zeta in Hev.
    destruct (allowedCommands (shell policyEngine)) as [[|a l]|];
      try discriminate.
    destruct (negb (JS.arrayIncludes (a :: l) (ShellRules.extractBaseCommand c)));
      discriminate.
  - intros Hns. eapply executeLoop_no_shell; eassumption.
Qed.

(** A file creation followed by the gated command: the run is suspended on
    the shell operation at index 1. *)
Lemma executeRun_suspends_only_on_shell_witness :
  exists id command cwd timeout env,
    [CreateFileOperation None (str "ok.txt") (str "ok") None None;
     Scenario.gatedShell (Some (str "op1"))] !! 1%nat
    = Some (ShellOperation id command cwd timeout env) /\
    Spec.someOccurs (approvalRequired (shell standardPolicy)) command.
Proof.
  destruct (executeRun_suspends_only_on_shell
              [CreateFileOperation None (str "ok.txt") (str "ok") None None;
               Scenario.gatedShell (Some (str "op1"))]
              ([] : list Spec.Call) standardPolicy
              (Executor.mkResult
                 [CreateFileEvent None (str "ok.txt") false None None;
                  Scenario.gatedEvent (str "op1")]
                 AwaitingApproval
                 (Some (Executor.mkPending (str "op1") TyShell
                          (str "Command requires approval")
                          (mkDetails (Some (str "shell.approvalRequired"))
                             (Some Scenario.gatedCommand) None))))
              [Spec.CallCreateFile (str "ok.txt") (str "ok")])
    as [Hsuspended _].
  - vm_compute. reflexivity.
  - destruct (Hsuspended eq_refl)
      as (id & command & cwd & timeout & env & Hop & Hocc & _).
    exists id, command, cwd, timeout, env. split; [exact Hop | exact Hocc].
Defined.

(** X4.  What a run decides does not depend on the sandbox.  On two
    sandboxes, of any two implementations and in any state, [executeRun]
    gives the same status, the same types of events in the same order and
    the same pending approval (or the same exception): the results of the
    file and shell primitives never influence which operations are
    evaluated, denied or executed. *)
Theorem executeRun_decisions_ignore_sandbox {S1 S2 : Type}
    {ops1 : Sandbox.SandboxOps S1} {ops2 : Sandbox.SandboxOps S2}
    (operations : list Operation) (policyEngine : Policy)
    (s1 : S1) (s2 : S2) :
  Notions.outline (fst (Executor.executeRun operations s1 policyEngine))
  = Notions.outline (fst (Executor.executeRun operations s2 policyEngine)).
Proof.
  apply executeLoop_outline.
Qed.


(* ===================================================================== *)
(** * Further properties of the run service                               *)
(* ===================================================================== *)

Section RunServiceLaws.
Import Sandbox Executor RunSvc.
Context {S : Type} `{SandboxOps S}.

Lemma services_eta (w : Services S) :
  mkServices (runs w) (sandboxes w) (policyEngines w) = w.
Proof. destruct w; reflexivity. Qed.

(** What a successful [resume] started from and what it leaves. *)
Lemma resume_inv (w w' : Services S) (runId : jsstring) (approval : Approval)
    (run' : Run) (result : ExecuteRunResult) :
  resume runId approval w = (Return (run', result), w') ->
  exists run,
    get runId w = Some run /\
    run_status run = AwaitingApproval /\
    runs w' = <[runId := run']> (runs w) /\
    run' = mkRun (run_id run) (run_spaceId run) (status result)
             (run_operations run) (run_events run ++ events result)
             (run_pendingApproval run') /\
    (status result = Completed \/ status result = AwaitingApproval) /\
    (decision approval = Denied ->
     status result = Completed /\ sandboxes w' = sandboxes w) /\
    policyEngines w' = policyEngines w /\
    (forall other, other <> run_spaceId run ->
                   sandboxes w' !! other = sandboxes w !! other).
Proof.
  unfold resume.
  destruct (get runId w) as [run|] eqn:Hget; [|discriminate].
  destruct (run_status run) eqn:Hst; try discriminate.
  destruct (sandboxes w !! run_spaceId run) as [sandbox|]; [|discriminate].
  destruct (policyEngines w !! run_spaceId run) as [policyEngine|];
    [|discriminate].
  cbv zeta.
  destruct (findIndex (idIs (operationId approval)) (run_operations run) =? -1);
    [discriminate|].
  destruct (decision approval).
  - destruct (executeRun _ sandbox policyEngine) as [[r|m] sandbox'] eqn:Hrun;
      [|discriminate].
    intros [= <- <- <-]. exists run. cbn [runs sandboxes policyEngines status
      events run_pendingApproval].
    split; [reflexivity|]. split; [exact Hst|]. split; [reflexivity|].
    split; [reflexivity|]. split.
    + unfold executeRun in Hrun.
      destruct (executeLoop_inv _ _ _ _ _ Hrun) as (_ & _ & _ & _ & I5 & _).
      exact I5.
    + split; [discriminate|]. split; [reflexivity|].
      intros other Hother. apply lookup_insert_ne. congruence.
  - destruct (run_operations run !! _) as [pending|]; [|discriminate].
    intros [= <- <- <-]. exists run. cbn [runs sandboxes policyEngines status
      events run_pendingApproval].
    split; [reflexivity|]. split; [exact Hst|]. split; [reflexivity|].
    split; [reflexivity|]. split; [left; reflexivity|].
    split; [split; reflexivity|]. split; reflexivity.
Qed.

(** [resume] on a run that is not awaiting approval. *)
Lemma resume_not_awaiting (w : Services S) (runId : jsstring) (run : Run)
    (approval : Approval) :
  get runId w = Some run ->
  run_status run <> AwaitingApproval ->
  resume runId approval w
  = (Throw (str "Run " ++ runId ++ str " is not awaiting approval"), w).
Proof.
  intros Hget Hst. unfold resume. rewrite Hget.
  destruct (run_status run); try reflexivity. congruence.
Qed.

End RunServiceLaws.

Section RunServiceScenario.
Import Sandbox Executor RunSvc.
Context {S : Type} `{SandboxOps S}.

(** The suspended services are what submitting the gated batch leaves. *)
Lemma create_suspended (sandbox : S) :
  create Scenario.spaceId
    [Scenario.gatedShell (Some (str "op1")); Scenario.tailFile] (str "a")
    (Scenario.services sandbox standardPolicy)
  = (Return (Notions.suspendedRun,
             mkResult [Scenario.gatedEvent (str "op1")] AwaitingApproval
               (run_pendingApproval Notions.suspendedRun)),
     Notions.suspended sandbox).
Proof.
  exact (create_gated sandbox (Some (str "op1")) [Scenario.tailFile] (str "a")).
Qed.

(** Denying the pending operation of the suspended run. *)
Lemma resume_suspended_denied (sandbox : S) :
  resume (str "run_a") (mkApproval (str "op1") Denied None)
    (Notions.suspended sandbox)
  = (Return (Notions.deniedRun, mkResult [Notions.userDenial] Completed None),
     mkServices (<[str "run_a" := Notions.deniedRun]>
                   (runs (Notions.suspended sandbox)))
       (sandboxes (Notions.suspended sandbox))
       (policyEngines (Notions.suspended sandbox))).
Proof.
  apply (resume_denied (Notions.suspended sandbox) (str "run_a")
           Notions.suspendedRun (mkApproval (str "op1") Denied None)
           sandbox standardPolicy 0 (Scenario.gatedShell (Some (str "op1")))).
  - apply lookup_singleton_eq.
  - reflexivity.
  - apply lookup_singleton_eq.
  - apply lookup_singleton_eq.
  - reflexivity.
  - reflexivity.
  - reflexivity.
Qed.

End RunServiceScenario.

(** X6.  A successful [resume] extends the stored run and touches nothing
    else.  The run existed and was awaiting approval; afterwards it is
    stored with the same id, space and operations, its events are the old
    events followed by the events returned, its status is the status
    returned, which is [completed] or [awaiting_approval]; every other run,
    the policy engines and the sandboxes of the other spaces are as
    before. *)
Theorem resume_extends_the_stored_run {S : Type} `{Sandbox.SandboxOps S}
    (w w' : RunSvc.Services S) (runId : jsstring) (approval : RunSvc.Approval)
    (run' : RunSvc.Run) (result : Executor.ExecuteRunResult) :
  RunSvc.resume runId approval w = (Return (run', result), w') ->
  exists run,
    RunSvc.get runId w = Some run /\
    RunSvc.run_status run = AwaitingApproval /\
    RunSvc.get runId w' = Some run' /\
    RunSvc.run_id run' = RunSvc.run_id run /\
    RunSvc.run_spaceId run' = RunSvc.run_spaceId run /\
    RunSvc.run_operations run' = RunSvc.run_operations run /\
    RunSvc.run_events run'
    = RunSvc.run_events run ++ Executor.events result /\
    RunSvc.run_status run' = Executor.status result /\
    (Executor.status result = Completed \/
     Executor.status result = AwaitingApproval) /\
    (forall other, other <> runId ->
                   RunSvc.get other w' = RunSvc.get other w) /\
    RunSvc.policyEngines w' = RunSvc.policyEngines w /\
    (forall space, space <> RunSvc.run_spaceId run ->
       RunSvc.sandboxes w' !! space = RunSvc.sandboxes w !! space).
Proof.
  intros Hres.
  destruct (resume_inv _ _ _ _ _ _ Hres)
    as (run & Hget & Hst & Hruns & Hrun' & Hstatus & _ & Hpe & Hsb).
  exists run. unfold RunSvc.get. rewrite Hruns.
  split; [exact Hget|]. split; [exact Hst|].
  split; [apply lookup_insert_eq|].
  rewrite Hrun'. cbn [RunSvc.run_id RunSvc.run_spaceId RunSvc.run_operations
                      RunSvc.run_events RunSvc.run_status].
  repeat (split; [reflexivity|]).
  split; [exact Hstatus|].
  split; [intros other Hother; apply lookup_insert_ne; congruence|].
  split; [exact Hpe | exact Hsb].
Qed.

(** The suspended run of scenario S4, denied: the stored events are the
    suspension followed by the denial. *)
Lemma resume_extends_the_stored_run_witness :
  exists run,
    RunSvc.get (str "run_a") (Notions.suspended ([] : list Spec.Call))
    = Some run /\
    RunSvc.run_events Notions.deniedRun
    = RunSvc.run_events run ++ [Notions.userDenial].
Proof.
  destruct (resume_extends_the_stored_run _ _ _ _ _ _
              (resume_suspended_denied ([] : list Spec.Call)))
    as (run & Hget & _ & _ & _ & _ & _ & Hevents & _).
  exists run. split; [exact Hget | exact Hevents].
Defined.

(** X7.  A run is resumed only while it awaits approval.  After a
    [resume] that was denied, or whose result is [completed], every
    further [resume] of the run is refused with "is not awaiting approval"
    and changes nothing; so is a [resume] after [cancel]. *)
Theorem finished_run_is_not_resumed {S : Type} `{Sandbox.SandboxOps S} :
  (forall (w w' : RunSvc.Services S) runId approval run' result,
     RunSvc.resume runId approval w = (Return (run', result), w') ->
     RunSvc.decision approval = RunSvc.Denied \/
     Executor.status result = Completed ->
     forall again,
       RunSvc.resume runId again w'
       = (Throw (str "Run " ++ runId ++ str " is not awaiting approval"),
          w')) /\
  (forall (w : RunSvc.Services S) runId run approval,
     RunSvc.get runId w = Some run ->
     RunSvc.resume runId approval (snd (RunSvc.cancel runId w))
     = (Throw (str "Run " ++ runId ++ str " is not awaiting approval"),
        snd (RunSvc.cancel runId w))).
Proof.
  split.
  - intros w w' runId approval run' result Hres Hfinal again.
    destruct (resume_inv _ _ _ _ _ _ Hres)
      as (run & _ & _ & Hruns & Hrun' & _ & Hdenied & _).
    apply (resume_not_awaiting w' runId run').
    + unfold RunSvc.get. rewrite Hruns. apply lookup_insert_eq.
    + rewrite Hrun'. cbn [RunSvc.run_status].
      destruct Hfinal as [Hd|Hc]; [destruct (Hdenied Hd) as [Hc _]|];
        rewrite Hc; discriminate.
  - intros w runId run approval Hget.
    eapply resume_not_awaiting.
    + unfold RunSvc.cancel, RunSvc.get in *. cbn [snd RunSvc.runs].
      rewrite Hget. apply lookup_insert_eq.
    + discriminate.
Qed.

(** The denied run of scenario S4 cannot be approved afterwards. *)
Lemma finished_run_is_not_resumed_witness :
  exists w',
    RunSvc.resume (str "run_a")
      (RunSvc.mkApproval (str "op1") RunSvc.Denied None)
      (Notions.suspended ([] : list Spec.Call))
    = (Return (Notions.deniedRun,
               Executor.mkResult [Notions.userDenial] Completed None), w') /\
    RunSvc.resume (str "run_a")
      (RunSvc.mkApproval (str "op1") RunSvc.Approved None) w'
    = (Throw (str "Run " ++ str "run_a" ++ str " is not awaiting approval"),
       w').
Proof.
  eexists. split.
  - apply resume_suspended_denied.
  - apply (proj1 finished_run_is_not_resumed _ _ _ _ _ _
             (resume_suspended_denied ([] : list Spec.Call))).
    left. reflexivity.
Defined.

(** X8.  [cancel] does not look at the status of the run.  For an unknown
    id it returns nothing and changes nothing.  For a stored run, whatever
    its status (also [completed]), it stores and returns the run with
    status [cancelled] and with the id, the space, the operations, the
    events and the pending approval it had (also the pending approval of
    a run that awaited one); the other runs, the sandboxes and the policy
    engines are untouched.  (The completion time, which [cancel] stamps on
    every call, is a clock column and not covered.) *)
Theorem cancel_marks_any_run_cancelled {S : Type} `{Sandbox.SandboxOps S}
    (w : RunSvc.Services S) (runId : jsstring) :
  (RunSvc.get runId w = None -> RunSvc.cancel runId w = (None, w)) /\
  (forall run,
     RunSvc.get runId w = Some run ->
     exists cancelled,
       fst (RunSvc.cancel runId w) = Some cancelled /\
       RunSvc.get runId (snd (RunSvc.cancel runId w)) = Some cancelled /\
       RunSvc.run_status cancelled = Cancelled /\
       RunSvc.run_id cancelled = RunSvc.run_id run /\
       RunSvc.run_spaceId cancelled = RunSvc.run_spaceId run /\
       RunSvc.run_operations cancelled = RunSvc.run_operations run /\
       RunSvc.run_events cancelled = RunSvc.run_events run /\
       RunSvc.run_pendingApproval cancelled
       = RunSvc.run_pendingApproval run /\
       (forall other, other <> runId ->
          RunSvc.get other (snd (RunSvc.cancel runId w))
          = RunSvc.get other w) /\
       RunSvc.sandboxes (snd (RunSvc.cancel runId w)) = RunSvc.sandboxes w /\
       RunSvc.policyEngines (snd (RunSvc.cancel runId w))
       = RunSvc.policyEngines w).
Proof.
  unfold RunSvc.cancel, RunSvc.get. split.
  - intros Hget. rewrite !Hget, services_eta. reflexivity.
  - intros run Hget. rewrite Hget.
    cbn [fst snd RunSvc.runs RunSvc.sandboxes RunSvc.policyEngines].
    rewrite lookup_insert_eq. eexists. split; [reflexivity|].
    split; [reflexivity|].
    cbn [RunSvc.run_status RunSvc.run_id RunSvc.run_spaceId
         RunSvc.run_operations RunSvc.run_events RunSvc.run_pendingApproval].
    repeat (split; [reflexivity|]).
    split; [intros other Hother; apply lookup_insert_ne; congruence|].
    split; reflexivity.
Qed.

(** The run of scenario S4 after its denial is completed; [cancel] marks
    it cancelled all the same. *)
Lemma cancel_marks_any_run_cancelled_witness :
  let w :=
    RunSvc.mkServices
      (<[str "run_a" := Notions.deniedRun]>
         (RunSvc.runs (Notions.suspended ([] : list Spec.Call))))
      (RunSvc.sandboxes (Notions.suspended ([] : list Spec.Call)))
      (RunSvc.policyEngines (Notions.suspended ([] : list Spec.Call))) in
  RunSvc.run_status Notions.deniedRun = Completed /\
  RunSvc.run_status <$> fst (RunSvc.cancel (str "run_a") w) = Some Cancelled.
Proof.
  cbv zeta. split; [reflexivity|].
  destruct (proj2 (cancel_marks_any_run_cancelled
                     (RunSvc.mkServices
                        (<[str "run_a" := Notions.deniedRun]>
                           (RunSvc.runs
                              (Notions.suspended ([] : list Spec.Call))))
                        (RunSvc.sandboxes
                           (Notions.suspended ([] : list Spec.Call)))
                        (RunSvc.policyEngines
                           (Notions.suspended ([] : list Spec.Call))))
                     (str "run_a"))
              Notions.deniedRun (lookup_insert_eq _ _ _))
    as (cancelled & -> & _ & Hstatus & _).
  cbn [fmap option_fmap option_map]. rewrite Hstatus. reflexivity.
Defined.

(** X9.  [create] stores the run it returns, under a new id, and nothing
    else.  When it returns, the run is stored under [run_] followed by the
    fresh text, no run had that id before, the run records the space, the
    operations as submitted and the status, events and pending approval
    that [executeRun] returned on the space's sandbox and policy engine;
    every other run and the policy engines are as before.  When the space
    has no sandbox or no policy engine, [create] throws without executing
    or storing anything. *)
Theorem create_stores_what_it_returns {S : Type} `{Sandbox.SandboxOps S}
    (w : RunSvc.Services S) (spaceId fresh : jsstring)
    (operations : list Operation) :
  (forall run result w',
     RunSvc.create spaceId operations fresh w = (Return (run, result), w') ->
     RunSvc.get (RunSvc.run_id run) w' = Some run /\
     RunSvc.get (RunSvc.run_id run) w = None /\
     (forall other, other <> RunSvc.run_id run ->
                    RunSvc.get other w' = RunSvc.get other w) /\
     RunSvc.policyEngines w' = RunSvc.policyEngines w /\
     exists sandbox policyEngine sandbox',
       RunSvc.sandboxes w !! spaceId = Some sandbox /\
       RunSvc.policyEngines w !! spaceId = Some policyEngine /\
       Executor.executeRun operations sandbox policyEngine
       = (Return result, sandbox') /\
       RunSvc.sandboxes w' = <[spaceId := sandbox']> (RunSvc.sandboxes w) /\
       run = RunSvc.mkRun (str "run_" ++ fresh) spaceId
               (Executor.status result) operations (Executor.events result)
               (Executor.pendingApproval result)) /\
  (RunSvc.sandboxes w !! spaceId = None \/
   RunSvc.policyEngines w !! spaceId = None ->
   RunSvc.create spaceId operations fresh w
   = (Throw (str "Space " ++ spaceId ++ str " not found or not initialized"),
      w)).
Proof.
  unfold RunSvc.create, RunSvc.get. split.
  - intros run result w'.
    destruct (RunSvc.sandboxes w !! spaceId) as [sandbox|]; [|discriminate].
    destruct (RunSvc.policyEngines w !! spaceId) as [policyEngine|];
      [|discriminate].
    cbv zeta.
    destruct (Executor.executeRun operations sandbox policyEngine)
      as [[r|m] sandbox'] eqn:Hrun; [|discriminate].
    destruct (RunSvc.runs w !! (str "run_" ++ fresh)) eqn:Hfree;
      [discriminate|].
    intros [= <- <- <-].
    cbn [RunSvc.run_id RunSvc.runs RunSvc.sandboxes RunSvc.policyEngines].
    split; [apply lookup_insert_eq|]. split; [exact Hfree|].
    split; [intros other Hother; apply lookup_insert_ne; congruence|].
    split; [reflexivity|].
    exists sandbox, policyEngine, sandbox'.
    repeat split; try reflexivity. exact Hrun.
  - intros [Hs|Hp].
    + rewrite Hs. reflexivity.
    + rewrite Hp. destruct (RunSvc.sandboxes w !! spaceId); reflexivity.
Qed.

(** Submitting the gated batch of scenario S4, and submitting to a space
    that does not exist. *)
Lemma create_stores_what_it_returns_witness :
  RunSvc.get (str "run_a") (Notions.suspended ([] : list Spec.Call))
  = Some Notions.suspendedRun /\
  RunSvc.create (str "spc_none") [Scenario.tailFile] (str "a")
    (Scenario.services ([] : list Spec.Call) standardPolicy)
  = (Throw (str "Space " ++ str "spc_none"
              ++ str " not found or not initialized"),
     Scenario.services ([] : list Spec.Call) standardPolicy).
Proof.
  split.
  - destruct (proj1 (create_stores_what_it_returns _ _ _ _) _ _ _
                (create_suspended ([] : list Spec.Call))) as [Hget _].
    exact Hget.
  - apply (proj2 (create_stores_what_it_returns _ _ _ _)).
    left. apply lookup_singleton_ne. discriminate.
Defined.

(* ===================================================================== *)
(** * Further properties of the policy rules                              *)
(* ===================================================================== *)

Section GlobFacts.
Import Notions.

Lemma plainPatterns_spec (patterns : option (list jsstring)) :
  plainPatterns patterns = true ->
  forall p, In p (default [] patterns) -> ~ In 63%N p.
Proof.
  unfold plainPatterns. rewrite forallb_forall. intros Hall p Hp Hq.
  specialize (Hall p Hp). apply negb_true_iff in Hall.
  assert (Hex : existsb (N.eqb 63) p = true).
  { apply existsb_exists. exists 63%N. split; [exact Hq | apply N.eqb_refl]. }
  congruence.
Qed.

Lemma fs_matchesAny_glob (path : jsstring) (patterns : list jsstring) :
  (forall p, In p patterns -> ~ In 63%N p) ->
  Spec.noLineTerminator path = true ->
  FilesystemRules.matchesAnyPattern path patterns
  = Return (anyGlob patterns path).
Proof.
  intros Hq Hnl. induction patterns as [|p ps IH]; [reflexivity|].
  cbn [FilesystemRules.matchesAnyPattern anyGlob existsb].
  rewrite (matchesPattern_glob path p (Hq p (or_introl eq_refl)) Hnl).
  cbn [JS.bind]. destruct (Spec.globMatch p path); [reflexivity|].
  apply IH. intros q Hin. apply Hq. right. exact Hin.
Qed.

(** A pattern without star matches its own text only. *)
Lemma globMatch_literal (pattern : jsstring) :
  ~ In 42%N pattern ->
  forall path, Spec.globMatch pattern path = true <-> path = pattern.
Proof.
  induction pattern as [|c p IH]; intros Hs path.
  - destruct path; cbn [Spec.globMatch]; split; congruence.
  - cbn [Spec.globMatch].
    destruct (N.eqb_spec c 42) as [->|_];
      [exfalso; apply Hs; left; reflexivity|].
    destruct path as [|d s]; [split; discriminate|].
    rewrite andb_true_iff, N.eqb_eq, IH
      by (intros Hin; apply Hs; right; exact Hin).
    split; [intros [-> ->]; reflexivity | intros [= -> ->]; auto].
Qed.

(** A star followed by a text without star: the paths that end in it. *)
Lemma globMatch_ending (ending : jsstring) :
  ~ In 42%N ending ->
  forall path,
    Spec.globMatch (42%N :: ending) path = true <->
    exists l, path = l ++ ending.
Proof.
  intros Hs. induction path as [|d s IH]; rewrite globMatch_star.
  - rewrite orb_false_r, (globMatch_literal ending Hs). split.
    + intros E. exists []. exact E.
    + intros (l & E). destruct l; [exact E | discriminate].
  - rewrite orb_true_iff, (globMatch_literal ending Hs), IH. split.
    + intros [E | (l & ->)]; [exists []; exact E | exists (d :: l); reflexivity].
    + intros ([|x l] & E); [left; exact E|].
      right. injection E as -> ->. eauto.
Qed.

(** The lone star matches every path. *)
Lemma globMatch_any (path : jsstring) : Spec.globMatch [42%N] path = true.
Proof.
  induction path as [|d s IH]; rewrite globMatch_star; [reflexivity|].
  rewrite IH. apply orb_true_r.
Qed.

(** A text without star followed by a star: the paths that start with
    it. *)
Lemma globMatch_beginning (beginning : jsstring) :
  ~ In 42%N beginning ->
  forall path,
    Spec.globMatch (beginning ++ [42%N]) path = true <->
    exists r, path = beginning ++ r.
Proof.
  induction beginning as [|c p IH]; intros Hs path.
  - cbn [app]. rewrite globMatch_any. split; eauto.
  - cbn [app Spec.globMatch].
    destruct (N.eqb_spec c 42) as [->|_];
      [exfalso; apply Hs; left; reflexivity|].
    destruct path as [|d s]; [split; [discriminate | intros (r & [=])]|].
    rewrite andb_true_iff, N.eqb_eq, IH
      by (intros Hin; apply Hs; right; exact Hin).
    split.
    + intros [-> (r & ->)]. eauto.
    + intros (r & [= -> ->]). eauto.
Qed.

Lemma standardBlocked_spec (path : jsstring) :
  anyGlob (default [] (blockedPaths (filesystem standardPolicy))) path = true
  <-> standardBlocked path.
Proof.
  unfold standardBlocked.
  change (default [] (blockedPaths (filesystem standardPolicy)))
    with [str "." ++ [42%N]; 42%N :: str ".env"; 42%N :: str ".key";
          42%N :: str ".pem"; str "node_modules"].
  cbn [anyGlob existsb].
  rewrite orb_false_r, !orb_true_iff.
  rewrite globMatch_beginning, !globMatch_ending, globMatch_literal;
    first [tauto | vm_compute; intuition discriminate].
Qed.

End GlobFacts.

(** X10.  For a pattern without question mark and a path without line
    terminator, [matchesPattern] is glob matching: it returns, and the
    answer is whether the pattern, with [*] standing for any run of code
    units and every other code unit for itself, matches the whole path.
    (A star is not stopped by [/]: there is no directory semantics.) *)
Theorem matchesPattern_is_glob_matching (path pattern : jsstring) :
  ~ In 63%N pattern ->
  Spec.noLineTerminator path = true ->
  FilesystemRules.matchesPattern path pattern
  = Return (Spec.globMatch pattern path) /\
  (~ In 42%N pattern ->
   (Spec.globMatch pattern path = true <-> path = pattern) /\
   (Spec.globMatch (42%N :: pattern) path = true <->
    exists l, path = l ++ pattern) /\
   (Spec.globMatch (pattern ++ [42%N]) path = true <->
    exists r, path = pattern ++ r)).
Proof.
  intros Hq Hnl. split; [apply matchesPattern_glob; assumption|].
  intros Hs. split; [apply globMatch_literal; exact Hs|].
  split; [apply globMatch_ending | apply globMatch_beginning]; exact Hs.
Qed.

(** The pattern [*.env] on a path below a directory. *)
Lemma matchesPattern_is_glob_matching_witness :
  FilesystemRules.matchesPattern (str "config/prod.env") (str "*.env")
  = Return (Spec.globMatch (str "*.env") (str "config/prod.env")).
Proof.
  apply (matchesPattern_is_glob_matching (str "config/prod.env") (str "*.env")).
  - vm_compute. intuition discriminate.
  - reflexivity.
Defined.

(** X11.  The order of the filesystem checks.  A disabled filesystem
    denies under [filesystem.enabled]; otherwise a write on a read-only
    filesystem denies under [filesystem.readOnly], both before any pattern
    is compiled.  Otherwise, for patterns without question mark and a path
    without line terminator: a path that some blocked pattern matches is
    denied under [filesystem.blockedPaths], whatever the allowed patterns
    say; otherwise, with a non-empty list of allowed patterns none of which
    matches, it is denied under [filesystem.allowedPaths]; otherwise it is
    allowed.  The filesystem rules never ask for an approval. *)
Theorem evaluateFilesystemPolicy_order (policy : FilesystemPolicy)
    (path : jsstring) (isWrite : bool) :
  let e := FilesystemRules.evaluateFilesystemPolicy policy path isWrite in
  let blocked := default [] (blockedPaths policy) in
  let listed := default [] (allowedPaths policy) in
  (fs_enabled policy = false ->
   e = Return (mkEval false false (Some (str "Filesystem access is disabled"))
                 None (Some (str "filesystem.enabled")))) /\
  (fs_enabled policy = true -> isWrite = true -> readOnly policy = true ->
   e = Return (mkEval false false (Some (str "Filesystem is read-only"))
                 (Some (str "Use a policy that allows write access"))
                 (Some (str "filesystem.readOnly")))) /\
  (fs_enabled policy = true -> isWrite && readOnly policy = false ->
   Notions.plainPatterns (blockedPaths policy) = true ->
   Notions.plainPatterns (allowedPaths policy) = true ->
   Spec.noLineTerminator path = true ->
   (Notions.anyGlob blocked path = true ->
    e = Return (Notions.blockedDenial path)) /\
   (Notions.anyGlob blocked path = false -> listed <> [] ->
    Notions.anyGlob listed path = false ->
    e = Return (mkEval false false
                  (Some (str "Path " ++ JS.dquote ++ path ++ JS.dquote
                           ++ str " is not in allowed paths"))
                  None (Some (str "filesystem.allowedPaths")))) /\
   (Notions.anyGlob blocked path = false ->
    listed = [] \/ Notions.anyGlob listed path = true ->
    e = Return allow)) /\
  (forall decision, e = Return decision -> requiresApproval decision = false).
Proof.
  cbv zeta. unfold FilesystemRules.evaluateFilesystemPolicy.
  split; [intros ->; reflexivity|].
  split; [intros -> -> ->; reflexivity|].
  split; [|apply filesystem_never_gated].
  intros -> -> Hpb Hpa Hnl. cbn [negb].
  pose proof (plainPatterns_spec _ Hpb) as Hqb.
  pose proof (plainPatterns_spec _ Hpa) as Hqa.
  assert (Hblocked :
    match blockedPaths policy with
    | Some ps => FilesystemRules.matchesAnyPattern path ps
    | None => Return false
    end = Return (Notions.anyGlob (default [] (blockedPaths policy)) path)).
  { destruct (blockedPaths policy) as [ps|]; [|reflexivity].
    apply fs_matchesAny_glob; assumption. }
  rewrite Hblocked. cbn [JS.bind].
  split; [intros ->; reflexivity|].
  split.
  - intros -> Hne Hnone.
    destruct (allowedPaths policy) as [[|a l]|];
      cbn [default from_option id] in *; try congruence.
    rewrite (fs_matchesAny_glob path (a :: l) Hqa Hnl), Hnone. reflexivity.
  - intros -> Hl.
    destruct (allowedPaths policy) as [[|a l]|];
      cbn [default from_option id] in *; try reflexivity.
    destruct Hl as [Hl|Hl]; [discriminate|].
    rewrite (fs_matchesAny_glob path (a :: l) Hqa Hnl), Hl. reflexivity.
Qed.

(** The three outcomes that need a pattern, on a policy that blocks
    [*.pem] and allows [src/*]. *)
Lemma evaluateFilesystemPolicy_order_witness :
  let policy :=
    mkFilesystemPolicy true false 1024 (Some [str "src/*"])
      (Some [str "*.pem"]) in
  FilesystemRules.evaluateFilesystemPolicy policy (str "src/id.pem") true
  = Return (Notions.blockedDenial (str "src/id.pem")) /\
  FilesystemRules.evaluateFilesystemPolicy policy (str "doc/a.txt") true
  = Return (mkEval false false
              (Some (str "Path " ++ JS.dquote ++ str "doc/a.txt" ++ JS.dquote
                       ++ str " is not in allowed paths"))
              None (Some (str "filesystem.allowedPaths"))) /\
  FilesystemRules.evaluateFilesystemPolicy policy (str "src/a.ts") true
  = Return allow.
Proof.
  cbv zeta. repeat apply conj.
  - destruct (evaluateFilesystemPolicy_order
                (mkFilesystemPolicy true false 1024 (Some [str "src/*"])
                   (Some [str "*.pem"])) (str "src/id.pem") true)
      as (_ & _ & Horder & _).
    destruct (Horder eq_refl eq_refl eq_refl eq_refl eq_refl) as (Hb & _).
    apply Hb. reflexivity.
  - destruct (evaluateFilesystemPolicy_order
                (mkFilesystemPolicy true false 1024 (Some [str "src/*"])
                   (Some [str "*.pem"])) (str "doc/a.txt") true)
      as (_ & _ & Horder & _).
    destruct (Horder eq_refl eq_refl eq_refl eq_refl eq_refl) as (_ & Hl & _).
    apply Hl; [reflexivity | discriminate | reflexivity].
  - destruct (evaluateFilesystemPolicy_order
                (mkFilesystemPolicy true false 1024 (Some [str "src/*"])
                   (Some [str "*.pem"])) (str "src/a.ts") true)
      as (_ & _ & Horder & _).
    destruct (Horder eq_refl eq_refl eq_refl eq_refl eq_refl) as (_ & _ & Ha).
    apply Ha; [reflexivity | right; reflexivity].
Defined.

(** X12.  What the standard preset decides on a path (without line
    terminator), for reads and writes alike: the path is denied under
    [filesystem.blockedPaths] exactly when it starts with a dot, ends in
    [.env], [.key] or [.pem], or is the very name [node_modules]; every
    other path is allowed.  So [src/.env] is denied, while [src/.git/config]
    and [node_modules/x/index.js] are allowed. *)
Theorem standardPolicy_blocked_paths (path : jsstring) (isWrite : bool) :
  Spec.noLineTerminator path = true ->
  (Notions.standardBlocked path ->
   FilesystemRules.evaluateFilesystemPolicy (filesystem standardPolicy) path
     isWrite
   = Return (Notions.blockedDenial path)) /\
  (~ Notions.standardBlocked path ->
   FilesystemRules.evaluateFilesystemPolicy (filesystem standardPolicy) path
     isWrite
   = Return allow).
Proof.
  intros Hnl.
  assert (Hany :
    FilesystemRules.matchesAnyPattern path
      (default [] (blockedPaths (filesystem standardPolicy)))
    = Return (Notions.anyGlob
                (default [] (blockedPaths (filesystem standardPolicy))) path)).
  { apply fs_matchesAny_glob; [|exact Hnl].
    apply plainPatterns_spec. reflexivity. }
  unfold FilesystemRules.evaluateFilesystemPolicy.
  change (fs_enabled (filesystem standardPolicy)) with true.
  change (readOnly (filesystem standardPolicy)) with false.
  change (allowedPaths (filesystem standardPolicy))
    with (@None (list jsstring)).
  change (blockedPaths (filesystem standardPolicy))
    with (Some (default [] (blockedPaths (filesystem standardPolicy)))).
  rewrite andb_false_r. cbn [negb]. cbv iota. rewrite Hany. cbn [JS.bind].
  split.
  - intros Hb. apply standardBlocked_spec in Hb. rewrite Hb. reflexivity.
  - intros Hb.
    destruct (Notions.anyGlob _ path) eqn:E; [|reflexivity].
    exfalso. apply Hb, standardBlocked_spec, E.
Qed.

(** The three paths named above. *)
Lemma standardPolicy_blocked_paths_witness :
  FilesystemRules.evaluateFilesystemPolicy (filesystem standardPolicy)
    (str "src/.env") false
  = Return (Notions.blockedDenial (str "src/.env")) /\
  FilesystemRules.evaluateFilesystemPolicy (filesystem standardPolicy)
    (str "src/.git/config") true
  = Return allow /\
  FilesystemRules.evaluateFilesystemPolicy (filesystem standardPolicy)
    (str "node_modules/x/index.js") true
  = Return allow.
Proof.
  repeat apply conj.
  - apply (proj1 (standardPolicy_blocked_paths (str "src/.env") false
                    eq_refl)).
    right; left. exists (str "src/"). reflexivity.
  - apply (proj2 (standardPolicy_blocked_paths (str "src/.git/config") true
                    eq_refl)).
    intros Hb. apply standardBlocked_spec in Hb. discriminate Hb.
  - apply (proj2 (standardPolicy_blocked_paths
                    (str "node_modules/x/index.js") true eq_refl)).
    intros Hb. apply standardBlocked_spec in Hb. discriminate Hb.
Defined.

Section PresetFacts.
Import Sandbox Executor.

(** Under the restrictive preset only messages and reads are allowed. *)
Lemma restrictive_allows (op : Operation) :
  Spec.isAllow restrictivePolicy op = true ->
  Spec.callsOf op = [] \/ exists path, Spec.callsOf op = [Spec.CallReadFile path].
Proof.
  destruct op as [id c|id p c en ov|id p en|id p ed|id p|id c cwd t env];
    try (intros _; left; reflexivity);
    try (intros _; right; eexists; reflexivity);
    intros Ha; exfalso; revert Ha; unfold Spec.isAllow;
    cbn [PolicyEngine.evaluate]; discriminate.
Qed.

Lemma restrictive_calls (operations : list Operation) :
  exists paths,
    flat_map Spec.callsOf
      (List.filter (Spec.isAllow restrictivePolicy) operations)
    = List.map Spec.CallReadFile paths.
Proof.
  induction operations as [|op rest (paths & IH)]; [exists []; reflexivity|].
  cbn [List.filter].
  destruct (Spec.isAllow restrictivePolicy op) eqn:Ha; [|eauto].
  cbn [flat_map]. rewrite IH.
  destruct (restrictive_allows op Ha) as [-> | (path & ->)].
  - exists paths. reflexivity.
  - exists (path :: paths). reflexivity.
Qed.

Lemma restrictive_never_gates (op : Operation) (e : PolicyEvaluation) :
  PolicyEngine.evaluate restrictivePolicy op = Return e ->
  requiresApproval e = false.
Proof.
  intros Hev. destruct (requiresApproval e) eqn:Hg; [|reflexivity].
  destruct (gated_is_shell _ _ _ Hev Hg) as (id & c & cwd & t & env & -> & ->).
  cbn [PolicyEngine.evaluate] in Hev. injection Hev as Hev.
  unfold PolicyEngine.evaluateShell, ShellRules.evaluateShellPolicy in Hev.
  cbn [restrictivePolicy shell sh_enabled negb] in Hev. discriminate Hev.
Qed.

(** A path pattern that starts with a question mark is no regular
    expression. *)
Lemma matchesPattern_leading_question_mark (path rest : jsstring) :
  FilesystemRules.matchesPattern path (63%N :: rest)
  = Throw FilesystemRules.invalidRegExp.
Proof. reflexivity. Qed.

End PresetFacts.

(** X13.  Under the restrictive preset every batch runs to its end and
    nothing but reads reaches the sandbox.  Whatever the operations,
    [executeRun] returns with status [completed], one event per operation
    and no pending approval; and on the sandbox that records the
    primitives invoked, the record grows by [readFile] calls only: no
    file is created, edited or deleted and no command is executed. *)
Theorem restrictivePolicy_reads_only (operations : list Operation) :
  (forall (S : Type) (ops : Sandbox.SandboxOps S) (sandbox : S),
     exists r s',
       Executor.executeRun operations sandbox restrictivePolicy
       = (Return r, s') /\
       Executor.status r = Completed /\
       List.length (Executor.events r) = List.length operations /\
       Executor.pendingApproval r = None) /\
  (forall log : list Spec.Call,
     exists paths,
       snd (Executor.executeRun operations log restrictivePolicy)
       = log ++ List.map Spec.CallReadFile paths).
Proof.
  split.
  - intros S ops sandbox.
    destruct (executeLoop_total restrictivePolicy operations eq_refl sandbox)
      as (r & s' & Hrun).
    exists r, s'. unfold Executor.executeRun. split; [exact Hrun|].
    destruct (executeLoop_inv _ _ _ _ _ Hrun) as (_ & _ & Hc & _ & [Hs|Hs] & _).
    + destruct (Hc Hs) as (Hlen & Hpa & _). auto.
    + exfalso.
      destruct (executeLoop_suspended _ _ _ _ _ Hrun Hs)
        as (front & op & e & _ & Hev & Hg & _).
      rewrite (restrictive_never_gates op e Hev) in Hg. discriminate.
  - intros log.
    destruct (executeRun_dispatch restrictivePolicy operations log)
      as (n & _ & Hs & _).
    destruct (restrictive_calls (take n operations)) as (paths & Hp).
    exists paths. rewrite Hs, recorder_runAll, Hp. reflexivity.
Qed.

(** X14.  A path pattern that starts with a question mark breaks the
    policy.  The escaping pass leaves the question mark alone, so the
    pattern compiles to [^?...], which [new RegExp] refuses.  When such a
    pattern is the first of the blocked paths, every path check that
    reaches the patterns throws instead of deciding, and [executeRun]
    throws at the first read (with nothing pushed for it and the sandbox
    left as it is), whatever the path and whatever follows. *)
Theorem question_mark_pattern_throws (policy : Policy)
    (rest : jsstring) (patterns : list jsstring) :
  fs_enabled (filesystem policy) = true ->
  blockedPaths (filesystem policy) = Some ((63%N :: rest) :: patterns) ->
  (forall path,
     FilesystemRules.evaluateFilesystemPolicy (filesystem policy) path false
     = Throw FilesystemRules.invalidRegExp) /\
  (forall (S : Type) (ops : Sandbox.SandboxOps S) (sandbox : S)
          id path encoding more,
     Executor.executeRun (ReadFileOperation id path encoding :: more)
       sandbox policy
     = (Throw FilesystemRules.invalidRegExp, sandbox)).
Proof.
  intros Hen Hbl.
  assert (Hthrow : forall path,
    FilesystemRules.evaluateFilesystemPolicy (filesystem policy) path false
    = Throw FilesystemRules.invalidRegExp).
  { intros path. unfold FilesystemRules.evaluateFilesystemPolicy.
    rewrite Hen, Hbl. cbn [negb andb FilesystemRules.matchesAnyPattern].
    rewrite matchesPattern_leading_question_mark. reflexivity. }
  split; [exact Hthrow|].
  intros S ops sandbox id path encoding more.
  unfold Executor.executeRun.
  cbn [Executor.executeLoop PolicyEngine.evaluate].
  unfold PolicyEngine.evaluateReadFile. rewrite Hthrow. reflexivity.
Qed.

(** The standard preset with [?.txt] put in front of its blocked paths. *)
Lemma question_mark_pattern_throws_witness :
  let policy :=
    mkPolicy (str "custom") None
      (mkFilesystemPolicy true false 1024 None
         (Some [str "?.txt"; str "*.env"]))
      (shell standardPolicy) (network standardPolicy) in
  FilesystemRules.evaluateFilesystemPolicy (filesystem policy) (str "a.txt")
    false
  = Throw FilesystemRules.invalidRegExp.
Proof.
  cbv zeta.
  apply (proj1 (question_mark_pattern_throws
                  (mkPolicy (str "custom") None
                     (mkFilesystemPolicy true false 1024 None
                        (Some [str "?.txt"; str "*.env"]))
                     (shell standardPolicy) (network standardPolicy))
                  (str ".txt") [str "*.env"] eq_refl eq_refl)).
Defined.

(** X15.  A blocked command stays blocked however it is wrapped.  When
    the shell policy denies a command because a blocked pattern occurs in
    it, it gives the very same denial for every command that contains
    that command: prefixing it, chaining something after it or embedding
    it cannot lift the block, and neither the allowlist nor an approval
    is consulted. *)
Theorem blocked_command_stays_blocked (policy : ShellPolicy)
    (command before after : jsstring) :
  Policy.policy (ShellRules.evaluateShellPolicy policy command)
  = Some (str "shell.blockedPatterns") ->
  ShellRules.evaluateShellPolicy policy (before ++ command ++ after)
  = mkEval false false (Some (str "Command contains blocked pattern")) None
      (Some (str "shell.blockedPatterns")).
Proof.
  unfold ShellRules.evaluateShellPolicy.
  destruct (negb (sh_enabled policy)); [intros [= Hx]; discriminate Hx|].
  destruct (match blockedPatterns policy with
            | Some ps => ShellRules.matchesAnyPattern command ps
            | None => false
            end) eqn:Hb.
  - intros _.
    apply someOccurs_matchesAny in Hb. destruct Hb as (p & Hp & l & r & ->).
    assert (Hb' : Spec.someOccurs (blockedPatterns policy)
                    (before ++ (l ++ p ++ r) ++ after)).
    { exists p. split; [exact Hp|]. exists (before ++ l), (r ++ after).
      rewrite <- !app_assoc. reflexivity. }
    apply someOccurs_matchesAny in Hb'. rewrite Hb'. reflexivity.
  - cbv zeta.
    destruct (match approvalRequired policy with
              | Some ps => ShellRules.matchesAnyPattern command ps
              | None => false
              end);
      destruct (allowedCommands policy) as [[|a l]|];
      try (intros [= Hx]; discriminate Hx);
      destruct (negb (JS.arrayIncludes (a :: l)
                        (ShellRules.extractBaseCommand command)));
      intros [= Hx]; discriminate Hx.
Qed.

(** [sudo] under the standard preset, wrapped in an allowlisted
    command. *)
Lemma blocked_command_stays_blocked_witness :
  ShellRules.evaluateShellPolicy (shell standardPolicy)
    (str "echo ok && " ++ str "sudo reboot" ++ str " | cat")
  = mkEval false false (Some (str "Command contains blocked pattern")) None
      (Some (str "shell.blockedPatterns")).
Proof.
  apply (blocked_command_stays_blocked (shell standardPolicy)
           (str "sudo reboot") (str "echo ok && ") (str " | cat")).
  reflexivity.
Defined.

(* ===================================================================== *)
(** * Network rules                                                       *)
(* ===================================================================== *)

Section NetworkFacts.
Import NetworkRules Notions.

Lemma substring_from (s : jsstring) (n : nat) :
  (n <= List.length s)%nat ->
  JS.substring s (Z.of_nat n) (JS.length s) = drop n s.
Proof.
  intros Hn. unfold JS.substring, JS.clamp, JS.length.
  replace (Z.min (Z.max (Z.of_nat n) 0) (Z.of_nat (List.length s)))
    with (Z.of_nat n) by lia.
  replace (Z.min (Z.max (Z.of_nat (List.length s)) 0)
             (Z.of_nat (List.length s)))
    with (Z.of_nat (List.length s)) by lia.
  replace (Z.min (Z.of_nat n) (Z.of_nat (List.length s)))
    with (Z.of_nat n) by lia.
  replace (Z.max (Z.of_nat n) (Z.of_nat (List.length s)))
    with (Z.of_nat (List.length s)) by lia.
  rewrite Nat2Z.id. apply take_ge. rewrite length_drop. lia.
Qed.

Lemma endsWith_spec (s p : jsstring) :
  endsWith s p = true <-> exists l, s = l ++ p.
Proof.
  unfold endsWith, JS.length.
  destruct (Z.ltb_spec (Z.of_nat (List.length s) - Z.of_nat (List.length p)) 0)
    as [Hlt|Hge].
  - split; [discriminate|]. intros (l & ->). rewrite length_app in Hlt. lia.
  - replace (Z.of_nat (List.length s) - Z.of_nat (List.length p))
      with (Z.of_nat (List.length s - List.length p)) by lia.
    change (Z.of_nat (List.length s)) with (JS.length s).
    rewrite substring_from by lia. rewrite js_eqb_eq. split.
    + intros E. exists (take (List.length s - List.length p) s).
      rewrite <- E at 2. symmetry. apply take_drop.
    + intros (l & ->). rewrite length_app.
      replace (List.length l + List.length p - List.length p)%nat
        with (List.length l) by lia.
      apply drop_app_length.
Qed.

Lemma matchesDomain_spec (domain pattern : jsstring) :
  matchesDomain domain pattern = true <-> covers pattern domain.
Proof.
  unfold matchesDomain, covers.
  destruct (JS.eqb pattern (str "*")) eqn:Estar.
  { apply js_eqb_eq in Estar. tauto. }
  destruct (JS.eqb pattern domain) eqn:Eexact.
  { apply js_eqb_eq in Eexact. tauto. }
  assert (Hstar : pattern <> str "*").
  { intros E. apply js_eqb_eq in E. congruence. }
  assert (Hexact : pattern <> domain).
  { intros E. apply js_eqb_eq in E. congruence. }
  destruct (JS.startsWith pattern (str "*.")) eqn:Esub.
  - apply startsWith_spec in Esub. destruct Esub as (base & ->).
    pose proof (substring_from (str "*." ++ base) 2
                  ltac:(rewrite length_app;
                        change (List.length (str "*.")) with 2%nat; lia))
      as Hsub.
    change (Z.of_nat 2) with 2 in Hsub. rewrite Hsub.
    change (drop 2 (str "*." ++ base)) with base.
    rewrite orb_true_iff, js_eqb_eq, endsWith_spec. split.
    + intros Hd. right; right. exists base. split; [reflexivity | exact Hd].
    + intros [E|[E|(b & E & Hd)]]; [contradiction | contradiction |].
      apply app_inv_head in E. subst b. exact Hd.
  - split; [discriminate|].
    intros [E|[E|(b & E & _)]]; [contradiction | contradiction |].
    exfalso. apply not_true_iff_false in Esub. apply Esub.
    apply startsWith_spec. eauto.
Qed.

Lemma someCovers_matchesAny (patterns : option (list jsstring))
    (domain : jsstring) :
  someCovers patterns domain <->
  match patterns with
  | Some ps => matchesAnyDomain domain ps
  | None => false
  end = true.
Proof.
  unfold someCovers, matchesAnyDomain. destruct patterns as [ps|];
    cbn [default from_option id].
  - rewrite existsb_exists.
    split; intros (p & Hp & Hc); exists p; split; auto;
      apply matchesDomain_spec; exact Hc.
  - split; [intros (p & [] & _) | discriminate].
Qed.

End NetworkFacts.

(** X16.  The order of the network checks and what a domain pattern
    covers.  A pattern covers a domain when it is [*], when it is the
    domain itself, or when it is [*.base] and the domain is [base] or ends
    in [.base].  With the network disabled every domain is denied under
    [network.enabled]; otherwise a domain covered by a blocked pattern is
    denied under [network.blockedDomains], whatever the allowed domains
    say; otherwise, with a non-empty list of allowed domains none of which
    covers it, it is denied under [network.allowedDomains]; otherwise it
    is allowed.  No approval is ever asked for. *)
Theorem evaluateNetworkPolicy_order (policy : NetworkPolicy)
    (domain : jsstring) :
  let e := NetworkRules.evaluateNetworkPolicy policy domain in
  let blocked := Notions.someCovers (blockedDomains policy) domain in
  let listed := Notions.someCovers (allowedDomains policy) domain in
  (net_enabled policy = false ->
   e = mkEval false false (Some (str "Network access is disabled"))
         (Some (str "Use a policy that allows network access"))
         (Some (str "network.enabled"))) /\
  (net_enabled policy = true -> blocked ->
   e = mkEval false false
         (Some (str "Domain " ++ JS.dquote ++ domain ++ JS.dquote
                  ++ str " is blocked"))
         None (Some (str "network.blockedDomains"))) /\
  (net_enabled policy = true -> ~ blocked ->
   default [] (allowedDomains policy) <> [] -> ~ listed ->
   e = mkEval false false
         (Some (str "Domain " ++ JS.dquote ++ domain ++ JS.dquote
                  ++ str " is not in allowed domains"))
         None (Some (str "network.allowedDomains"))) /\
  (net_enabled policy = true -> ~ blocked ->
   default [] (allowedDomains policy) = [] \/ listed ->
   e = mkEval true false None None None) /\
  requiresApproval e = false.
Proof.
  cbv zeta. unfold NetworkRules.evaluateNetworkPolicy.
  rewrite !someCovers_matchesAny.
  split; [intros ->; reflexivity|].
  split; [intros -> ->; reflexivity|].
  split; [|split].
  - intros -> Hb Hne Hl. apply not_true_iff_false in Hb, Hl.
    rewrite Hb. cbn [negb].
    destruct (allowedDomains policy) as [[|a l]|];
      cbn [default from_option id] in Hne; try congruence.
    rewrite Hl. reflexivity.
  - intros -> Hb Hl. apply not_true_iff_false in Hb. rewrite Hb. cbn [negb].
    destruct (allowedDomains policy) as [[|a l]|];
      cbn [default from_option id] in Hl; try reflexivity.
    destruct Hl as [Hl|Hl]; [discriminate|]. rewrite Hl. reflexivity.
  - destruct (negb (net_enabled policy)); [reflexivity|].
    destruct (match blockedDomains policy with
              | Some ps => NetworkRules.matchesAnyDomain domain ps
              | None => false
              end); [reflexivity|].
    destruct (allowedDomains policy) as [[|a l]|]; try reflexivity.
    destruct (negb (NetworkRules.matchesAnyDomain domain (a :: l)));
      reflexivity.
Qed.

(** A policy that allows [*.example.com] and blocks [ads.example.com]:
    the apex and a subdomain are allowed, the blocked subdomain is denied
    although the allowed pattern covers it, and a look-alike domain is
    outside the allowed ones. *)
Lemma evaluateNetworkPolicy_order_witness :
  let policy :=
    mkNetworkPolicy true (Some [str "*.example.com"])
      (Some [str "ads.example.com"]) in
  allowed (NetworkRules.evaluateNetworkPolicy policy (str "example.com"))
  = true /\
  allowed (NetworkRules.evaluateNetworkPolicy policy (str "api.example.com"))
  = true /\
  Policy.policy
    (NetworkRules.evaluateNetworkPolicy policy (str "ads.example.com"))
  = Some (str "network.blockedDomains") /\
  Policy.policy
    (NetworkRules.evaluateNetworkPolicy policy (str "badexample.com"))
  = Some (str "network.allowedDomains").
Proof.
  cbv zeta. repeat apply conj.
  - destruct (evaluateNetworkPolicy_order
                (mkNetworkPolicy true (Some [str "*.example.com"])
                   (Some [str "ads.example.com"])) (str "example.com"))
      as (_ & _ & _ & Ha & _).
    rewrite Ha; [reflexivity | reflexivity | |].
    + intros Hc. apply someCovers_matchesAny in Hc. discriminate Hc.
    + right. apply someCovers_matchesAny. reflexivity.
  - destruct (evaluateNetworkPolicy_order
                (mkNetworkPolicy true (Some [str "*.example.com"])
                   (Some [str "ads.example.com"])) (str "api.example.com"))
      as (_ & _ & _ & Ha & _).
    rewrite Ha; [reflexivity | reflexivity | |].
    + intros Hc. apply someCovers_matchesAny in Hc. discriminate Hc.
    + right. apply someCovers_matchesAny. reflexivity.
  - destruct (evaluateNetworkPolicy_order
                (mkNetworkPolicy true (Some [str "*.example.com"])
                   (Some [str "ads.example.com"])) (str "ads.example.com"))
      as (_ & Hb & _).
    rewrite Hb; [reflexivity | reflexivity |].
    apply someCovers_matchesAny. reflexivity.
  - destruct (evaluateNetworkPolicy_order
                (mkNetworkPolicy true (Some [str "*.example.com"])
                   (Some [str "ads.example.com"])) (str "badexample.com"))
      as (_ & _ & Hl & _).
    rewrite Hl; [reflexivity | reflexivity | | discriminate |].
    + intros Hc. apply someCovers_matchesAny in Hc. discriminate Hc.
    + intros Hc. apply someCovers_matchesAny in Hc. discriminate Hc.
Defined.

(* ===================================================================== *)
(** * Sandbox: further properties of the file operations                  *)
(* ===================================================================== *)

Section Utf8Facts.




(** A text without surrogates goes through UTF-8 unchanged. *)
Lemma toWellFormed_plain (s : jsstring) :
  Notions.noSurrogate s = true -> JS.toWellFormed s = s.
Proof.
  unfold Notions.noSurrogate.
  induction s as [|c rest IH]; [reflexivity|].
  cbn [forallb]. rewrite andb_true_iff, negb_true_iff, orb_false_iff.
  intros [[Hhigh Hlow] Hrest]. cbn [JS.toWellFormed].
  rewrite Hhigh, Hlow, (IH Hrest). reflexivity.
Qed.

End Utf8Facts.



(** X18.  When no new content holds a dollar sign, a successful
    [editFile] has replaced, edit by edit, the first occurrence of the
    probe by the new content taken as it stands, and has written the
    outcome to the target.  The target holds the outcome as it comes back
    from UTF-8: as it stands when it has no surrogate, and with U+FFFD in
    the place of each lone surrogate otherwise. *)
Theorem editFile_replaces_first_occurrences
    (join : list jsstring -> jsstring) (workspacePath relativePath : jsstring)
    (edits : list FileEdit) (fs : gmap jsstring SandboxFs.Node) :
  Forall (fun edit => ~ In 36%N (newContent edit)) edits ->
  Sandbox.fr_success
    (fst (SandboxFs.editFile join workspacePath relativePath edits fs))
  = true ->
  exists content0,
    let outcome :=
      fold_left
        (fun buffer edit =>
           Spec.replaceFirst buffer (oldContent edit) (newContent edit))
        edits content0 in
    fs !! SandboxFs.getFullPath join workspacePath relativePath
    = Some (SandboxFs.File content0) /\
    snd (SandboxFs.editFile join workspacePath relativePath edits fs)
    = <[SandboxFs.getFullPath join workspacePath relativePath :=
          SandboxFs.File (JS.toWellFormed outcome)]> fs /\
    (Notions.noSurrogate outcome = true ->
     snd (SandboxFs.editFile join workspacePath relativePath edits fs)
     = <[SandboxFs.getFullPath join workspacePath relativePath :=
           SandboxFs.File outcome]> fs).
Proof.
  intros Hplain Hok.
  destruct (editFile_plain join workspacePath relativePath edits fs
              Hplain Hok) as (content0 & Hfile & Hfs).
  exists content0. cbv zeta. split; [exact Hfile|]. split; [exact Hfs|].
  intros Hclean. rewrite Hfs, (toWellFormed_plain _ Hclean). reflexivity.
Qed.

(** Two edits on a file that holds [a-b-a]: the second one works on what
    the first one left. *)
Lemma editFile_replaces_first_occurrences_witness :
  snd (SandboxFs.editFile Scenario.slashJoin (str "/ws") (str "f.txt")
         [mkFileEdit (str "a") (str "x"); mkFileEdit (str "x-b") (str "y")]
         {[str "/ws/f.txt" := SandboxFs.File (str "a-b-a")]})
  = {[str "/ws/f.txt" := SandboxFs.File (str "y-a")]}.
Proof.
  assert (Hplain :
    Forall (fun edit => ~ In 36%N (newContent edit))
      [mkFileEdit (str "a") (str "x"); mkFileEdit (str "x-b") (str "y")])
    by (repeat constructor; vm_compute; intuition discriminate).
  assert (Hok :
    Sandbox.fr_success
      (fst (SandboxFs.editFile Scenario.slashJoin (str "/ws") (str "f.txt")
              [mkFileEdit (str "a") (str "x");
               mkFileEdit (str "x-b") (str "y")]
              {[str "/ws/f.txt" := SandboxFs.File (str "a-b-a")]}))
    = true) by (vm_compute; reflexivity).
  destruct (editFile_replaces_first_occurrences Scenario.slashJoin
              (str "/ws") (str "f.txt")
              [mkFileEdit (str "a") (str "x");
               mkFileEdit (str "x-b") (str "y")]
              {[str "/ws/f.txt" := SandboxFs.File (str "a-b-a")]}
              Hplain Hok) as (content0 & Hstored).
  cbv zeta in Hstored. destruct Hstored as (Hfile & _ & Hclean).
  change (SandboxFs.getFullPath Scenario.slashJoin (str "/ws")
            (str "f.txt")) with (str "/ws/f.txt") in Hfile, Hclean.
  rewrite lookup_singleton_eq in Hfile. injection Hfile as <-.
  rewrite Hclean by (vm_compute; reflexivity).
  rewrite insert_singleton_eq. reflexivity.
Defined.



(* ===================================================================== *)
(** * Validation: what an accepted input is                               *)
(* ===================================================================== *)

Lemma ap_inr {A B} (f : Validation.parsed (A -> B)) (x : Validation.parsed A)
    (b : B) :
  Validation.ap f x = inr b -> exists g a, f = inr g /\ x = inr a /\ b = g a.
Proof.
  destruct f as [i|g], x as [j|a]; cbn [Validation.ap]; try discriminate.
  intros [= <-]. eauto.
Qed.

(** Taking a parse of an object apart, member by member. *)
Ltac split_ap H :=
  repeat match type of H with
         | Validation.ap _ _ = inr _ =>
             let g := fresh "g" in
             let a := fresh "a" in
             let Ha := fresh "Ha" in
             apply ap_inr in H;
             destruct H as (g & a & H & Ha & ->)
         | inr _ = inr _ => injection H as <-
         end.

(** The tag of the object selects the schema. *)
Ltac choose_schema Htag :=
  unfold Validation.operationSchema; unfold Spec.hasTag in Htag;
  rewrite Htag;
  repeat match goal with
         | |- context [JS.eqb (str ?a) (str ?b)] =>
             let v := eval vm_compute in (JS.eqb (str a) (str b)) in
             change (JS.eqb (str a) (str b)) with v
         end;
  cbv iota.

Section ValidationSound.
Import Validation Notions.

Lemma flat_map_nil {A B} (f : A -> list B) (l : list A) :
  flat_map f l = [] -> Forall (fun a => f a = []) l.
Proof.
  induction l as [|a l IH]; cbn [flat_map]; [constructor|].
  intros E. apply app_eq_nil in E as [E1 E2]. constructor; auto.
Qed.

Lemma withChecks_inr {A}
    (checks : list (list PathSegment -> A -> list ZodIssue))
    (inner : schema A) (path : list PathSegment) (v : option json) (a : A) :
  withChecks checks inner path v = inr a ->
  inner path v = inr a /\ Forall (fun c => c path a = []) checks.
Proof.
  unfold withChecks. destruct (inner path v) as [i|a0]; [discriminate|].
  destruct (flat_map (fun c => c path a0) checks) eqn:E; [|discriminate].
  intros [= <-]. split; [reflexivity|]. apply flat_map_nil in E. exact E.
Qed.

Lemma check_passes {A} (ok : A -> bool) (message : option jsstring)
    (path : list PathSegment) (a : A) :
  check ok message path a = [] -> ok a = true.
Proof. unfold check. destruct (ok a); [reflexivity | discriminate]. Qed.

Lemma z_string_inr (path : list PathSegment) (v : option json) (s : jsstring) :
  z_string path v = inr s -> v = Some (JStr s).
Proof.
  unfold z_string. destruct v as [[| | |s0| |]|]; try discriminate.
  intros [= <-]. reflexivity.
Qed.

Lemma bounded_inr (n : Z) (path : list PathSegment) (v : option json)
    (s : jsstring) :
  withChecks [maxLength n] z_string path v = inr s ->
  v = Some (JStr s) /\ JS.length s <= n.
Proof.
  intros Hs. apply withChecks_inr in Hs as [Hs Hc].
  apply z_string_inr in Hs. split; [exact Hs|].
  inversion Hc as [|c cs Hlen _]; subst.
  apply check_passes in Hlen. apply Z.leb_le. exact Hlen.
Qed.

Lemma isValidPath_checks (p : jsstring) :
  isValidPath p = true <->
  (JS.length p <=? MAX_PATH_LENGTH) = true /\
  JS.startsWith p (str "/") = false /\
  JS.includes p (str "..") = false /\
  JS.includes p [0%N] = false.
Proof.
  unfold isValidPath, validatePath, MAX_PATH_LENGTH.
  destruct (JS.startsWith p (str "/")); [intuition discriminate|].
  destruct (JS.includes p (str "..")); [intuition discriminate|].
  destruct (JS.includes p [0%N]); [intuition discriminate|].
  destruct (Z.ltb_spec 255 (JS.length p)) as [Hgt|Hle].
  - split; [discriminate|]. intros [Hlen _]. apply Z.leb_le in Hlen. lia.
  - split; [|reflexivity]. intros _. repeat split. apply Z.leb_le. exact Hle.
Qed.

Lemma pathSchema_accepts (path : list PathSegment) (p : jsstring) :
  pathSchema path (Some (JStr p)) = inr p <-> isValidPath p = true.
Proof.
  rewrite isValidPath_checks. unfold pathSchema, withChecks, maxLength, check.
  cbn [z_string flat_map app].
  destruct (JS.length p <=? MAX_PATH_LENGTH);
    destruct (JS.startsWith p (str "/"));
    destruct (JS.includes p (str ".."));
    destruct (JS.includes p [0%N]); cbn [negb app];
    intuition discriminate.
Qed.

Lemma pathSchema_inr (path : list PathSegment) (v : option json)
    (p : jsstring) :
  pathSchema path v = inr p -> v = Some (JStr p) /\ isValidPath p = true.
Proof.
  intros Hp. pose proof Hp as Hs. unfold pathSchema in Hs.
  apply withChecks_inr in Hs as [Hs _]. apply z_string_inr in Hs. subst v.
  split; [reflexivity|]. apply (pathSchema_accepts path). exact Hp.
Qed.

Lemma isValidPath_spec (p : jsstring) :
  isValidPath p = true <-> ~ Spec.badPath p.
Proof.
  rewrite isValidPath_checks. unfold Spec.badPath, MAX_PATH_LENGTH. split.
  - intros (Hlen & Hslash & Hdots & Hnul)
      [[r ->] | [Hd | [Hn | Hl]]].
    + discriminate Hslash.
    + apply includes_spec in Hd. congruence.
    + apply includes_char in Hn. congruence.
    + apply Z.leb_le in Hlen. lia.
  - intros Hgood. repeat split.
    + apply Z.leb_le. destruct (Z_le_gt_dec (JS.length p) 255) as [H|H];
        [exact H|]. exfalso. apply Hgood. right; right; right. lia.
    + apply not_true_iff_false. intros Hs. apply startsWith_spec in Hs.
      destruct Hs as (r & ->). apply Hgood. left. exists r. reflexivity.
    + apply not_true_iff_false. intros Hd. apply includes_spec in Hd.
      apply Hgood. right; left. exact Hd.
    + apply not_true_iff_false. intros Hn. apply includes_spec in Hn.
      destruct Hn as (l & r & ->). apply Hgood. right; right; left.
      apply in_or_app. right. left. reflexivity.
Qed.

Lemma timeoutSchema_inr (path : list PathSegment) (v : option json) (t : Z) :
  timeoutSchema path v = inr t -> MIN_TIMEOUT <= t <= MAX_TIMEOUT.
Proof.
  unfold timeoutSchema.
  destruct (withChecks _ z_number path v) as [i|q] eqn:E; [discriminate|].
  intros [= <-]. apply withChecks_inr in E as [_ Hc].
  inversion Hc as [|c1 cs1 Hint Hc1]; subst.
  inversion Hc1 as [|c2 cs2 Hmin Hc2]; subst.
  inversion Hc2 as [|c3 cs3 Hmax _]; subst.
  apply check_passes in Hint, Hmin, Hmax.
  unfold isInteger in Hint. apply Z.eqb_eq in Hint.
  apply Qle_bool_iff in Hmin, Hmax.
  unfold Qle, inject_Z in Hmin, Hmax. cbn [Qnum Qden] in Hmin, Hmax.
  unfold toInteger, MIN_TIMEOUT, MAX_TIMEOUT in *.
  destruct q as [n d]. cbn [Qnum Qden] in *.
  pose proof (Z.quot_rem' n (Zpos d)) as Hqr. rewrite Hint in Hqr.
  set (k := Z.quot n (Zpos d)) in *. nia.
Qed.

Lemma z_optional_inr {A} (inner : schema A) (path : list PathSegment)
    (v : option json) (o : option A) :
  z_optional inner path v = inr o ->
  forall a, o = Some a -> inner path v = inr a.
Proof.
  unfold z_optional. destruct v as [j|].
  - destruct (inner path (Some j)) as [i|a0]; [discriminate|].
    intros [= <-] a [= <-]. reflexivity.
  - intros [= <-] a [=].
Qed.

Lemma edits_inr (path : list PathSegment) (v : option json)
    (edits : list FileEdit) :
  withChecks
    [check (fun edits : list FileEdit => 1 <=? Z.of_nat (List.length edits))
       None]
    (z_array fileEditSchema) path v = inr edits ->
  edits <> [].
Proof.
  intros He. apply withChecks_inr in He as [_ Hc].
  inversion Hc as [|c cs Hlen _]; subst. apply check_passes in Hlen.
  intros ->. discriminate Hlen.
Qed.

(** An operation that the operation schema hands back is well formed. *)
Lemma operationSchema_sound (path : list PathSegment) (v : option json)
    (op : Operation) :
  operationSchema path v = inr op -> wellFormed op.
Proof.
  unfold operationSchema.
  destruct v as [[| | | | |fields]|]; try discriminate.
  destruct (getField fields (str "type")) as [[| | |tag| |]|];
    try discriminate.
  destruct (JS.eqb tag (str "message")).
  { unfold messageOperationSchema, member. intros H. split_ap H.
    apply bounded_inr in Ha as [_ Hlen]. exact Hlen. }
  destruct (JS.eqb tag (str "createFile")).
  { unfold createFileOperationSchema, member. intros H. split_ap H.
    apply pathSchema_inr in Ha2 as [_ Hp].
    apply bounded_inr in Ha1 as [_ Hlen].
    cbn [wellFormed]. repeat split; try assumption; discriminate. }
  destruct (JS.eqb tag (str "readFile")).
  { unfold readFileOperationSchema, member. intros H. split_ap H.
    apply pathSchema_inr in Ha0 as [_ Hp].
    cbn [wellFormed]. split; [assumption | discriminate]. }
  destruct (JS.eqb tag (str "editFile")).
  { unfold editFileOperationSchema, member. intros H. split_ap H.
    apply pathSchema_inr in Ha0 as [_ Hp]. apply edits_inr in Ha.
    cbn [wellFormed]. split; assumption. }
  destruct (JS.eqb tag (str "deleteFile")).
  { unfold deleteFileOperationSchema, member. intros H. split_ap H.
    apply pathSchema_inr in Ha as [_ Hp]. exact Hp. }
  destruct (JS.eqb tag (str "shell")); [|discriminate].
  unfold shellOperationSchema, member. intros H. split_ap H.
  apply bounded_inr in Ha2 as [_ Hlen].
  cbn [wellFormed]. split; [exact Hlen|]. split.
  - intros d Hd. apply (z_optional_inr _ _ _ _ Ha1) in Hd.
    apply pathSchema_inr in Hd as [_ Hp]. exact Hp.
  - intros t Ht. apply (z_optional_inr _ _ _ _ Ha0) in Ht.
    apply timeoutSchema_inr in Ht. exact Ht.
Qed.

Lemma parseItems_sound {A} (inner : schema A) (good : A -> Prop)
    (path : list PathSegment) :
  (forall p v a, inner p v = inr a -> good a) ->
  forall items i parsed,
    parseItems inner path items i = inr parsed ->
    Forall good parsed /\ List.length parsed = List.length items.
Proof.
  intros Hgood. induction items as [|item rest IH]; intros i parsed;
    cbn [parseItems].
  - intros [= <-]. split; [constructor | reflexivity].
  - intros H. split_ap H.
    destruct (IH _ _ Ha) as [Hall Hlen].
    split; [constructor; eauto | cbn [List.length]; congruence].
Qed.

End ValidationSound.

Section ValidationIssues.
Import Validation Notions.

Lemma reports_ap_l {A B} (f : parsed (A -> B)) (x : parsed A)
    (issue : ZodIssue) :
  reports f issue -> reports (ap f x) issue.
Proof.
  destruct f as [i|g], x as [j|a]; cbn [ap reports]; try tauto.
  intros Hin. apply in_or_app. left. exact Hin.
Qed.

Lemma reports_ap_r {A B} (f : parsed (A -> B)) (x : parsed A)
    (issue : ZodIssue) :
  reports x issue -> reports (ap f x) issue.
Proof.
  destruct f as [i|g], x as [j|a]; cbn [ap reports]; try tauto.
  intros Hin. apply in_or_app. right. exact Hin.
Qed.

Lemma reports_pathSchema (path : list PathSegment) (p message : jsstring) :
  pathFault p message ->
  reports (pathSchema path (Some (JStr p))) (mkIssue path (Some message)).
Proof.
  unfold pathFault, pathSchema, withChecks, maxLength, check.
  cbn [z_string flat_map app].
  intros [[E ->] | [[E ->] | [E ->]]]; rewrite E; cbn [negb];
    destruct (JS.length p <=? MAX_PATH_LENGTH);
    try destruct (JS.startsWith p (str "/"));
    try destruct (JS.includes p (str ".."));
    try destruct (JS.includes p [0%N]);
    cbn [negb app reports In]; auto 6.
Qed.

Lemma reports_parseItems {A} (inner : schema A) (path : list PathSegment)
    (issue : ZodIssue) :
  forall items i n item,
    items !! n = Some item ->
    reports (inner (path ++ [Index (i + n)]) (Some item)) issue ->
    reports (parseItems inner path items i) issue.
Proof.
  induction items as [|x rest IH]; intros i n item Hn Hr;
    [rewrite lookup_nil in Hn; discriminate|].
  cbn [parseItems]. destruct n as [|n]; cbn [lookup list_lookup] in Hn.
  - injection Hn as ->. rewrite Nat.add_0_r in Hr.
    apply reports_ap_l, reports_ap_r. exact Hr.
  - apply reports_ap_r. apply (IH (Datatypes.S i) n item Hn).
    replace (Datatypes.S i + n)%nat with (i + Datatypes.S n)%nat by lia.
    exact Hr.
Qed.

Lemma reports_operation_path (path : list PathSegment)
    (fields : list (jsstring * json)) (p message : jsstring) :
  Spec.hasTag fields "createFile" \/ Spec.hasTag fields "readFile" \/
  Spec.hasTag fields "editFile" \/ Spec.hasTag fields "deleteFile" ->
  Spec.hasMember fields "path" (JStr p) ->
  pathFault p message ->
  reports (operationSchema path (Some (JObj fields)))
    (mkIssue (path ++ [Key (str "path")]) (Some message)).
Proof.
  intros Htag Hp Hfault.
  assert (Hpath : reports (member fields "path" pathSchema path)
                    (mkIssue (path ++ [Key (str "path")]) (Some message))).
  { unfold member. unfold Spec.hasMember in Hp. rewrite Hp.
    apply reports_pathSchema. exact Hfault. }
  destruct Htag as [Htag | [Htag | [Htag | Htag]]]; choose_schema Htag.
  - unfold createFileOperationSchema.
    do 3 apply reports_ap_l. apply reports_ap_r. exact Hpath.
  - unfold readFileOperationSchema.
    apply reports_ap_l. apply reports_ap_r. exact Hpath.
  - unfold editFileOperationSchema.
    apply reports_ap_l. apply reports_ap_r. exact Hpath.
  - unfold deleteFileOperationSchema.
    apply reports_ap_r. exact Hpath.
Qed.

End ValidationIssues.

(** X20.  The path validator and the path schema accept the same texts.
    [isValidPath] holds exactly for the texts that do not start with [/],
    do not contain [..], do not contain a NUL and are at most 255 code
    units long (the empty text among them); the path schema hands back a
    text exactly when [isValidPath] holds for it, and it hands back
    nothing but the text it was given. *)
Theorem validatePath_agrees_with_pathSchema (p : jsstring) :
  (Validation.isValidPath p = true <-> ~ Spec.badPath p) /\
  (forall path,
     Validation.pathSchema path (Some (Validation.JStr p)) = inr p <->
     Validation.isValidPath p = true) /\
  (forall path v,
     Validation.pathSchema path v = inr p -> v = Some (Validation.JStr p)) /\
  Validation.isValidPath [] = true.
Proof.
  split; [apply isValidPath_spec|].
  split; [intros path; apply pathSchema_accepts|].
  split; [|reflexivity].
  intros path v Hp. apply pathSchema_inr in Hp as [Hv _]. exact Hv.
Qed.

(** A nested relative path. *)
Lemma validatePath_agrees_with_pathSchema_witness :
  Validation.isValidPath (str "src/lib/a.ts") = true.
Proof.
  apply (proj1 (proj1 (proj2 (validatePath_agrees_with_pathSchema
                                (str "src/lib/a.ts"))) [])).
  reflexivity.
Defined.

(** X21.  What validation lets through is well formed.  An operation
    returned by [validateOperation] has its text lengths within the
    limits, valid paths, at least one edit, a timeout between 1000 and
    3600000, and [encoding] and [overwrite] filled in; a message returned
    by [validateOperationsMessage] has protocol version [1.0], came from
    an object whose [operations] member is an array, and holds one
    well-formed operation for each item of that array. *)
Theorem validated_operations_are_well_formed :
  (forall input op,
     Validation.validateOperation input
     = Validation.mkValidation true (Some op) None ->
     Notions.wellFormed op) /\
  (forall input message,
     Validation.validateOperationsMessage input
     = Validation.mkValidation true (Some message) None ->
     Validation.protocolVersion message = str "1.0" /\
     Forall Notions.wellFormed (Validation.operations message) /\
     exists fields items,
       input = Validation.JObj fields /\
       Validation.getField fields (str "operations")
       = Some (Validation.JArr items) /\
       List.length (Validation.operations message) = List.length items).
Proof.
  split.
  - intros input op. unfold Validation.validateOperation, Validation.safeParse.
    destruct (Validation.operationSchema [] (Some input)) as [i|op'] eqn:E;
      [discriminate|].
    intros [= <-]. apply (operationSchema_sound _ _ _ E).
  - intros input message.
    unfold Validation.validateOperationsMessage, Validation.safeParse.
    destruct (Validation.operationsMessageSchema [] (Some input))
      as [i|m] eqn:E; [discriminate|].
    intros [= <-]. unfold Validation.operationsMessageSchema in E.
    destruct input as [| | | | |fields]; try discriminate.
    unfold Validation.member in E. split_ap E.
    cbn [Validation.protocolVersion Validation.operations].
    split.
    + unfold Validation.z_literal in Ha0.
      destruct (Validation.getField fields (str "protocolVersion"))
        as [[| | |s| |]|]; try discriminate.
      destruct (JS.eqb s (str "1.0")) eqn:Es; [|discriminate].
      injection Ha0 as <-. apply js_eqb_eq. exact Es.
    + unfold Validation.z_array in Ha.
      destruct (Validation.getField fields (str "operations"))
        as [[| | | |items|]|] eqn:Eops; try discriminate.
      destruct (parseItems_sound Validation.operationSchema Notions.wellFormed
                  _ operationSchema_sound _ _ _ Ha) as [Hall Hlen].
      split; [exact Hall|]. exists fields, items.
      split; [reflexivity|]. split; [exact Eops | exact Hlen].
Qed.

(** A shell operation with a timeout, as it arrives. *)
Lemma validated_operations_are_well_formed_witness :
  Notions.wellFormed
    (ShellOperation None (str "ls -la") None (Some 5000) None).
Proof.
  apply (proj1 validated_operations_are_well_formed
           (Validation.JObj
              [(str "type", Validation.JStr (str "shell"));
               (str "command", Validation.JStr (str "ls -la"));
               (str "timeout", Validation.JNum (inject_Z 5000))])).
  reflexivity.
Defined.

(** X22.  A faulty path is reported where it is.  When the operation at
    index [i] of an envelope is a file operation whose path starts with
    [/], contains [..] or contains a NUL, [validateOperationsMessage]
    fails and its issues include one located at [operations], [i],
    [path] that carries the message of that fault, whatever else is
    wrong with the envelope. *)
Theorem faulty_path_is_reported_in_place
    (fields : list (jsstring * Validation.json))
    (items : list Validation.json) (i : nat)
    (operation : list (jsstring * Validation.json)) (p message : jsstring) :
  Validation.getField fields (str "operations") = Some (Validation.JArr items) ->
  items !! i = Some (Validation.JObj operation) ->
  Spec.hasTag operation "createFile" \/ Spec.hasTag operation "readFile" \/
  Spec.hasTag operation "editFile" \/ Spec.hasTag operation "deleteFile" ->
  Spec.hasMember operation "path" (Validation.JStr p) ->
  Notions.pathFault p message ->
  exists issues,
    Validation.validateOperationsMessage (Validation.JObj fields)
    = Validation.mkValidation false None (Some issues) /\
    In (Validation.mkIssue
          [Validation.Key (str "operations"); Validation.Index i;
           Validation.Key (str "path")] (Some message)) issues.
Proof.
  intros Hops Hitem Htag Hpath Hfault.
  assert (Hr : Notions.reports
                 (Validation.operationsMessageSchema []
                    (Some (Validation.JObj fields)))
                 (Validation.mkIssue
                    [Validation.Key (str "operations"); Validation.Index i;
                     Validation.Key (str "path")] (Some message))).
  { unfold Validation.operationsMessageSchema. apply reports_ap_r.
    unfold Validation.member. rewrite Hops. unfold Validation.z_array.
    apply (reports_parseItems _ _ _ items 0%nat i _ Hitem).
    apply (reports_operation_path
             ([] ++ [Validation.Key (str "operations")] ++
              [Validation.Index (0 + i)]) operation p message Htag Hpath
             Hfault). }
  unfold Validation.validateOperationsMessage, Validation.safeParse.
  destruct (Validation.operationsMessageSchema []
              (Some (Validation.JObj fields))) as [issues|m];
    [|destruct Hr].
  exists issues. split; [reflexivity | exact Hr].
Qed.

(** An envelope whose second operation deletes [/etc/passwd]. *)
Lemma faulty_path_is_reported_in_place_witness :
  exists issues,
    Validation.validateOperationsMessage
      (Validation.JObj
         [(str "protocolVersion", Validation.JStr (str "1.0"));
          (str "operations",
           Validation.JArr
             [Validation.JObj
                [(str "type", Validation.JStr (str "message"));
                 (str "content", Validation.JStr (str "hi"))];
              Validation.JObj
                [(str "type", Validation.JStr (str "deleteFile"));
                 (str "path", Validation.JStr (str "/etc/passwd"))]])])
    = Validation.mkValidation false None (Some issues) /\
    In (Validation.mkIssue
          [Validation.Key (str "operations"); Validation.Index 1;
           Validation.Key (str "path")]
          (Some (str "Path must be relative (no leading /)"))) issues.
Proof.
  eapply (faulty_path_is_reported_in_place _ _ 1
           [(str "type", Validation.JStr (str "deleteFile"));
            (str "path", Validation.JStr (str "/etc/passwd"))]
           (str "/etc/passwd")).
  - reflexivity.
  - reflexivity.
  - right; right; right. reflexivity.
  - reflexivity.
  - left. split; reflexivity.
Defined.

(* ===================================================================== *)
(** * Container output: the stream demultiplexer                          *)
(* ===================================================================== *)

Section DemuxFacts.
Import Docker.
Local Abbreviation Buffer := (list N).

Lemma byteAt_app_r (front back : Buffer) (i : nat) :
  byteAt (front ++ back) (List.length front + i) = byteAt back i.
Proof.
  unfold byteAt. rewrite lookup_app_r by lia.
  replace (List.length front + i - List.length front)%nat with i by lia.
  reflexivity.
Qed.

Lemma readUInt32BE_app_r (front back : Buffer) (i : nat) :
  readUInt32BE (front ++ back) (List.length front + i)
  = readUInt32BE back i.
Proof.
  unfold readUInt32BE.
  rewrite <- !Nat.add_assoc, !byteAt_app_r. reflexivity.
Qed.

Lemma uint32BE_read (n : N) (rest : Buffer) :
  (n < 4294967296)%N ->
  readUInt32BE (uint32BE n ++ rest) 0 = n.
Proof.
  intros Hn. unfold readUInt32BE, uint32BE, byteAt. cbn [app lookup list_lookup
    Nat.add default from_option id].
  change 16777216%N with (256 * 256 * 256)%N.
  change 65536%N with (256 * 256)%N.
  rewrite <- !N.Div0.div_div.
  set (q1 := (n / 256)%N). set (q2 := (q1 / 256)%N). set (q3 := (q2 / 256)%N).
  assert (H3 : (q3 < 256)%N).
  { unfold q3, q2, q1. rewrite !N.Div0.div_div.
    apply N.Div0.div_lt_upper_bound. exact Hn. }
  rewrite (N.mod_small q3 256 H3).
  pose proof (N.div_mod n 256 ltac:(discriminate)) as E1.
  pose proof (N.div_mod q1 256 ltac:(discriminate)) as E2.
  pose proof (N.div_mod q2 256 ltac:(discriminate)) as E3.
  fold q1 in E1. fold q2 in E2. fold q3 in E3. lia.
Qed.

(** The header of a frame read back, wherever the frame sits. *)
Lemma frame_header (front : Buffer) (type : N) (payload rest : Buffer) :
  (N.of_nat (List.length payload) < 4294967296)%N ->
  byteAt (front ++ frame type payload ++ rest) (List.length front) = type /\
  N.to_nat (readUInt32BE (front ++ frame type payload ++ rest)
              (List.length front + 4))
  = List.length payload.
Proof.
  intros Hn. split.
  - rewrite <- (Nat.add_0_r (List.length front)), byteAt_app_r. reflexivity.
  - rewrite readUInt32BE_app_r. unfold frame.
    rewrite <- !app_assoc.
    change 4%nat with (List.length [type; 0; 0; 0]%N + 0)%nat.
    rewrite readUInt32BE_app_r, uint32BE_read by exact Hn.
    apply Nat2N.id.
Qed.

Lemma frame_length (type : N) (payload : Buffer) :
  List.length (frame type payload) = (8 + List.length payload)%nat.
Proof. unfold frame, uint32BE. rewrite !length_app. reflexivity. Qed.

Lemma frame_payload (front : Buffer) (type : N) (payload rest : Buffer) :
  take (List.length payload)
    (drop (List.length front + 8) (front ++ frame type payload ++ rest))
  = payload.
Proof.
  rewrite drop_app_add'; [|reflexivity].
  unfold frame, uint32BE. cbn [app drop].
  rewrite drop_0, take_app_length. reflexivity.
Qed.

Lemma encode_length (frames : list (N * Buffer)) :
  (8 * List.length frames <= List.length (encode frames))%nat.
Proof.
  induction frames as [|f fs IH]; [reflexivity|].
  unfold encode in *. cbn [flat_map List.length].
  rewrite length_app, frame_length. lia.
Qed.

(** The loop on a run of whole frames: one pass for each. *)
Lemma demux_frames (rest : Buffer) (frames : list (N * Buffer)) :
  sized frames ->
  forall (front : Buffer) (fuel : nat) (st : Streams),
    demux (List.length frames + fuel) (front ++ encode frames ++ rest)
      (List.length front) st
    = demux fuel (front ++ encode frames ++ rest)
        (List.length front + List.length (encode frames))
        (fold_left deliver frames st).
Proof.
  induction 1 as [|[type payload] frames Hsize _ IH]; intros front fuel st.
  - cbn [List.length encode flat_map fold_left Nat.add].
    rewrite Nat.add_0_r. reflexivity.
  - cbn [fst snd] in Hsize.
    change (encode ((type, payload) :: frames))
      with (frame type payload ++ encode frames).
    rewrite <- (app_assoc (frame type payload)).
    destruct (frame_header front type payload (encode frames ++ rest) Hsize)
      as [Htype Hread].
    pose proof (frame_payload front type payload (encode frames ++ rest))
      as Hdata.
    set (chunk := front ++ frame type payload ++ encode frames ++ rest) in *.
    assert (Hlen : List.length chunk
                   = (List.length front + (8 + List.length payload)
                      + List.length (encode frames ++ rest))%nat).
    { unfold chunk. rewrite !length_app, frame_length. lia. }
    change (List.length ((type, payload) :: frames) + fuel)%nat
      with (Datatypes.S (List.length frames + fuel)).
    cbn [demux]. rewrite Htype, Hread, Hdata.
    destruct (Nat.ltb_spec (List.length front) (List.length chunk));
      [|lia]. cbn [negb].
    destruct (Nat.ltb_spec (List.length chunk) (List.length front + 8));
      [lia|].
    destruct (Nat.ltb_spec (List.length chunk)
                (List.length front + 8 + List.length payload)); [lia|].
    pose proof (IH (front ++ frame type payload) fuel
                  (deliver st (type, payload))) as Hrest.
    rewrite <- !app_assoc in Hrest. fold chunk in Hrest.
    rewrite length_app, frame_length in Hrest.
    replace (List.length front + 8 + List.length payload)%nat
      with (List.length front + (8 + List.length payload))%nat by lia.
    unfold deliver at 1 in Hrest. cbn [fst snd] in Hrest.
    rewrite Hrest. cbn [fold_left]. unfold deliver at 3. cbn [fst snd].
    rewrite length_app, frame_length. f_equal. lia.
Qed.

Lemma demux_at_end (fuel : nat) (chunk : Buffer) (offset : nat)
    (st : Streams) :
  (List.length chunk <= offset)%nat -> demux fuel chunk offset st = st.
Proof.
  intros Hend. destruct fuel as [|fuel]; [reflexivity|]. cbn [demux].
  destruct (Nat.ltb_spec offset (List.length chunk)); [lia | reflexivity].
Qed.

(** The loop on the beginning of a frame whose end is missing. *)
Lemma demux_partial (fuel : nat) (front partial missing : Buffer)
    (type : N) (payload : Buffer) (st : Streams) :
  (N.of_nat (List.length payload) < 4294967296)%N ->
  frame type payload = partial ++ missing ->
  missing <> [] ->
  demux fuel (front ++ partial) (List.length front) st = st.
Proof.
  intros Hsize Hframe Hmissing.
  destruct fuel as [|fuel]; [reflexivity|]. cbn [demux].
  rewrite length_app.
  destruct (Nat.ltb_spec (List.length front)
              (List.length front + List.length partial)); [|reflexivity].
  cbn [negb].
  destruct (Nat.ltb_spec (List.length front + List.length partial)
              (List.length front + 8)); [reflexivity|].
  assert (Hshort : (List.length partial < 8 + List.length payload)%nat).
  { pose proof (f_equal (@List.length N) Hframe) as Hl.
    rewrite frame_length, length_app in Hl.
    destruct missing; [congruence | cbn [List.length] in Hl; lia]. }
  assert (Hread :
    N.to_nat (readUInt32BE (front ++ partial) (List.length front + 4))
    = List.length payload).
  { rewrite readUInt32BE_app_r.
    assert (Hp : partial
                 = [type; 0; 0; 0]%N
                   ++ uint32BE (N.of_nat (List.length payload))
                   ++ drop 8 partial).
    { transitivity (take 8 (frame type payload) ++ drop 8 partial);
        [|reflexivity].
      rewrite Hframe, take_app_le by lia. symmetry. apply take_drop. }
    remember (drop 8 partial) as tail eqn:Etail. clear Etail. subst partial.
    change 4%nat with (List.length [type; 0; 0; 0]%N + 0)%nat.
    rewrite readUInt32BE_app_r.
    rewrite uint32BE_read by exact Hsize. apply Nat2N.id. }
  rewrite Hread.
  destruct (Nat.ltb_spec (List.length front + List.length partial)
              (List.length front + 8 + List.length payload));
    [reflexivity | lia].
Qed.

Lemma deliver_all (frames : list (N * Buffer)) :
  forall st,
    fold_left deliver frames st
    = mkStreams (stdoutChunks st ++ payloads 1 frames)
        (stderrChunks st ++ payloads 2 frames).
Proof.
  unfold payloads.
  induction frames as [|[type payload] frames IH]; intros st.
  - cbn [fold_left List.filter List.map]. rewrite !app_nil_r.
    destruct st; reflexivity.
  - cbn [fold_left List.filter fst]. rewrite IH. unfold deliver.
    cbn [fst snd].
    destruct (N.eqb_spec type 1) as [->|H1].
    + cbn [stdoutChunks stderrChunks List.map snd N.eqb Pos.eqb].
      rewrite <- app_assoc. reflexivity.
    + destruct (N.eqb_spec type 2) as [->|H2].
      * cbn [stdoutChunks stderrChunks List.map snd].
        rewrite <- app_assoc. reflexivity.
      * reflexivity.
Qed.

Lemma demux_whole (frames : list (N * Buffer)) (st : Streams) (fuel : nat) :
  sized frames ->
  (List.length (encode frames) < fuel)%nat ->
  demux fuel (encode frames) 0 st
  = mkStreams (stdoutChunks st ++ payloads 1 frames)
      (stderrChunks st ++ payloads 2 frames).
Proof.
  intros Hsized Hfuel. pose proof (encode_length frames) as Hlen.
  replace fuel with (List.length frames + (fuel - List.length frames))%nat
    by lia.
  pose proof (demux_frames [] frames Hsized [] (fuel - List.length frames)
                st) as Hloop.
  cbn [app List.length Nat.add] in Hloop. rewrite app_nil_r in Hloop.
  rewrite Hloop, demux_at_end by lia. apply deliver_all.
Qed.

End DemuxFacts.

(** X23.  The demultiplexer delivers whole frames.  On a chunk made of
    frames (a header of type, three unused bytes and the payload size as
    a big-endian 32-bit number, then the payload), the [data] handler
    appends to [stdoutChunks] the payloads of the frames of type 1 and to
    [stderrChunks] those of type 2, each in the order of arrival, and
    skips the frames of any other type; concatenated, the streams grow by
    exactly the bytes written to them.  Any larger bound on the number of
    passes of the loop gives the same streams. *)
Theorem demux_delivers_whole_frames (frames : list (N * list N))
    (st : Docker.Streams) :
  Docker.sized frames ->
  Docker.onData (Docker.encode frames) st
  = Docker.mkStreams
      (Docker.stdoutChunks st ++ Docker.payloads 1 frames)
      (Docker.stderrChunks st ++ Docker.payloads 2 frames) /\
  Docker.concat (Docker.stdoutChunks (Docker.onData (Docker.encode frames) st))
  = Docker.concat (Docker.stdoutChunks st)
    ++ Docker.concat (Docker.payloads 1 frames) /\
  (forall fuel,
     (List.length (Docker.encode frames) < fuel)%nat ->
     Docker.demux fuel (Docker.encode frames) 0 st
     = Docker.onData (Docker.encode frames) st).
Proof.
  intros Hsized.
  assert (Hdata : Docker.onData (Docker.encode frames) st
                  = Docker.mkStreams
                      (Docker.stdoutChunks st ++ Docker.payloads 1 frames)
                      (Docker.stderrChunks st ++ Docker.payloads 2 frames)).
  { unfold Docker.onData. apply demux_whole; [exact Hsized | lia]. }
  split; [exact Hdata|]. split.
  - rewrite Hdata. cbn [Docker.stdoutChunks]. unfold Docker.concat.
    apply concat_app.
  - intros fuel Hfuel. rewrite Hdata. apply demux_whole; assumption.
Qed.

(** Two bytes on standard output, one frame of another type, one byte on
    standard error. *)
Lemma demux_delivers_whole_frames_witness :
  Docker.onData
    [1; 0; 0; 0; 0; 0; 0; 2; 104; 105;
     0; 0; 0; 0; 0; 0; 0; 1; 63;
     2; 0; 0; 0; 0; 0; 0; 1; 33]%N
    (Docker.mkStreams [] [])
  = Docker.mkStreams [[104; 105]%N] [[33%N]].
Proof.
  apply (proj1 (demux_delivers_whole_frames
                  [(1, [104; 105]); (0, [63]); (2, [33])]%N
                  (Docker.mkStreams [] [])
                  ltac:(repeat constructor))).
Defined.

(** X24.  A frame cut off by the end of the chunk is lost.  When a chunk
    holds whole frames followed by the beginning of one more frame (its
    header incomplete, or its payload shorter than the header says), the
    handler delivers the whole frames and drops the beginning of the last
    one: the streams are as if the chunk had ended before it, and nothing
    of it is kept for the next chunk. *)
Theorem demux_drops_a_cut_frame (frames : list (N * list N))
    (type : N) (payload partial missing : list N) (st : Docker.Streams) :
  Docker.sized ((type, payload) :: frames) ->
  Docker.frame type payload = partial ++ missing ->
  missing <> [] ->
  Docker.onData (Docker.encode frames ++ partial) st
  = Docker.onData (Docker.encode frames) st.
Proof.
  intros Hsized Hframe Hmissing.
  inversion Hsized as [|f fs Hsize Hframes]; subst. cbn [snd] in Hsize.
  unfold Docker.onData.
  rewrite (demux_whole frames st _ Hframes (Nat.lt_succ_diag_r _)).
  pose proof (encode_length frames) as Hlen.
  replace (Datatypes.S (List.length (Docker.encode frames ++ partial)))
    with (List.length frames
          + (Datatypes.S (List.length (Docker.encode frames ++ partial))
             - List.length frames))%nat
    by (rewrite length_app; lia).
  pose proof (demux_frames partial frames Hframes []
                (Datatypes.S (List.length (Docker.encode frames ++ partial))
                 - List.length frames) st) as Hloop.
  cbn [app List.length Nat.add] in Hloop. rewrite Hloop.
  rewrite (demux_partial _ (Docker.encode frames) partial missing type payload
             _ Hsize Hframe Hmissing).
  apply deliver_all.
Qed.

(** The chunk of the example above, cut two bytes before its end. *)
Lemma demux_drops_a_cut_frame_witness :
  Docker.onData
    [1; 0; 0; 0; 0; 0; 0; 2; 104; 105;
     2; 0; 0; 0; 0; 0; 0]%N
    (Docker.mkStreams [] [])
  = Docker.onData [1; 0; 0; 0; 0; 0; 0; 2; 104; 105]%N
      (Docker.mkStreams [] []).
Proof.
  apply (demux_drops_a_cut_frame [(1, [104; 105])]%N 2 [33]%N
           [2; 0; 0; 0; 0; 0; 0]%N [1; 33]%N (Docker.mkStreams [] [])).
  - repeat constructor.
  - reflexivity.
  - discriminate.
Defined.

(* ===================================================================== *)
(** * The run routes                                                      *)
(* ===================================================================== *)

Section RouteFacts.
Import Sandbox Executor RunSvc RunsRoute.
Context {S : Type} `{SandboxOps S}.

(** What [create] leaves, by its outcome. *)
Lemma create_inv (w w' : Services S) (spaceId fresh : jsstring)
    (operations : list Operation) (o : outcome (Run * ExecuteRunResult)) :
  create spaceId operations fresh w = (o, w') ->
  match o with
  | Return (run, result) =>
      runs w' = <[run_id run := run]> (runs w) /\
      runs w !! run_id run = None /\
      run = mkRun (str "run_" ++ fresh) spaceId (status result) operations
              (events result) (pendingApproval result)
  | Throw _ => runs w' = runs w
  end.
Proof.
  unfold create.
  destruct (sandboxes w !! spaceId) as [sandbox|];
    [|intros [= <- <-]; reflexivity].
  destruct (policyEngines w !! spaceId) as [policyEngine|];
    [|intros [= <- <-]; reflexivity].
  cbv zeta.
  destruct (executeRun operations sandbox policyEngine) as [[r|m] sandbox'];
    [|intros [= <- <-]; reflexivity].
  destruct (runs w !! (str "run_" ++ fresh)) eqn:Hfree;
    intros [= <- <-]; [reflexivity|].
  cbn [run_id runs]. auto.
Qed.

(** A created run has a pending approval exactly when it awaits one. *)
Lemma create_pending (w w' : Services S) (spaceId fresh : jsstring)
    (operations : list Operation) (run : Run) (result : ExecuteRunResult) :
  create spaceId operations fresh w = (Return (run, result), w') ->
  (run_status run = AwaitingApproval ->
   exists pending, run_pendingApproval run = Some pending) /\
  (run_status run <> AwaitingApproval -> run_pendingApproval run = None).
Proof.
  unfold create.
  destruct (sandboxes w !! spaceId) as [sandbox|]; [|discriminate].
  destruct (policyEngines w !! spaceId) as [policyEngine|]; [|discriminate].
  cbv zeta.
  destruct (executeRun operations sandbox policyEngine)
    as [[r|m] sandbox'] eqn:Hrun; [|discriminate].
  destruct (runs w !! (str "run_" ++ fresh)); [discriminate|].
  intros [= <- <- <-]. cbn [run_status run_pendingApproval].
  destruct (executeLoop_inv policyEngine operations sandbox r sandbox' Hrun)
    as (_ & _ & Hcompleted & Hawaiting & Hstatus & _).
  split.
  - intros Hst.
    destruct (Hawaiting Hst) as (front & op & why & details & _ & Hp & _).
    eauto.
  - intros Hst. destruct Hstatus as [Hc|Ha]; [|contradiction].
    apply (Hcompleted Hc).
Qed.


End RouteFacts.

(** X25.  The route that submits a run validates before it runs.  The
    answer has status 200, 201, 400 or 500.  With 400 (the body or one of
    its operations is refused) nothing has been executed or stored: the
    services are as before.  With 500 (the space is missing, or the
    policy engine threw) no run has been stored.  With 200 or 201 every
    operation handed to the executor is well formed and the run is stored
    under a new id; the status is 200 exactly when the run awaits
    approval.  A GET of the new id then answers 200 with the same id,
    space, status, version and events.  Its [pendingApproval] is the one
    of the POST answer when the run awaits approval; for any other run
    the POST answer has no such member and the GET answer has [null].
    (The members [startedAt] and [completedAt] of the two answers are
    readings of the clock and not covered.) *)
Theorem postRun_validates_before_running {S : Type} `{Sandbox.SandboxOps S}
    (spaceId : jsstring) (request : Validation.json) (fresh : jsstring)
    (w : RunSvc.Services S) :
  let response := fst (RunsRoute.postRun spaceId request fresh w) in
  let w' := snd (RunsRoute.postRun spaceId request fresh w) in
  let code := RunsRoute.statusCode response in
  (code = 200 \/ code = 201 \/ code = 400 \/ code = 500) /\
  (code = 400 -> w' = w) /\
  (code = 500 -> RunSvc.runs w' = RunSvc.runs w) /\
  (code = 200 \/ code = 201 ->
   exists run,
     let answered pendingApproval :=
       RunsRoute.RunData (RunSvc.run_id run) (RunSvc.run_spaceId run)
         (RunSvc.run_status run) RunsRoute.PROTOCOL_VERSION
         (RunSvc.run_events run) pendingApproval in
     RunSvc.get (RunSvc.run_id run) w' = Some run /\
     RunSvc.get (RunSvc.run_id run) w = None /\
     Forall Notions.wellFormed (RunSvc.run_operations run) /\
     (code = 200 <-> RunSvc.run_status run = AwaitingApproval) /\
     (code = 200 ->
      exists pending,
        RunSvc.run_pendingApproval run = Some pending /\
        RunsRoute.body response = answered (RunsRoute.Present pending) /\
        RunsRoute.getRun (RunSvc.run_id run) w'
        = RunsRoute.mkResponse 200 (answered (RunsRoute.Present pending))) /\
     (code = 201 ->
      RunSvc.run_pendingApproval run = None /\
      RunsRoute.body response = answered RunsRoute.Absent /\
      RunsRoute.getRun (RunSvc.run_id run) w'
      = RunsRoute.mkResponse 200 (answered RunsRoute.Null))).
Proof.
  cbv zeta. unfold RunsRoute.postRun.
  destruct (RunsRoute.createRunSchema [] (Some request))
    as [issues|[version operations]];
    [cbn [fst snd RunsRoute.statusCode]; intuition discriminate|].
  unfold Validation.safeParse.
  destruct (Validation.operationsMessageSchema [] _) as [issues|message] eqn:Ev;
    cbn [Validation.success Validation.data negb];
    [cbn [fst snd RunsRoute.statusCode]; intuition discriminate|].
  assert (Hwf : Forall Notions.wellFormed (Validation.operations message)).
  { unfold Validation.operationsMessageSchema, Validation.member in Ev.
    split_ap Ev. cbn [Validation.operations].
    cbn [Validation.getField] in Ha.
    change (JS.eqb (str "protocolVersion") (str "operations")) with false
      in Ha.
    change (JS.eqb (str "operations") (str "operations")) with true in Ha.
    cbv iota in Ha. cbn [Validation.z_array] in Ha.
    apply (parseItems_sound Validation.operationSchema Notions.wellFormed _
             operationSchema_sound _ _ _ Ha). }
  destruct (RunSvc.create spaceId (Validation.operations message) fresh w)
    as [[[run result]|m] w'] eqn:Hc.
  - pose proof (create_pending _ _ _ _ _ _ _ Hc) as [Hawaiting Hother].
    apply create_inv in Hc. destruct Hc as (Hruns & Hfree & Hrun).
    cbn [fst snd RunsRoute.statusCode RunsRoute.body].
    assert (Hevents : Executor.events result = RunSvc.run_events run)
      by (rewrite Hrun; reflexivity).
    assert (Hpending :
      Executor.pendingApproval result = RunSvc.run_pendingApproval run)
      by (rewrite Hrun; reflexivity).
    rewrite Hevents, Hpending.
    assert (Hcode :
      (match RunSvc.run_status run with
       | AwaitingApproval => 200
       | _ => 201
       end = 200 <-> RunSvc.run_status run = AwaitingApproval) /\
      (match RunSvc.run_status run with
       | AwaitingApproval => 200
       | _ => 201
       end = 201 <-> RunSvc.run_status run <> AwaitingApproval)).
    { destruct (RunSvc.run_status run);
        (split; split; intros E);
        first [reflexivity | discriminate E | congruence]. }
    destruct Hcode as [Hiff Hiff'].
    split; [destruct (RunSvc.run_status run); tauto|].
    split; [destruct (RunSvc.run_status run); discriminate|].
    split; [destruct (RunSvc.run_status run); discriminate|].
    intros _. exists run. unfold RunsRoute.getRun, RunSvc.get.
    rewrite Hruns, lookup_insert_eq.
    split; [reflexivity|]. split; [exact Hfree|].
    split; [rewrite Hrun; exact Hwf|]. split; [exact Hiff|].
    split.
    + intros Hcode. destruct (Hawaiting (proj1 Hiff Hcode)) as [pending Hp].
      exists pending. rewrite Hp. repeat split.
    + intros Hcode. rewrite (Hother (proj1 Hiff' Hcode)). repeat split.
  - apply create_inv in Hc. cbn [fst snd RunsRoute.statusCode].
    split; [tauto|]. split; [discriminate|]. split; [intros _; exact Hc|].
    intros [E|E]; discriminate E.
Qed.

(** The gated command of scenario S4, submitted alone: the answer is
    200, the stored run awaits approval and a GET answers the body of the
    POST.  A message submitted alone: the answer is 201 and has no
    [pendingApproval], where the GET answers [null]. *)
Lemma postRun_validates_before_running_witness :
  let envelope operation :=
    Validation.JObj
      [(str "protocolVersion", Validation.JStr (str "1.0"));
       (str "operations", Validation.JArr [Validation.JObj operation])] in
  let gated :=
    envelope
      [(str "type", Validation.JStr (str "shell"));
       (str "id", Validation.JStr (str "op1"));
       (str "command", Validation.JStr Scenario.gatedCommand)] in
  let note :=
    envelope
      [(str "type", Validation.JStr (str "message"));
       (str "content", Validation.JStr (str "hi"))] in
  let w := Scenario.services ([] : list Spec.Call) standardPolicy in
  (exists run,
     RunSvc.get (RunSvc.run_id run)
       (snd (RunsRoute.postRun Scenario.spaceId gated (str "a") w))
     = Some run /\
     RunSvc.run_status run = AwaitingApproval /\
     RunsRoute.getRun (RunSvc.run_id run)
       (snd (RunsRoute.postRun Scenario.spaceId gated (str "a") w))
     = RunsRoute.mkResponse 200
         (RunsRoute.body
            (fst (RunsRoute.postRun Scenario.spaceId gated (str "a") w)))) /\
  (exists run,
     RunsRoute.body
       (fst (RunsRoute.postRun Scenario.spaceId note (str "b") w))
     = RunsRoute.RunData (RunSvc.run_id run) (RunSvc.run_spaceId run)
         Completed RunsRoute.PROTOCOL_VERSION (RunSvc.run_events run)
         RunsRoute.Absent /\
     RunsRoute.getRun (RunSvc.run_id run)
       (snd (RunsRoute.postRun Scenario.spaceId note (str "b") w))
     = RunsRoute.mkResponse 200
         (RunsRoute.RunData (RunSvc.run_id run) (RunSvc.run_spaceId run)
            Completed RunsRoute.PROTOCOL_VERSION (RunSvc.run_events run)
            RunsRoute.Null)).
Proof.
  cbv zeta. split.
  - destruct (postRun_validates_before_running Scenario.spaceId
                (Validation.JObj
                   [(str "protocolVersion", Validation.JStr (str "1.0"));
                    (str "operations",
                     Validation.JArr
                       [Validation.JObj
                          [(str "type", Validation.JStr (str "shell"));
                           (str "id", Validation.JStr (str "op1"));
                           (str "command",
                            Validation.JStr Scenario.gatedCommand)]])])
                (str "a")
                (Scenario.services ([] : list Spec.Call) standardPolicy))
      as (_ & _ & _ & Hstored).
    assert (Hcode :
      RunsRoute.statusCode
        (fst (RunsRoute.postRun Scenario.spaceId
                (Validation.JObj
                   [(str "protocolVersion", Validation.JStr (str "1.0"));
                    (str "operations",
                     Validation.JArr
                       [Validation.JObj
                          [(str "type", Validation.JStr (str "shell"));
                           (str "id", Validation.JStr (str "op1"));
                           (str "command",
                            Validation.JStr Scenario.gatedCommand)]])])
                (str "a")
                (Scenario.services ([] : list Spec.Call) standardPolicy)))
      = 200) by (vm_compute; reflexivity).
    destruct (Hstored (or_introl Hcode)) as (run & Hrun).
    cbv zeta in Hrun. destruct Hrun as (Hget & _ & _ & Hiff & Hawaiting & _).
    destruct (Hawaiting Hcode) as (pending & _ & Hbody & Hanswer).
    exists run. split; [exact Hget|]. split; [apply Hiff; exact Hcode|].
    rewrite Hbody. exact Hanswer.
  - destruct (postRun_validates_before_running Scenario.spaceId
                (Validation.JObj
                   [(str "protocolVersion", Validation.JStr (str "1.0"));
                    (str "operations",
                     Validation.JArr
                       [Validation.JObj
                          [(str "type", Validation.JStr (str "message"));
                           (str "content", Validation.JStr (str "hi"))]])])
                (str "b")
                (Scenario.services ([] : list Spec.Call) standardPolicy))
      as (_ & _ & _ & Hstored).
    assert (Hcode :
      RunsRoute.statusCode
        (fst (RunsRoute.postRun Scenario.spaceId
                (Validation.JObj
                   [(str "protocolVersion", Validation.JStr (str "1.0"));
                    (str "operations",
                     Validation.JArr
                       [Validation.JObj
                          [(str "type", Validation.JStr (str "message"));
                           (str "content", Validation.JStr (str "hi"))]])])
                (str "b")
                (Scenario.services ([] : list Spec.Call) standardPolicy)))
      = 201) by (vm_compute; reflexivity).
    destruct (Hstored (or_intror Hcode)) as (run & Hrun).
    cbv zeta in Hrun.
    destruct Hrun as (_ & _ & _ & Hiff & _ & Hfinished).
    destruct (Hfinished Hcode) as (_ & Hbody & Hanswer).
    assert (Hstatus : RunSvc.run_status run = Completed).
    { assert (Hshape :
        exists id space events pending,
          RunsRoute.body
            (fst (RunsRoute.postRun Scenario.spaceId
                    (Validation.JObj
                       [(str "protocolVersion",
                         Validation.JStr (str "1.0"));
                        (str "operations",
                         Validation.JArr
                           [Validation.JObj
                              [(str "type",
                                Validation.JStr (str "message"));
                               (str "content",
                                Validation.JStr (str "hi"))]])])
                    (str "b")
                    (Scenario.services ([] : list Spec.Call)
                       standardPolicy)))
          = RunsRoute.RunData id space Completed RunsRoute.PROTOCOL_VERSION
              events pending)
        by (vm_compute; eauto).
      destruct Hshape as (id & space & events & pending & Hshape).
      rewrite Hbody in Hshape. injection Hshape as _ _ Hst _ _.
      exact Hst. }
    exists run. rewrite <- Hstatus. split; [exact Hbody | exact Hanswer].
Defined.



(* ===================================================================== *)
(** * Paths and the workspace                                             *)
(* ===================================================================== *)

Section PathFacts.
Import NodePath.

Lemma split_cons (path : jsstring) : exists seg segs, split path = seg :: segs.
Proof.
  induction path as [|c rest (seg & segs & IH)]; cbn [split]; [eauto|].
  destruct (N.eqb c 47); [eauto|]. rewrite IH. eauto.
Qed.

Lemma split_sep (a b : jsstring) :
  split (a ++ 47%N :: b) = split a ++ split b.
Proof.
  induction a as [|c a IH]; [reflexivity|].
  cbn [app split]. destruct (N.eqb c 47).
  - rewrite IH. reflexivity.
  - rewrite IH. destruct (split_cons a) as (seg & segs & ->). reflexivity.
Qed.

Lemma split_plain (seg : jsstring) :
  existsb (N.eqb 47) seg = false -> split seg = [seg].
Proof.
  induction seg as [|c seg IH]; [reflexivity|].
  cbn [existsb split]. intros Hno. apply orb_false_iff in Hno as [Hc Hrest].
  rewrite N.eqb_sym, Hc, (IH Hrest). reflexivity.
Qed.

Lemma isName_spec (seg : jsstring) :
  isName seg = true ->
  JS.eqb seg [] = false /\ existsb (N.eqb 47) seg = false /\
  JS.eqb seg (str ".") = false /\ JS.eqb seg (str "..") = false.
Proof.
  unfold isName. rewrite !andb_true_iff, !negb_true_iff. tauto.
Qed.

Lemma split_join (segs : list jsstring) :
  segs <> [] -> forallb isName segs = true ->
  split (JS.join segs (str "/")) = segs.
Proof.
  induction segs as [|x [|y rest] IH]; [congruence | |]; intros _ Hnames.
  - cbn [JS.join]. cbn [forallb] in Hnames.
    apply andb_true_iff in Hnames as [Hx _].
    apply split_plain, (isName_spec x Hx).
  - cbn [forallb] in Hnames. apply andb_true_iff in Hnames as [Hx Hrest].
    change (JS.join (x :: y :: rest) (str "/"))
      with (x ++ 47%N :: JS.join (y :: rest) (str "/")).
    rewrite split_sep, (split_plain x) by apply (isName_spec x Hx).
    rewrite IH by (try discriminate; exact Hrest). reflexivity.
Qed.

(** Names are kept as they come. *)
Lemma normalizeString_names (allowAboveRoot : bool) (segs : list jsstring) :
  forallb isName segs = true ->
  forall res rest,
    normalizeString allowAboveRoot res (segs ++ rest)
    = normalizeString allowAboveRoot (rev segs ++ res) rest.
Proof.
  induction segs as [|seg segs IH]; intros Hnames res rest; [reflexivity|].
  cbn [forallb] in Hnames. apply andb_true_iff in Hnames as [Hseg Hsegs].
  destruct (isName_spec seg Hseg) as (He & _ & Hd & Hdd).
  cbn [app normalizeString]. rewrite He, Hd, Hdd. cbn [orb].
  rewrite (IH Hsegs). cbn [rev]. rewrite <- app_assoc. reflexivity.
Qed.

Lemma join_snoc (segs : list jsstring) (seg : jsstring) :
  segs <> [] ->
  JS.join (segs ++ [seg]) (str "/")
  = JS.join segs (str "/") ++ str "/" ++ seg.
Proof.
  induction segs as [|x [|y rest] IH]; [congruence | reflexivity |].
  intros _. change (JS.join ((x :: y :: rest) ++ [seg]) (str "/"))
    with (x ++ str "/" ++ JS.join ((y :: rest) ++ [seg]) (str "/")).
  rewrite IH by discriminate.
  change (JS.join (x :: y :: rest) (str "/"))
    with (x ++ str "/" ++ JS.join (y :: rest) (str "/")).
  rewrite <- !app_assoc. reflexivity.
Qed.

Lemma join_last_grows (segs : list jsstring) (seg more : jsstring) :
  JS.join (segs ++ [seg ++ more]) (str "/")
  = JS.join (segs ++ [seg]) (str "/") ++ more.
Proof.
  destruct segs as [|x rest]; [reflexivity|].
  rewrite !join_snoc by discriminate. rewrite <- !app_assoc. reflexivity.
Qed.

Lemma join_nonempty (segs : list jsstring) :
  segs <> [] -> forallb isName segs = true ->
  JS.join segs (str "/") <> [].
Proof.
  destruct segs as [|x rest]; [congruence|]. intros _ Hnames.
  cbn [forallb] in Hnames. apply andb_true_iff in Hnames as [Hx _].
  destruct (isName_spec x Hx) as (He & _).
  destruct x as [|c x]; [discriminate He|].
  destruct rest; discriminate.
Qed.

Lemma endsWithSlash_app (front back : jsstring) :
  back <> [] -> endsWithSlash (front ++ back) = endsWithSlash back.
Proof.
  intros Hback. unfold endsWithSlash.
  destruct (exists_last Hback) as (body & c & ->).
  rewrite app_assoc, !last_snoc. reflexivity.
Qed.

Lemma endsWithSlash_plain (seg : jsstring) :
  existsb (N.eqb 47) seg = false -> endsWithSlash seg = false.
Proof.
  intros Hno. unfold endsWithSlash.
  destruct (last seg) as [c|] eqn:El; [|reflexivity].
  apply last_Some in El as (body & ->).
  rewrite existsb_app in Hno. apply orb_false_iff in Hno as [_ Hc].
  cbn [existsb] in Hc. rewrite orb_false_r, N.eqb_sym in Hc. exact Hc.
Qed.

(** What [normalize] gives for an absolute path, from its segments. *)
Lemma normalize_segments (dirs : list jsstring) (path : jsstring) :
  dirs <> [] -> forallb isName dirs = true ->
  hd 0%N path = 47%N ->
  normalizeString false [] (split path) = dirs ->
  normalize path
  = absolute dirs ++ (if endsWithSlash path then str "/" else []).
Proof.
  intros Hne Hnames Hhd Hsegs.
  unfold normalize. destruct path as [|c path'].
  - cbn [split normalizeString JS.eqb orb rev] in Hsegs. congruence.
  - cbn [hd] in Hhd. subst c. change (N.eqb 47 47) with true. cbv zeta.
    cbn [negb]. rewrite Hsegs.
    pose proof (join_nonempty dirs Hne Hnames) as Hj.
    destruct (JS.join dirs (str "/")) as [|d ds] eqn:Ej; [congruence|].
    unfold absolute. rewrite Ej.
    destruct (endsWithSlash (47%N :: path')).
    + rewrite <- app_assoc. reflexivity.
    + rewrite app_nil_r. reflexivity.
Qed.

Lemma split_absolute (dirs : list jsstring) :
  dirs <> [] -> forallb isName dirs = true ->
  split (absolute dirs) = [] :: dirs.
Proof.
  intros Hne Hnames. unfold absolute.
  change (str "/" ++ ?x) with ([] ++ 47%N :: x).
  rewrite split_sep, split_join by assumption. reflexivity.
Qed.

Lemma endsWithSlash_absolute (dirs : list jsstring) :
  dirs <> [] -> forallb isName dirs = true ->
  endsWithSlash (absolute dirs) = false.
Proof.
  intros Hne Hnames. unfold absolute.
  rewrite endsWithSlash_app by (apply join_nonempty; assumption).
  destruct (exists_last Hne) as (front & name & ->).
  rewrite forallb_app in Hnames. apply andb_true_iff in Hnames as [_ Hn].
  cbn [forallb] in Hn. rewrite andb_true_r in Hn.
  destruct (isName_spec name Hn) as (He & Hslash & _).
  destruct front as [|f front'].
  - apply endsWithSlash_plain. exact Hslash.
  - rewrite join_snoc by discriminate.
    rewrite app_assoc, endsWithSlash_app by (intros ->; discriminate He).
    apply endsWithSlash_plain. exact Hslash.
Qed.

Lemma absolute_nonempty (dirs : list jsstring) :
  JS.eqb (absolute dirs) [] = false.
Proof. reflexivity. Qed.

Lemma join_workspace (dirs : list jsstring) :
  dirs <> [] -> forallb isName dirs = true ->
  join [absolute dirs] = absolute dirs.
Proof.
  intros Hne Hnames. unfold join. cbn [List.filter].
  rewrite absolute_nonempty. cbn [negb JS.join].
  assert (Hsegs : normalizeString false [] (split (absolute dirs)) = dirs).
  { rewrite split_absolute by assumption. cbn [normalizeString JS.eqb orb].
    pose proof (normalizeString_names false dirs Hnames [] []) as Hn.
    rewrite !app_nil_r in Hn. rewrite Hn. apply rev_involutive. }
  rewrite (normalize_segments dirs (absolute dirs) Hne Hnames eq_refl Hsegs).
  rewrite endsWithSlash_absolute by assumption. apply app_nil_r.
Qed.

(** Joining a relative path to the workspace: the segments of the
    workspace, then those of the path, normalized together. *)
Lemma join_relative (dirs : list jsstring) (relativePath : jsstring)
    (target : list jsstring) :
  dirs <> [] -> forallb isName dirs = true ->
  relativePath <> [] ->
  target <> [] -> forallb isName target = true ->
  normalizeString false (rev dirs) (split relativePath) = target ->
  join [absolute dirs; relativePath]
  = absolute target
    ++ (if endsWithSlash relativePath then str "/" else []).
Proof.
  intros Hne Hnames Hrel Htne Htnames Hsegs. unfold join. cbn [List.filter].
  rewrite absolute_nonempty. cbn [negb].
  assert (Hr : JS.eqb relativePath [] = false)
    by (destruct relativePath; [congruence | reflexivity]).
  rewrite Hr. cbn [negb].
  change (JS.join [absolute dirs; relativePath] (str "/"))
    with (absolute dirs ++ 47%N :: relativePath).
  rewrite (normalize_segments target); try assumption; try reflexivity.
  - rewrite (endsWithSlash_app (absolute dirs) (47%N :: relativePath))
      by discriminate.
    change (47%N :: relativePath) with ([47%N] ++ relativePath).
    rewrite endsWithSlash_app by exact Hrel. reflexivity.
  - rewrite split_sep, split_absolute by assumption.
    cbn [app normalizeString JS.eqb orb].
    pose proof (normalizeString_names false dirs Hnames []
                  (split relativePath)) as Hn.
    rewrite app_nil_r in Hn. rewrite Hn. exact Hsegs.
Qed.

End PathFacts.

Section WorkspaceFacts.
Import NodePath.

Lemma rev_snoc_names (parents : list jsstring) (name : jsstring) :
  rev (parents ++ [name]) = name :: rev parents.
Proof. rewrite rev_app_distr. reflexivity. Qed.

(** The path [../name+suffix] joined to the directory [.../name]. *)
Lemma join_sibling (parents : list jsstring) (name suffix : jsstring) :
  forallb isName (parents ++ [name]) = true ->
  isName (name ++ suffix) = true ->
  join [absolute (parents ++ [name]); str "../" ++ name ++ suffix]
  = absolute (parents ++ [name]) ++ suffix.
Proof.
  intros Hnames Hsibling.
  pose proof Hnames as Hsplit. rewrite forallb_app in Hsplit.
  apply andb_true_iff in Hsplit as [Hparents Hname].
  cbn [forallb] in Hname. rewrite andb_true_r in Hname.
  destruct (isName_spec name Hname) as (_ & _ & _ & Hdd).
  destruct (isName_spec _ Hsibling) as (Hse & Hss & Hsd & Hsdd).
  assert (Hne : parents ++ [name] <> []) by (destruct parents; discriminate).
  assert (Htne : parents ++ [name ++ suffix] <> [])
    by (destruct parents; discriminate).
  assert (Htnames : forallb isName (parents ++ [name ++ suffix]) = true).
  { rewrite forallb_app, Hparents. cbn [forallb]. rewrite Hsibling.
    reflexivity. }
  assert (Hrel : str "../" ++ name ++ suffix <> []).
  { change (str "../" ++ name ++ suffix)
      with (46%N :: 46%N :: 47%N :: name ++ suffix). discriminate. }
  assert (Hsegs :
    normalizeString false (rev (parents ++ [name]))
      (split (str "../" ++ name ++ suffix))
    = parents ++ [name ++ suffix]).
  { change (str "../" ++ name ++ suffix)
      with (str ".." ++ 47%N :: (name ++ suffix)).
    rewrite split_sep, (split_plain (str "..")) by reflexivity.
    rewrite (split_plain _ Hss), rev_snoc_names.
    cbn [app normalizeString].
    change (JS.eqb (str "..") []) with false.
    change (JS.eqb (str "..") (str ".")) with false.
    change (JS.eqb (str "..") (str "..")) with true.
    cbn [orb]. rewrite Hdd, Hse, Hsd, Hsdd. cbn [orb rev].
    rewrite rev_involutive. reflexivity. }
  etransitivity;
    [exact (join_relative (parents ++ [name]) _
              (parents ++ [name ++ suffix])
              Hne Hnames Hrel Htne Htnames Hsegs)|].
  change (str "../" ++ name ++ suffix) with (str "../" ++ (name ++ suffix)).
  rewrite endsWithSlash_app by (intros E; rewrite E in Hse; discriminate Hse).
  rewrite (endsWithSlash_plain _ Hss), app_nil_r.
  unfold absolute. rewrite join_last_grows, <- app_assoc. reflexivity.
Qed.

(** A segment of a path occurs in it. *)
Lemma split_head_prefix (path : jsstring) :
  exists rest, path = hd [] (split path) ++ rest.
Proof.
  induction path as [|c path (rest & IH)]; [exists []; reflexivity|].
  cbn [split]. destruct (N.eqb c 47); [exists (c :: path); reflexivity|].
  destruct (split_cons path) as (seg & segs & E). rewrite E in *.
  cbn [hd] in *. exists rest. cbn [app]. f_equal. exact IH.
Qed.

Lemma split_occurs (path seg : jsstring) :
  In seg (split path) -> Spec.occursIn seg path.
Proof.
  induction path as [|c path IH]; cbn [split].
  - intros [<-|[]]. exists [], []. reflexivity.
  - destruct (N.eqb c 47).
    + intros [<-|Hin]; [exists [], (c :: path); reflexivity|].
      destruct (IH Hin) as (l & r & ->). exists (c :: l), r. reflexivity.
    + destruct (split_cons path) as (seg0 & segs & E). rewrite E in *.
      intros [<-|Hin].
      * destruct (split_head_prefix path) as (rest & Hp). rewrite E in Hp.
        cbn [hd] in Hp. exists [], rest. cbn [app]. f_equal. exact Hp.
      * destruct (IH (or_intror Hin)) as (l & r & ->).
        exists (c :: l), r. reflexivity.
Qed.

Lemma split_no_slash (path : jsstring) :
  Forall (fun seg => existsb (N.eqb 47) seg = false) (split path).
Proof.
  induction path as [|c path IH]; cbn [split]; [repeat constructor|].
  destruct (N.eqb c 47) eqn:Ec; [constructor; [reflexivity | exact IH]|].
  destruct (split_cons path) as (seg0 & segs & E). rewrite E in *.
  inversion IH as [|s l H0 Hl]; subst. constructor; [|exact Hl].
  cbn [existsb]. rewrite N.eqb_sym, Ec, H0. reflexivity.
Qed.

End WorkspaceFacts.

Section WorkspaceInside.
Import NodePath.

Lemma normalizeString_kept (allowAboveRoot : bool) (segs : list jsstring) :
  Forall (fun seg => JS.eqb seg (str "..") = false) segs ->
  forall res,
    normalizeString allowAboveRoot res segs = rev res ++ kept segs.
Proof.
  induction 1 as [|seg segs Hseg _ IH]; intros res.
  - cbn [normalizeString kept List.filter]. rewrite app_nil_r. reflexivity.
  - cbn [normalizeString kept List.filter].
    destruct (JS.eqb seg [] || JS.eqb seg (str ".")); cbn [negb].
    + apply IH.
    + rewrite Hseg, IH. cbn [rev]. rewrite <- app_assoc. reflexivity.
Qed.

Lemma kept_names (segs : list jsstring) :
  Forall (fun seg => existsb (N.eqb 47) seg = false) segs ->
  Forall (fun seg => JS.eqb seg (str "..") = false) segs ->
  forallb isName (kept segs) = true.
Proof.
  induction 1 as [|seg segs Hslash _ IH]; intros Hdots; [reflexivity|].
  inversion Hdots as [|s l Hdd Hrest]; subst.
  cbn [kept List.filter].
  destruct (JS.eqb seg [] || JS.eqb seg (str ".")) eqn:E; cbn [negb].
  - apply IH. exact Hrest.
  - cbn [forallb]. apply orb_false_iff in E as [He Hd].
    unfold isName at 1. rewrite He, Hslash, Hd, Hdd. cbn [negb andb].
    apply IH. exact Hrest.
Qed.

Lemma join_app (front back : list jsstring) :
  front <> [] -> back <> [] ->
  JS.join (front ++ back) (str "/")
  = JS.join front (str "/") ++ str "/" ++ JS.join back (str "/").
Proof.
  intros Hf Hb. induction front as [|x [|y rest] IH]; [congruence | |].
  - destruct back as [|b back]; [congruence|]. reflexivity.
  - change (JS.join ((x :: y :: rest) ++ back) (str "/"))
      with (x ++ str "/" ++ JS.join ((y :: rest) ++ back) (str "/")).
    rewrite IH by discriminate.
    change (JS.join (x :: y :: rest) (str "/"))
      with (x ++ str "/" ++ JS.join (y :: rest) (str "/")).
    rewrite <- !app_assoc. reflexivity.
Qed.

(** Where a valid relative path leads from the workspace. *)
Lemma join_valid (dirs : list jsstring) (relativePath : jsstring) :
  dirs <> [] -> forallb isName dirs = true ->
  Validation.isValidPath relativePath = true ->
  join [absolute dirs; relativePath] = absolute dirs \/
  exists below,
    join [absolute dirs; relativePath] = absolute dirs ++ str "/" ++ below.
Proof.
  intros Hne Hnames Hvalid.
  destruct relativePath as [|c rel].
  { left. unfold join. cbn [List.filter JS.eqb negb].
    rewrite absolute_nonempty. cbn [negb].
    exact (join_workspace dirs Hne Hnames). }
  apply isValidPath_checks in Hvalid as (_ & _ & Hdots & _).
  set (relativePath := c :: rel) in *.
  assert (Hnodots : Forall (fun seg => JS.eqb seg (str "..") = false)
                      (split relativePath)).
  { apply Forall_forall. intros seg Hin.
    apply not_true_iff_false. intros E. apply js_eqb_eq in E. subst seg.
    apply list_elem_of_In, split_occurs, includes_spec in Hin. congruence. }
  pose proof (kept_names _ (split_no_slash relativePath) Hnodots) as Hkept.
  assert (Htnames : forallb isName (dirs ++ kept (split relativePath)) = true)
    by (rewrite forallb_app, Hnames, Hkept; reflexivity).
  assert (Htne : dirs ++ kept (split relativePath) <> [])
    by (destruct dirs; [congruence | discriminate]).
  assert (Hsegs : normalizeString false (rev dirs) (split relativePath)
                  = dirs ++ kept (split relativePath)).
  { rewrite (normalizeString_kept false _ Hnodots), rev_involutive.
    reflexivity. }
  rewrite (join_relative dirs relativePath _ Hne Hnames ltac:(discriminate)
             Htne Htnames Hsegs).
  unfold absolute.
  destruct (kept (split relativePath)) as [|k ks] eqn:Ek.
  - rewrite app_nil_r. destruct (endsWithSlash relativePath).
    + right. exists []. rewrite <- !app_assoc. reflexivity.
    + left. rewrite app_nil_r. reflexivity.
  - right. rewrite join_app by (try assumption; discriminate).
    eexists. rewrite <- !app_assoc. reflexivity.
Qed.

End WorkspaceInside.

(** X27.  The workspace check lets a sibling of the workspace through.
    [isPathInWorkspace] compares the joined path with the workspace path
    as texts, so for a workspace [/.../name] the relative path
    [../name+suffix] passes although it names an entry outside the
    workspace, next to it: the full path is the workspace path with
    [suffix] appended, and [deleteFile] on it removes that file. *)
Theorem workspace_check_admits_a_sibling
    (parents : list jsstring) (name suffix : jsstring) :
  forallb NodePath.isName (parents ++ [name]) = true ->
  NodePath.isName (name ++ suffix) = true ->
  let workspacePath := NodePath.absolute (parents ++ [name]) in
  let relativePath := str "../" ++ name ++ suffix in
  SandboxFs.isPathInWorkspace NodePath.join workspacePath relativePath
  = true /\
  SandboxFs.getFullPath NodePath.join workspacePath relativePath
  = workspacePath ++ suffix /\
  (forall unlinkDirectory (fs : gmap jsstring SandboxFs.Node) text,
     fs !! (workspacePath ++ suffix) = Some (SandboxFs.File text) ->
     SandboxDelete.deleteFile NodePath.join unlinkDirectory workspacePath
       relativePath fs
     = (Sandbox.mkFileResult true relativePath None None None None,
        delete (workspacePath ++ suffix) fs)).
Proof.
  intros Hnames Hsibling. cbv zeta.
  assert (Hne : parents ++ [name] <> []) by (destruct parents; discriminate).
  assert (Hfull :
    SandboxFs.getFullPath NodePath.join
      (NodePath.absolute (parents ++ [name])) (str "../" ++ name ++ suffix)
    = NodePath.absolute (parents ++ [name]) ++ suffix).
  { unfold SandboxFs.getFullPath. apply join_sibling; assumption. }
  assert (Hin :
    SandboxFs.isPathInWorkspace NodePath.join
      (NodePath.absolute (parents ++ [name])) (str "../" ++ name ++ suffix)
    = true).
  { unfold SandboxFs.isPathInWorkspace. cbv zeta.
    unfold SandboxFs.getFullPath in Hfull. rewrite Hfull.
    rewrite (join_workspace _ Hne Hnames).
    apply startsWith_spec. eauto. }
  split; [exact Hin|]. split; [exact Hfull|].
  intros unlinkDirectory fs text Hfile.
  unfold SandboxDelete.deleteFile. cbv zeta. rewrite Hin, Hfull. cbn [negb].
  unfold SandboxFs.existsSync, SandboxDelete.fsUnlink.
  match type of Hfile with
  | ?lookup = _ =>
      repeat match goal with
             | |- context [fs !! ?k] =>
                 progress change (fs !! k) with lookup
             end
  end.
  rewrite Hfile. reflexivity.
Qed.

(** The workspace [/srv/ws] and the relative path [../ws-backup]: the
    check passes, and the full path is the sibling [/srv/ws-backup]. *)
Lemma workspace_check_admits_a_sibling_witness :
  SandboxFs.isPathInWorkspace NodePath.join (str "/srv/ws")
    (str "../ws-backup")
  = true /\
  SandboxFs.getFullPath NodePath.join (str "/srv/ws") (str "../ws-backup")
  = str "/srv/ws-backup".
Proof.
  destruct (workspace_check_admits_a_sibling [str "srv"] (str "ws")
              (str "-backup") eq_refl eq_refl) as (Hin & Hfull & _).
  split; [exact Hin | exact Hfull].
Defined.

(** X28.  A path that validation accepts stays in the workspace.  For a
    workspace directory given by its names and a relative path for which
    [isValidPath] holds (no leading slash, no [..]), the workspace check
    passes and the full path is the workspace path itself or the
    workspace path followed by a slash and more: file operations on
    validated paths never leave the workspace. *)
Theorem valid_paths_stay_in_the_workspace
    (dirs : list jsstring) (relativePath : jsstring) :
  dirs <> [] ->
  forallb NodePath.isName dirs = true ->
  Validation.isValidPath relativePath = true ->
  let workspacePath := NodePath.absolute dirs in
  SandboxFs.isPathInWorkspace NodePath.join workspacePath relativePath
  = true /\
  (SandboxFs.getFullPath NodePath.join workspacePath relativePath
   = workspacePath \/
   exists below,
     SandboxFs.getFullPath NodePath.join workspacePath relativePath
     = workspacePath ++ str "/" ++ below).
Proof.
  intros Hne Hnames Hvalid. cbv zeta.
  unfold SandboxFs.isPathInWorkspace, SandboxFs.getFullPath. cbv zeta.
  rewrite (join_workspace _ Hne Hnames).
  pose proof (join_valid dirs relativePath Hne Hnames Hvalid) as Hjoin.
  split; [|exact Hjoin].
  apply startsWith_spec.
  destruct Hjoin as [-> | (below & ->)]; [exists [] | eauto].
  rewrite app_nil_r. reflexivity.
Qed.

(** A nested path with a [.] segment and a doubled slash. *)
Lemma valid_paths_stay_in_the_workspace_witness :
  SandboxFs.isPathInWorkspace NodePath.join (str "/srv/ws")
    (str "src/./lib//a.ts")
  = true.
Proof.
  apply (valid_paths_stay_in_the_workspace [str "srv"; str "ws"]
           (str "src/./lib//a.ts")).
  - discriminate.
  - reflexivity.
  - reflexivity.
Defined.

Section ShellDecisions.

(** When the shell rules ask for an approval. *)
Lemma gated_shell_spec (policy : ShellPolicy) (command : jsstring) :
  requiresApproval (ShellRules.evaluateShellPolicy policy command) = true ->
  sh_enabled policy = true /\
  ~ Spec.someOccurs (blockedPatterns policy) command /\
  Spec.someOccurs (approvalRequired policy) command /\
  (default [] (allowedCommands policy) = [] \/
   exists b,
     Spec.baseToken command b /\ In b (default [] (allowedCommands policy))).
Proof.
  unfold ShellRules.evaluateShellPolicy.
  destruct (sh_enabled policy); cbn [negb]; [|intros E; discriminate E].
  destruct (match blockedPatterns policy with
            | Some ps => ShellRules.matchesAnyPattern command ps
            | None => false
            end) eqn:Hb; [intros E; discriminate E|].
  apply not_someOccurs in Hb.
  destruct (match approvalRequired policy with
            | Some ps => ShellRules.matchesAnyPattern command ps
            | None => false
            end) eqn:Ha.
  - apply someOccurs_matchesAny in Ha. cbv zeta.
    destruct (allowedCommands policy) as [[|c cs]|];
      cbn [default from_option id];
      [intros _; auto | | intros _; auto].
    destruct (JS.arrayIncludes (c :: cs)
                (ShellRules.extractBaseCommand command)) eqn:Hl;
      cbn [negb]; [|intros E; discriminate E].
    intros _. apply listed_spec in Hl. auto.
  - cbv zeta. destruct (allowedCommands policy) as [[|c cs]|];
      try (intros E; discriminate E).
    destruct (negb (JS.arrayIncludes (c :: cs)
                      (ShellRules.extractBaseCommand command)));
      intros E; discriminate E.
Qed.

(** A base command outside a non-empty allowlist is denied. *)
Lemma unlisted_denied (policy : ShellPolicy) (command : jsstring) :
  sh_enabled policy = true ->
  default [] (allowedCommands policy) <> [] ->
  (exists b,
     Spec.baseToken command b /\
     ~ In b (default [] (allowedCommands policy))) ->
  let e := ShellRules.evaluateShellPolicy policy command in
  allowed e = false /\ requiresApproval e = false /\
  (Policy.policy e = Some (str "shell.blockedPatterns") \/
   Policy.policy e = Some (str "shell.allowedCommands")).
Proof.
  intros Hen Hne Hun. cbv zeta. unfold ShellRules.evaluateShellPolicy.
  rewrite Hen. cbn [negb].
  destruct (match blockedPatterns policy with
            | Some ps => ShellRules.matchesAnyPattern command ps
            | None => false
            end); [cbn; auto|].
  cbv zeta. destruct (allowedCommands policy) as [[|c cs]|];
    cbn [default from_option id] in *; try congruence.
  apply unlisted_spec in Hun. rewrite Hun. cbn. auto.
Qed.

End ShellDecisions.

(** X29.  Runs of a destroyed space.  Destroying a space leaves its runs
    in the table as they are.  From then on submitting a run to the space
    throws "Space ... not found or not initialized" and stores nothing,
    and a run of the space that awaits approval can no longer be resumed:
    [resume] throws the same error whatever the approval says, and the
    run stays [awaiting_approval] until it is cancelled, which still
    works. *)
Theorem runs_of_a_destroyed_space {S : Type} `{Sandbox.SandboxOps S}
    (w : RunSvc.Services S) (spaceId : jsstring) :
  let w' := SpaceSvc.destroy spaceId w in
  (forall runId, RunSvc.get runId w' = RunSvc.get runId w) /\
  (forall operations fresh,
     RunSvc.create spaceId operations fresh w'
     = (Throw (RunSvc.spaceMissing spaceId), w')) /\
  (forall runId run approval,
     RunSvc.get runId w = Some run ->
     RunSvc.run_spaceId run = spaceId ->
     RunSvc.run_status run = AwaitingApproval ->
     RunSvc.resume runId approval w'
     = (Throw (RunSvc.spaceMissing spaceId), w') /\
     RunSvc.run_status <$> fst (RunSvc.cancel runId w') = Some Cancelled).
Proof.
  cbv zeta. split; [reflexivity|]. split.
  - intros operations fresh. unfold RunSvc.create, SpaceSvc.destroy.
    cbn [RunSvc.sandboxes RunSvc.policyEngines].
    rewrite !lookup_delete_eq. reflexivity.
  - intros runId run approval Hget Hspace Hstatus. split.
    + unfold RunSvc.resume, RunSvc.get, SpaceSvc.destroy in *.
      cbn [RunSvc.runs RunSvc.sandboxes RunSvc.policyEngines].
      rewrite Hget, Hstatus, Hspace, !lookup_delete_eq. reflexivity.
    + unfold RunSvc.cancel, RunSvc.get, SpaceSvc.destroy in *.
      cbn [RunSvc.runs fst]. rewrite Hget, lookup_insert_eq. reflexivity.
Qed.

(** The suspended run of scenario S4 after its space was destroyed. *)
Lemma runs_of_a_destroyed_space_witness :
  RunSvc.resume (str "run_a")
    (RunSvc.mkApproval (str "op1") RunSvc.Denied None)
    (SpaceSvc.destroy Scenario.spaceId
       (Notions.suspended ([] : list Spec.Call)))
  = (Throw (RunSvc.spaceMissing Scenario.spaceId),
     SpaceSvc.destroy Scenario.spaceId
       (Notions.suspended ([] : list Spec.Call))).
Proof.
  destruct (runs_of_a_destroyed_space
              (Notions.suspended ([] : list Spec.Call)) Scenario.spaceId)
    as (_ & _ & Hresume).
  destruct (Hresume (str "run_a") Notions.suspendedRun
              (RunSvc.mkApproval (str "op1") RunSvc.Denied None)
              (lookup_singleton_eq _ _) eq_refl eq_refl) as [Hthrow _].
  exact Hthrow.
Defined.

(** X30.  Under the standard preset a command whose base command is [rm]
    is denied, never gated.  The approval patterns [rm -rf] and [rm -r]
    of the preset are looked at only after the allowlist, and [rm] is not
    on it; so such a command is denied under [shell.blockedPatterns] or
    [shell.allowedCommands].  More generally, whenever the standard
    preset asks for an approval, the base command is on the allowlist, no
    blocked pattern occurs in the command and [rm -r] occurs in it
    (as in [ls && rm -rf tmp]). *)
Theorem standardPolicy_never_gates_rm (command : jsstring) :
  let e := ShellRules.evaluateShellPolicy (shell standardPolicy) command in
  (Spec.baseToken command (str "rm") ->
   allowed e = false /\ requiresApproval e = false /\
   (Policy.policy e = Some (str "shell.blockedPatterns") \/
    Policy.policy e = Some (str "shell.allowedCommands"))) /\
  (requiresApproval e = true ->
   (exists b,
      Spec.baseToken command b /\
      In b (default [] (allowedCommands (shell standardPolicy)))) /\
   ~ Spec.someOccurs (blockedPatterns (shell standardPolicy)) command /\
   Spec.occursIn (str "rm -r") command).
Proof.
  cbv zeta. split.
  - intros Hrm.
    apply (unlisted_denied (shell standardPolicy) command);
      [reflexivity | discriminate |].
    exists (str "rm"). split; [exact Hrm|].
    intros Hin. apply arrayIncludes_spec in Hin. discriminate Hin.
  - intros Hgated.
    destruct (gated_shell_spec _ _ Hgated) as (_ & Hb & Ha & Hl).
    split; [|split; [exact Hb|]].
    + destruct Hl as [Hl|Hl]; [discriminate Hl | exact Hl].
    + destruct Ha as (p & Hp & l & r & ->).
      cbn [default from_option id approvalRequired shell standardPolicy In]
        in Hp.
      destruct Hp as [<-|[<-|[]]].
      * exists l, (str "f" ++ r). reflexivity.
      * exists l, r. reflexivity.
Qed.

(** The command of scenario S4 as the specification writes it, and the
    form of it that the preset gates. *)
Lemma standardPolicy_never_gates_rm_witness :
  allowed (ShellRules.evaluateShellPolicy (shell standardPolicy)
             (str "rm -rf tmp")) = false /\
  Spec.occursIn (str "rm -r") (str "ls && rm -rf tmp").
Proof.
  split.
  - destruct (proj1 (standardPolicy_never_gates_rm (str "rm -rf tmp")))
      as (Hdenied & _).
    + exists (str " -rf tmp"). split; [reflexivity|]. split.
      * vm_compute. intuition discriminate.
      * right. exists (str "-rf tmp"). reflexivity.
    + exact Hdenied.
  - destruct (proj2 (standardPolicy_never_gates_rm (str "ls && rm -rf tmp"))
                eq_refl) as (_ & _ & Hocc).
    exact Hocc.
Defined.
